(** * PlanMyDay backend: the response repair engine, the prompt builder and
      the plan handler of [backend/src/index.ts]

    The development embeds [parseAIResponse], [buildPrompt] and
    [generatePlan] of the worker together with the parts of the JavaScript
    runtime they rest on (strings as sequences of UTF-16 code units, the
    regular expressions of the source written out as matchers, and
    [JSON.parse]), and proves the properties the design document states
    about them. *)

From Stdlib Require Import String Ascii NArith ZArith Bool Arith Lia List.
From Stdlib Require Import DecimalString.
Import ListNotations.

Set Warnings "-register-all".

(** ** JavaScript strings *)

(** A JavaScript string is a finite sequence of UTF-16 code units. *)
Definition jsstring := list N.

Module JS.

(** An ASCII literal of the source as a JavaScript string. *)
Definition lit (s : string) : jsstring :=
  map N_of_ascii (list_ascii_of_string s).

Definition dquote : N := 34.

(** The literal [s] between double quotes, as in ['"schedule"']. *)
Definition quoted (s : string) : jsstring := dquote :: lit s ++ [dquote].

Fixpoint eqb (a b : jsstring) : bool :=
  match a, b with
  | [], [] => true
  | x :: a', y :: b' => (x =? y)%N && eqb a' b'
  | _, _ => false
  end.

(** [\s] of a regular expression and the characters [String.prototype.trim]
    removes: WhiteSpace and LineTerminator of ECMA-262. *)
Definition is_space (c : N) : bool :=
  ((9 <=? c) && (c <=? 13) || (c =? 32) || (c =? 160) || (c =? 5760)
   || (8192 <=? c) && (c <=? 8202) || (c =? 8232) || (c =? 8233)
   || (c =? 8239) || (c =? 8287) || (c =? 12288) || (c =? 65279))%N.

Fixpoint dropWhile (p : N -> bool) (s : jsstring) : jsstring :=
  match s with
  | [] => []
  | c :: t => if p c then dropWhile p t else s
  end.

(** [\s*] at the start of a string: what is left after it. *)
Definition skip_spaces (s : jsstring) : jsstring := dropWhile is_space s.

(** The string without its trailing white space. *)
Definition drop_trailing_spaces (s : jsstring) : jsstring :=
  rev (dropWhile is_space (rev s)).

(** [s.trim()] *)
Definition trim (s : jsstring) : jsstring :=
  drop_trailing_spaces (skip_spaces s).

(** [s.startsWith(p)], returning what follows [p]. *)
Fixpoint strip_prefix (p s : jsstring) : option jsstring :=
  match p, s with
  | [], _ => Some s
  | a :: p', b :: s' => if (a =? b)%N then strip_prefix p' s' else None
  | _ :: _, [] => None
  end.

Definition starts_with (p s : jsstring) : bool :=
  match strip_prefix p s with Some _ => true | None => false end.

(** [s.endsWith(p)], returning what precedes [p]. *)
Definition strip_suffix (p s : jsstring) : option jsstring :=
  match strip_prefix (rev p) (rev s) with
  | Some r => Some (rev r)
  | None => None
  end.

(** [s.includes(p)] *)
Fixpoint includes (p s : jsstring) : bool :=
  starts_with p s ||
  match s with
  | [] => false
  | _ :: t => includes p t
  end.

(** [s.substring(0, n)] *)
Definition substring0 (n : nat) (s : jsstring) : jsstring := firstn n s.

(** [(s.match(/c/g) || []).length] for a single character [c]. *)
Definition count_char (c : N) (s : jsstring) : nat :=
  length (filter (N.eqb c) s).

(** [parts.join(sep)] *)
Fixpoint join (sep : jsstring) (parts : list jsstring) : jsstring :=
  match parts with
  | [] => []
  | [p] => p
  | p :: rest => p ++ sep ++ join sep rest
  end.

(** Canonicalisation of a character under the [i] flag, for a comparison with
    an ASCII pattern character: an ASCII letter is upper-cased, and a
    character outside ASCII never canonicalises into ASCII. *)
Definition canonicalize (c : N) : N :=
  if ((97 <=? c) && (c <=? 122))%N then (c - 32)%N else c.

(** A literal prefix matched under the [i] flag. *)
Fixpoint strip_prefix_ci (p s : jsstring) : option jsstring :=
  match p, s with
  | [], _ => Some s
  | a :: p', b :: s' =>
      if (canonicalize a =? canonicalize b)%N then strip_prefix_ci p' s'
      else None
  | _ :: _, [] => None
  end.

(** The suffix of [s] that starts at the first occurrence of [c]. *)
Fixpoint from_first (c : N) (s : jsstring) : option jsstring :=
  match s with
  | [] => None
  | d :: t => if (d =? c)%N then Some s else from_first c t
  end.

(** The prefix of [s] that ends at the last occurrence of [c]. *)
Fixpoint through_last (c : N) (s : jsstring) : option jsstring :=
  match s with
  | [] => None
  | d :: t =>
      match through_last c t with
      | Some r => Some (d :: r)
      | None => if (d =? c)%N then Some [d] else None
      end
  end.

(** [a] occurs in [s] as a run of consecutive characters. *)
Definition infix (a s : jsstring) : Prop := exists l r, s = l ++ a ++ r.

End JS.

(** ** JSON values and [JSON.parse] *)

(** The values [JSON.parse] produces. A number is kept as its token: the
    IEEE double the token denotes is not computed. An object is the list of
    its properties in creation order. *)
Inductive JSON : Type :=
| JNull
| JBool (b : bool)
| JNumber (tok : jsstring)
| JString (s : jsstring)
| JArray (elems : list JSON)
| JObject (props : list (jsstring * JSON)).

Module Json.

(** [obj[k] = v] on an ordinary object (CreateDataProperty): an existing
    property keeps its place and takes the new value, a new one is added
    last. *)
Fixpoint set_prop (k : jsstring) (v : JSON) (props : list (jsstring * JSON))
  : list (jsstring * JSON) :=
  match props with
  | [] => [(k, v)]
  | (k', v') :: rest =>
      if JS.eqb k k' then (k, v) :: rest else (k', v') :: set_prop k v rest
  end.

(** [obj[k]], [None] standing for [undefined]. *)
Fixpoint get_prop (k : jsstring) (props : list (jsstring * JSON))
  : option JSON :=
  match props with
  | [] => None
  | (k', v) :: rest => if JS.eqb k k' then Some v else get_prop k rest
  end.

(** [v[k]] for any value [v] that came out of [JSON.parse]. *)
Definition get (k : jsstring) (v : JSON) : option JSON :=
  match v with
  | JObject props => get_prop k props
  | _ => None
  end.

(** JSON white space: tab, line feed, carriage return, space. *)
Definition is_ws (c : N) : bool :=
  ((c =? 9) || (c =? 10) || (c =? 13) || (c =? 32))%N.

Definition is_digit (c : N) : bool := ((48 <=? c) && (c <=? 57))%N.

Definition hex_value (c : N) : option N :=
  if ((48 <=? c) && (c <=? 57))%N then Some (c - 48)%N
  else if ((65 <=? c) && (c <=? 70))%N then Some (c - 55)%N
  else if ((97 <=? c) && (c <=? 102))%N then Some (c - 87)%N
  else None.

(** Where the parser stands inside a number token: an optional minus, then
    a zero or a digit string without a leading zero, then an optional
    fraction (a dot and digits), then an optional exponent (e or E, an
    optional sign, digits). *)
Inductive num_state :=
| NMinus | NZero | NInt | NDot | NFrac | NExp | NExpSign | NExpDigits.

Definition num_next (st : num_state) (c : N) : option num_state :=
  match st with
  | NMinus =>
      if (c =? 48)%N then Some NZero
      else if is_digit c then Some NInt else None
  | NZero =>
      if (c =? 46)%N then Some NDot
      else if ((c =? 101) || (c =? 69))%N then Some NExp else None
  | NInt =>
      if is_digit c then Some NInt
      else if (c =? 46)%N then Some NDot
      else if ((c =? 101) || (c =? 69))%N then Some NExp else None
  | NDot => if is_digit c then Some NFrac else None
  | NFrac =>
      if is_digit c then Some NFrac
      else if ((c =? 101) || (c =? 69))%N then Some NExp else None
  | NExp =>
      if ((c =? 43) || (c =? 45))%N then Some NExpSign
      else if is_digit c then Some NExpDigits else None
  | NExpSign => if is_digit c then Some NExpDigits else None
  | NExpDigits => if is_digit c then Some NExpDigits else None
  end.

Definition num_complete (st : num_state) : bool :=
  match st with
  | NZero | NInt | NFrac | NExpDigits => true
  | _ => false
  end.

(** Where the parser stands inside a string token. *)
Inductive str_state :=
| SPlain
| SEscape
| SUnicode (seen : nat) (code : N).

(** A container that is open while its members are read. *)
Inductive frame :=
| FArray (elems : list JSON)
| FObject (props : list (jsstring * JSON))
| FMember (props : list (jsstring * JSON)) (key : jsstring).

(** The literals [true], [false] and [null]. *)
Inductive literal := LTrue | LFalse | LNull.

Definition literal_value (l : literal) : JSON :=
  match l with
  | LTrue => JBool true
  | LFalse => JBool false
  | LNull => JNull
  end.

Inductive mode :=
| MValue
| MArrayStart
| MObjectStart
| MKey
| MColon
| MString (is_key : bool) (acc : jsstring) (st : str_state)
| MNumber (st : num_state) (tok : jsstring)
| MLiteral (rest : jsstring) (l : literal)
| MAfter (v : JSON).

Definition state : Type := list frame * mode.

(** The first character of a value. *)
Definition value_start (stack : list frame) (c : N) : option state :=
  if (c =? 123)%N then Some (FObject [] :: stack, MObjectStart)
  else if (c =? 91)%N then Some (FArray [] :: stack, MArrayStart)
  else if (c =? 34)%N then Some (stack, MString false [] SPlain)
  else if (c =? 45)%N then Some (stack, MNumber NMinus [c])
  else if (c =? 48)%N then Some (stack, MNumber NZero [c])
  else if is_digit c then Some (stack, MNumber NInt [c])
  else if (c =? 116)%N then Some (stack, MLiteral (JS.lit "rue") LTrue)
  else if (c =? 102)%N then Some (stack, MLiteral (JS.lit "alse") LFalse)
  else if (c =? 110)%N then Some (stack, MLiteral (JS.lit "ull") LNull)
  else None.

(** The character after a complete value [v]. *)
Definition after_value (stack : list frame) (v : JSON) (c : N)
  : option state :=
  if is_ws c then Some (stack, MAfter v)
  else if (c =? 44)%N then
    match stack with
    | FArray elems :: rest => Some (FArray (elems ++ [v]) :: rest, MValue)
    | FMember props key :: rest =>
        Some (FObject (set_prop key v props) :: rest, MKey)
    | _ => None
    end
  else if (c =? 93)%N then
    match stack with
    | FArray elems :: rest => Some (rest, MAfter (JArray (elems ++ [v])))
    | _ => None
    end
  else if (c =? 125)%N then
    match stack with
    | FMember props key :: rest =>
        Some (rest, MAfter (JObject (set_prop key v props)))
    | _ => None
    end
  else None.

(** The end of a string token. *)
Definition string_done (stack : list frame) (is_key : bool) (s : jsstring)
  : option state :=
  if is_key then
    match stack with
    | FObject props :: rest => Some (FMember props s :: rest, MColon)
    | _ => None
    end
  else Some (stack, MAfter (JString s)).

Definition string_step (stack : list frame) (is_key : bool) (acc : jsstring)
  (st : str_state) (c : N) : option state :=
  match st with
  | SPlain =>
      if (c =? 34)%N then string_done stack is_key acc
      else if (c =? 92)%N then Some (stack, MString is_key acc SEscape)
      else if (c <? 32)%N then None
      else Some (stack, MString is_key (acc ++ [c]) SPlain)
  | SEscape =>
      let plain d := Some (stack, MString is_key (acc ++ [d]) SPlain) in
      if (c =? 34)%N then plain 34%N
      else if (c =? 92)%N then plain 92%N
      else if (c =? 47)%N then plain 47%N
      else if (c =? 98)%N then plain 8%N
      else if (c =? 102)%N then plain 12%N
      else if (c =? 110)%N then plain 10%N
      else if (c =? 114)%N then plain 13%N
      else if (c =? 116)%N then plain 9%N
      else if (c =? 117)%N then Some (stack, MString is_key acc (SUnicode 0 0))
      else None
  | SUnicode seen code =>
      match hex_value c with
      | Some h =>
          let code' := (code * 16 + h)%N in
          if (seen =? 3)%nat
          then Some (stack, MString is_key (acc ++ [code']) SPlain)
          else Some (stack, MString is_key acc (SUnicode (S seen) code'))
      | None => None
      end
  end.

(** One character of input. *)
Definition step (st : state) (c : N) : option state :=
  let '(stack, m) := st in
  match m with
  | MValue => if is_ws c then Some st else value_start stack c
  | MArrayStart =>
      if is_ws c then Some st
      else if (c =? 93)%N then
        match stack with
        | FArray elems :: rest => Some (rest, MAfter (JArray elems))
        | _ => None
        end
      else value_start stack c
  | MObjectStart =>
      if is_ws c then Some st
      else if (c =? 125)%N then
        match stack with
        | FObject props :: rest => Some (rest, MAfter (JObject props))
        | _ => None
        end
      else if (c =? 34)%N then Some (stack, MString true [] SPlain)
      else None
  | MKey =>
      if is_ws c then Some st
      else if (c =? 34)%N then Some (stack, MString true [] SPlain)
      else None
  | MColon =>
      if is_ws c then Some st
      else if (c =? 58)%N then Some (stack, MValue)
      else None
  | MString is_key acc ss => string_step stack is_key acc ss c
  | MNumber ns tok =>
      match num_next ns c with
      | Some ns' => Some (stack, MNumber ns' (tok ++ [c]))
      | None =>
          if num_complete ns then after_value stack (JNumber tok) c else None
      end
  | MLiteral rest l =>
      match rest with
      | [] => after_value stack (literal_value l) c
      | d :: rest' =>
          if (c =? d)%N then
            match rest' with
            | [] => Some (stack, MAfter (literal_value l))
            | _ => Some (stack, MLiteral rest' l)
            end
          else None
      end
  | MAfter v => after_value stack v c
  end.

Fixpoint steps (st : state) (s : jsstring) : option state :=
  match s with
  | [] => Some st
  | c :: t =>
      match step st c with
      | Some st' => steps st' t
      | None => None
      end
  end.

(** The end of the input: a single complete value and nothing open. *)
Definition finish (st : state) : option JSON :=
  match st with
  | ([], MAfter v) => Some v
  | ([], MNumber ns tok) => if num_complete ns then Some (JNumber tok) else None
  | _ => None
  end.

Definition initial : state := ([], MValue).

(** The modes in which white space is passed over. *)
Definition idle (m : mode) : bool :=
  match m with
  | MValue | MArrayStart | MObjectStart | MKey | MColon | MAfter _ => true
  | _ => false
  end.

(** A run that did not start with an opening brace does not yield an
    object. *)
(** The frame that was opened first. *)
Fixpoint bottom (f : frame) (K : list frame) : frame :=
  match K with
  | [] => f
  | g :: K' => bottom g K'
  end.

Definition non_object (st : state) : bool :=
  match fst st with
  | [] =>
      match snd st with
      | MString false _ _ | MNumber _ _ | MLiteral _ _ => true
      | MAfter v => negb (match v with JObject _ => true | _ => false end)
      | _ => false
      end
  | f :: K =>
      match bottom f K with
      | FArray _ => true
      | _ => false
      end
  end.

(** Whether an object is open. *)
Definition holds_object (K : list frame) : bool :=
  existsb (fun f => match f with FArray _ => false | _ => true end) K.

End Json.

(** [JSON.parse(text)]: [None] stands for the SyntaxError it throws. *)
Definition JSON_parse (text : jsstring) : option JSON :=
  match Json.steps Json.initial text with
  | Some st => Json.finish st
  | None => None
  end.

(** ** The response repair engine: [parseAIResponse] *)

(** What a call returns: a value, or the message of the [Error] it throws. *)
Inductive outcome (A : Type) : Type :=
| Returned (a : A)
| Thrown (message : jsstring).

Arguments Returned {A} a.
Arguments Thrown {A} message.

Module Repair.

Import JS.

Definition q_schedule : jsstring := quoted "schedule".
Definition q_summary : jsstring := quoted "summary".

Definition fence : jsstring := lit "```".

(** [.replace(/^```json\s*/i, '')] *)
Definition strip_json_fence (s : jsstring) : jsstring :=
  match strip_prefix_ci (lit "```json") s with
  | Some rest => skip_spaces rest
  | None => s
  end.

(** [.replace(/^```\s*/, '')] *)
Definition strip_open_fence (s : jsstring) : jsstring :=
  match strip_prefix fence s with
  | Some rest => skip_spaces rest
  | None => s
  end.

(** [.replace(/\s*```$/, '')]: the leftmost match starts where the white
    space before the closing fence starts. *)
Definition strip_close_fence (s : jsstring) : jsstring :=
  match strip_suffix fence s with
  | Some rest => drop_trailing_spaces rest
  | None => s
  end.

(** [.match(/\{[\s\S]*\}/)]: from the first opening brace to the last closing
    brace after it. *)
Definition match_braces (s : jsstring) : option jsstring :=
  match from_first 123 s with
  | Some t => through_last 125 t
  | None => None
  end.

(** Whether ["schedule":\s*\[] matches somewhere in [s]. *)
Fixpoint has_schedule_array (s : jsstring) : bool :=
  match strip_prefix (q_schedule ++ lit ":") s with
  | Some rest => starts_with (lit "[") (skip_spaces rest)
  | None => false
  end ||
  match s with
  | [] => false
  | _ :: t => has_schedule_array t
  end.

(** [.match(/\{[\s\S]*"schedule":\s*\[[\s\S]*/)]: from the first opening
    brace to the end of the text, when the schedule array opens after that
    brace. *)
Definition match_schedule (s : jsstring) : option jsstring :=
  match from_first 123 s with
  | Some (b :: t) => if has_schedule_array t then Some (b :: t) else None
  | _ => None
  end.

(** [.replace(/,\s*$/, '')] *)
Definition strip_trailing_comma (s : jsstring) : jsstring :=
  match strip_suffix (lit ",") (drop_trailing_spaces s) with
  | Some rest => rest
  | None => s
  end.

(** [for (let i = closed; i < opened; i++) s += c] *)
Definition close_missing (c : N) (closed opened : nat) (s : jsstring)
  : jsstring :=
  s ++ repeat c (opened - closed).

Definition fallback_summary : jsstring :=
  lit "Daily schedule generated based on your preferences and tasks.".

(** [', "summary": "Daily schedule generated ..."'] *)
Definition summary_field : jsstring :=
  lit ", " ++ q_summary ++ lit ": " ++ [dquote] ++ fallback_summary ++ [dquote].

(** The text after the markdown markers are removed and the braces are
    extracted: [cleanedContent] where the truncation test reads it. *)
Definition cleanContent (rawContent : jsstring) : jsstring :=
  let cleaned := trim rawContent in
  let cleaned :=
    strip_close_fence (strip_open_fence (strip_json_fence cleaned)) in
  let cleaned :=
    match match_braces cleaned with
    | Some m => m
    | None => cleaned
    end in
  trim cleaned.

(** The repair of a completion that was cut off: the body of
    [if (cleanedContent.includes('"schedule"') && ...)]. *)
Definition repairTruncated (cleaned : jsstring) : jsstring :=
  if includes q_schedule cleaned && negb (includes q_summary cleaned) then
    match match_schedule cleaned with
    | Some scheduleContent =>
        let openBrackets := count_char 91 scheduleContent in
        let closeBrackets := count_char 93 scheduleContent in
        let openBraces := count_char 123 scheduleContent in
        let closeBraces := count_char 125 scheduleContent in
        let sc := strip_trailing_comma scheduleContent in
        let sc := close_missing 93 closeBrackets openBrackets sc in
        let sc := if negb (includes q_summary sc)
                  then sc ++ summary_field else sc in
        close_missing 125 closeBraces openBraces sc
    | None => cleaned
    end
  else cleaned.

(** In the comments below [Q] stands for the double quote character inside a
    regular expression of the source. *)

(** The match of [/QkeyQ:\s*Q[^Q]+Q/] at the start of [s]: the matched
    text. *)
Definition match_field_here (key : string) (s : jsstring) : option jsstring :=
  match strip_prefix (quoted key ++ lit ":") s with
  | Some rest =>
      let spaces := length rest - length (skip_spaces rest) in
      match skip_spaces rest with
      | q :: after =>
          if (q =? dquote)%N then
            match from_first dquote after with
            | Some closing =>
                let body := length after - length closing in
                if (body =? 0)%nat then None
                else Some (firstn (length (quoted key) + 1 + spaces + 1
                                   + body + 1) s)
            | None => None
            end
          else None
      | [] => None
      end
  | None => None
  end.

(** [s.match(/QkeyQ:\s*Q[^Q]+Q/g)]: the matches from left to right, none
    overlapping another; the empty list stands for [null]. [skip] characters
    of [s] belong to the match before. *)
Fixpoint match_field_from (key : string) (skip : nat) (s : jsstring)
  : list jsstring :=
  match s with
  | [] => []
  | _ :: t =>
      match skip with
      | S k => match_field_from key k t
      | O =>
          match match_field_here key s with
          | Some m => m :: match_field_from key (length m - 1) t
          | None => match_field_from key 0 t
          end
      end
  end.

Definition match_field (key : string) (s : jsstring) : list jsstring :=
  match_field_from key 0 s.

(** [m.match(/Q([^Q]+)Q/)?.[1]]: the first non-empty run of characters
    between two double quotes. *)
Fixpoint first_quoted (m : jsstring) : option jsstring :=
  match m with
  | [] => None
  | c :: t =>
      if (c =? dquote)%N then
        match from_first dquote t with
        | Some closing =>
            let body := length t - length closing in
            if (body =? 0)%nat then first_quoted t
            else Some (firstn body t)
        | None => None
        end
      else first_quoted t
  end.

(** [capture || fallback] *)
Definition capture_or (fallback : string) (m : jsstring) : jsstring :=
  match first_quoted m with
  | Some [] | None => lit fallback
  | Some v => v
  end.

Definition schedule_item (time activity duration type : jsstring) : JSON :=
  JObject [ (lit "time", JString time); (lit "activity", JString activity);
            (lit "duration", JString duration); (lit "type", JString type) ].

Definition plan_object (items : list JSON) (summary : jsstring) : JSON :=
  JObject [ (lit "schedule", JArray items); (lit "summary", JString summary) ].

(** The loop [for (let i = 0; i < minLength; i++) scheduleItems.push(...)],
    from index [i] on, [n] rounds. *)
Fixpoint scrape_items (tm am dm ty : list jsstring) (i n : nat) : list JSON :=
  match n with
  | O => []
  | S n' =>
      schedule_item (capture_or "09:00" (nth i tm []))
                    (capture_or "Task" (nth i am []))
                    (capture_or "30" (nth i dm []))
                    (capture_or "task" (nth i ty []))
      :: scrape_items tm am dm ty (S i) n'
  end.

Definition is_null (matches : list jsstring) : bool :=
  match matches with [] => true | _ => false end.

(** The body of the inner [try]: the schedule items scraped field by field. *)
Definition scrapeSchedule (cleaned : jsstring) : JSON :=
  let timeMatches := match_field "time" cleaned in
  let activityMatches := match_field "activity" cleaned in
  let durationMatches := match_field "duration" cleaned in
  let typeMatches := match_field "type" cleaned in
  let scheduleItems :=
    if negb (is_null timeMatches) && negb (is_null activityMatches)
       && negb (is_null durationMatches) && negb (is_null typeMatches)
    then
      let minLength :=
        Nat.min (length timeMatches)
          (Nat.min (length activityMatches)
             (Nat.min (length durationMatches) (length typeMatches))) in
      scrape_items timeMatches activityMatches durationMatches typeMatches
        0 minLength
    else [] in
  plan_object scheduleItems fallback_summary.

(** The object of the inner [catch]. *)
Definition ultimateFallback : JSON :=
  plan_object
    [ schedule_item (lit "09:00") (lit "Morning Task") (lit "60") (lit "task");
      schedule_item (lit "10:00") (lit "Break") (lit "15") (lit "break");
      schedule_item (lit "10:15") (lit "Work Session") (lit "90") (lit "task");
      schedule_item (lit "11:45") (lit "Lunch") (lit "60") (lit "meal") ]
    (lit "Basic daily schedule created as fallback.").

Definition unrecoverable (rawContent : jsstring) : jsstring :=
  lit "Cannot extract valid JSON from AI response: "
  ++ substring0 200 rawContent ++ lit "...".

Section Cascade.

(** The body of the inner [try] as a computation that may throw. The body
    the source has is [scrapeSchedule], which never does. *)
Variable scrapeBody : jsstring -> outcome JSON.

Definition parseAIResponse_try (rawContent : jsstring) : outcome JSON :=
  match JSON_parse rawContent with
  | Some v => Returned v
  | None =>
      let cleanedContent := repairTruncated (cleanContent rawContent) in
      match JSON_parse cleanedContent with
      | Some v => Returned v
      | None =>
          if includes q_schedule cleanedContent then
            match scrapeBody cleanedContent with
            | Returned v => Returned v
            | Thrown _ => Returned ultimateFallback
            end
          else Thrown (unrecoverable rawContent)
      end
  end.

End Cascade.

End Repair.

(** [parseAIResponse(rawContent)] *)
Definition parseAIResponse (rawContent : jsstring) : outcome JSON :=
  Repair.parseAIResponse_try (fun c => Returned (Repair.scrapeSchedule c))
    rawContent.

(** ** The prompt builder: [buildPrompt] *)

(** A JavaScript number, named by a JSON number token that denotes it. *)
Definition number : Type := jsstring.

(** A row of [tasks], with the columns the prompt reads. [None] stands for
    [null]. *)
Record Task := {
  title : option jsstring;
  duration_minutes : option number;
  importance : option jsstring
}.

(** A row of [preferences], with the columns the prompt and the plan handler
    read. *)
Record Preferences := {
  wake_time : option jsstring;
  sleep_time : option jsstring;
  break_interval_minutes : option number;
  city : option jsstring
}.

(** What the runtime and the database driver decide and the source does not
    show: the double a JSON number token denotes (whether it is truthy and
    how it prints), how a whole [preferences] row serialises, and the
    message of the TypeError thrown when an object has no primitive value. *)
Class Runtime := {
  Number_truthy : number -> bool;
  Number_toString : number -> jsstring;
  JSON_stringify_row : Preferences -> jsstring;
  primitive_TypeError : jsstring
}.

Module Prompt.

Import JS.

(** [s || fallback] on a nullable string. *)
Definition string_or (v : option jsstring) (fallback : string) : jsstring :=
  match v with
  | Some (c :: s) => c :: s
  | _ => lit fallback
  end.

Definition dash : jsstring := [32; 8211; 32]%N.

Definition newline : jsstring := [10%N].

Section Values.

Context {rt : Runtime}.

(** [`${n || fallback}`] on a nullable number: zero is falsy, and the
    fallback is an integer literal that prints as it is written. *)
Definition number_or (v : option number) (fallback : string) : jsstring :=
  match v with
  | Some n => if Number_truthy n then Number_toString n else lit fallback
  | None => lit fallback
  end.

(** The line of one task. *)
Definition taskLine (t : Task) : jsstring :=
  string_or (title t) "Untitled" ++ dash
  ++ number_or (duration_minutes t) "30" ++ lit "m" ++ dash
  ++ string_or (importance t) "medium".

Definition taskLines (tasks : list Task) : jsstring :=
  join newline (map taskLine tasks).

(** ToBoolean of a value that came out of [JSON.parse]; [None] is
    [undefined]. *)
Definition truthy (v : option JSON) : bool :=
  match v with
  | None | Some JNull => false
  | Some (JBool b) => b
  | Some (JNumber tok) => Number_truthy tok
  | Some (JString s) => negb (JS.eqb s [])
  | Some (JArray _) | Some (JObject _) => true
  end.

(** ToString of such a value, as a template literal and
    [RegExp.prototype.test] apply it.  An object answers with the
    [toString] it inherits, unless a member of that name hides it: a member
    is no function, [valueOf] gives no primitive value either, and the
    conversion throws a TypeError, whose message is [message].  An array
    joins its elements, [null] counting as the empty string. *)
Fixpoint toString (message : jsstring) (v : JSON) : outcome jsstring :=
  match v with
  | JNull => Returned (lit "null")
  | JBool true => Returned (lit "true")
  | JBool false => Returned (lit "false")
  | JNumber tok => Returned (Number_toString tok)
  | JString s => Returned s
  | JArray elems =>
      match
        (fix each (l : list JSON) : outcome (list jsstring) :=
           match l with
           | [] => Returned []
           | x :: l' =>
               match
                 match x with
                 | JNull => Returned []
                 | _ => toString message x
                 end
               with
               | Thrown e => Thrown e
               | Returned s =>
                   match each l' with
                   | Thrown e => Thrown e
                   | Returned r => Returned (s :: r)
                   end
               end
           end) elems
      with
      | Thrown e => Thrown e
      | Returned parts => Returned (join (lit ",") parts)
      end
  | JObject props =>
      match Json.get_prop (lit "toString") props with
      | Some _ => Thrown message
      | None => Returned (lit "[object Object]")
      end
  end.

(** [v?.[0]] *)
Definition first_element (v : option JSON) : option JSON :=
  match v with
  | Some (JArray (x :: _)) => Some x
  | Some (JObject props) => Json.get_prop (lit "0") props
  | Some (JString (c :: _)) => Some (JString [c])
  | _ => None
  end.

(** [v?.k] for a key [k] that no array or string has of its own. *)
Definition member (k : string) (v : option JSON) : option JSON :=
  match v with
  | Some x => Json.get (lit k) x
  | None => None
  end.

(** [`${v || fallback}`] *)
Definition value_or (v : option JSON) (fallback : string)
  : outcome jsstring :=
  match v with
  | Some x =>
      if truthy v then toString primitive_TypeError x
      else Returned (lit fallback)
  | None => Returned (lit fallback)
  end.

(** [`${weatherDesc}`] *)
Definition weatherDesc (weather : JSON) : outcome jsstring :=
  value_or
    (member "description" (first_element (member "weather" (Some weather))))
    "unknown".

(** [`${weatherTemp}`] *)
Definition weatherTemp (weather : JSON) : outcome jsstring :=
  value_or (member "temp" (member "main" (Some weather))) "unknown".

Definition field_of {A} (prefs : option Preferences)
  (f : Preferences -> option A) : option A :=
  match prefs with
  | Some p => f p
  | None => None
  end.

(** The template up to the task lines, with the texts of the weather. *)
Definition promptHead (prefs : option Preferences) (desc temp : jsstring)
  : jsstring :=
  lit "You are a personal day planning assistant. Create an optimized daily schedule in JSON format."
  ++ newline ++ newline
  ++ lit "User preferences: "
  ++ match prefs with
     | Some p => JSON_stringify_row p
     | None => lit "{}"
     end
  ++ newline
  ++ lit "Weather: " ++ desc ++ lit ", " ++ temp
  ++ [176%N] ++ lit "C" ++ newline
  ++ lit "Tasks to schedule:" ++ newline.

(** The template after the task lines. *)
Definition promptTail (prefs : option Preferences) : jsstring :=
  newline ++ newline
  ++ lit "IMPORTANT: You must respond with COMPLETE, VALID JSON only. No markdown, no explanations, no comments."
  ++ newline ++ newline
  ++ lit "Generate a JSON response with this EXACT structure:" ++ newline
  ++ lit "{" ++ newline
  ++ lit "  " ++ quoted "schedule" ++ lit ": [" ++ newline
  ++ lit "    {" ++ newline
  ++ lit "      " ++ quoted "time" ++ lit ": " ++ quoted "HH:MM" ++ lit ","
  ++ newline
  ++ lit "      " ++ quoted "activity" ++ lit ": "
  ++ quoted "task or break name" ++ lit "," ++ newline
  ++ lit "      " ++ quoted "duration" ++ lit ": " ++ quoted "minutes"
  ++ lit "," ++ newline
  ++ lit "      " ++ quoted "type" ++ lit ": " ++ quoted "task|break|meal"
  ++ newline
  ++ lit "    }" ++ newline
  ++ lit "  ]," ++ newline
  ++ lit "  " ++ quoted "summary" ++ lit ": "
  ++ quoted "Brief summary of the day plan" ++ newline
  ++ lit "}" ++ newline ++ newline
  ++ lit "Requirements:" ++ newline
  ++ lit "- Include ALL closing brackets and braces" ++ newline
  ++ lit "- Start with user's wake time ("
  ++ string_or (field_of prefs wake_time) "09:00" ++ lit ")" ++ newline
  ++ lit "- Include breaks every "
  ++ number_or (field_of prefs break_interval_minutes) "30" ++ lit " minutes"
  ++ newline
  ++ lit "- Schedule all provided tasks" ++ newline
  ++ lit "- End before sleep time ("
  ++ string_or (field_of prefs sleep_time) "23:00" ++ lit ")" ++ newline
  ++ lit "- Return ONLY the JSON object, nothing else" ++ newline ++ newline
  ++ lit "Consider the weather, user preferences, task importance, and include appropriate breaks.".

End Values.

End Prompt.

(** [buildPrompt({ prefs, tasks, weather })]; [tasks] is [None] when it is
    [null] or [undefined].  The template converts the description, then the
    temperature, and either conversion may throw. *)
Definition buildPrompt {rt : Runtime} (prefs : option Preferences)
  (tasks : option (list Task)) (weather : JSON) : outcome jsstring :=
  match tasks with
  | None | Some [] => Thrown (JS.lit "No tasks provided for planning")
  | Some ts =>
      match Prompt.weatherDesc weather with
      | Thrown e => Thrown e
      | Returned desc =>
          match Prompt.weatherTemp weather with
          | Thrown e => Thrown e
          | Returned temp =>
              Returned (Prompt.promptHead prefs desc temp
                        ++ Prompt.taskLines ts ++ Prompt.promptTail prefs)
          end
      end
  end.

(** ** The line of a task, in the words of the design document *)

Module Rendering.

Import JS.

(** A text or a fallback: the text, unless there is none or it is empty. *)
Definition text_or (v : option jsstring) (fallback : string) : jsstring :=
  match v with
  | None => lit fallback
  | Some s => if JS.eqb s [] then lit fallback else s
  end.

(** The duration or 30: the number as JavaScript prints it, unless there is
    none or it is zero. *)
Definition duration_or_30 {rt : Runtime} (v : option number) : jsstring :=
  match v with
  | None => lit "30"
  | Some n => if Number_truthy n then Number_toString n else lit "30"
  end.

(** An en dash between two spaces. *)
Definition separator : jsstring := lit " " ++ [8211%N] ++ lit " ".

(** The title or Untitled, the duration or 30 followed by m, the importance
    or medium, with a separator after the first and after the second. *)
Definition line {rt : Runtime} (t : Task) : jsstring :=
  text_or (title t) "Untitled" ++ separator
  ++ duration_or_30 (duration_minutes t) ++ lit "m" ++ separator
  ++ text_or (importance t) "medium".

(** One line per task, in the order of the tasks. *)
Definition lines {rt : Runtime} (tasks : list Task) : list jsstring :=
  map line tasks.

End Rendering.

(** ** The plan handler: [generatePlan] *)

(** The calls the handler makes to its collaborators, in the order of a
    trace. *)
Inductive call :=
| VerifyToken (token : jsstring)
| InsertUser (userId : jsstring)
| SelectPreferences (userId : jsstring)
| SelectTasks (userId : jsstring)
| FetchWeather (city : jsstring)
| FetchApod
| FetchCompletion (prompt : jsstring)
| UpsertPlan (userId : jsstring) (plan : JSON).

(** What [fetch] gives: a rejection, or a response with its [ok] flag, its
    status line and what [.json()] resolves to. *)
Inductive fetched (A : Type) :=
| Rejected (message : jsstring)
| Response (ok : bool) (status : N) (statusText : jsstring)
    (json : outcome A).

Arguments Rejected {A} message.
Arguments Response {A} ok status statusText json.

(** The body of a completion, with the shape the source asserts:
    [{ choices: Array<{ message: { content: string } }> }]; [None] marks a
    member that is missing or falsy. *)
Record chat_message := { content : jsstring }.
Record choice := { message : option chat_message }.
Record completion := { choices : option (list (option choice)) }.

(** The collaborators of one request: the identity provider, the database,
    the weather and picture services and the completion model, each by what
    it answers. *)
Record World := {
  verifyToken : jsstring -> outcome (option jsstring);
  insertUser : jsstring -> outcome unit;
  selectPreferences : jsstring -> outcome (list Preferences);
  selectTasks : jsstring -> outcome (list Task);
  fetchWeather : jsstring -> fetched JSON;
  fetchApod : fetched JSON;
  fetchCompletion : jsstring -> fetched completion;
  upsertPlan : jsstring -> JSON -> outcome unit
}.

(** The data of a response: [{ error }] or [{ plan, apod, weather }]. *)
Inductive payload :=
| ErrorBody (error : jsstring)
| PlanBody (plan apod weather : JSON).

Record HttpResponse := { status : N; body : payload }.

(** [json(data, status)]; the headers are the same on every response. *)
Definition json (data : payload) (status : N) : HttpResponse :=
  {| status := status; body := data |}.

Module Handler.

Import JS.

(** A computation of the handler: the calls it made and how it ended. *)
Definition M (A : Type) : Type := list call * outcome A.

Definition ret {A} (a : A) : M A := ([], Returned a).

Definition throw {A} (message : string) : M A := ([], Thrown (lit message)).

Definition bind {A B} (m : M A) (k : A -> M B) : M B :=
  match m with
  | (t, Returned a) => let '(t', r) := k a in (t ++ t', r)
  | (t, Thrown e) => (t, Thrown e)
  end.

(** [try { m } catch (err) { handler(err.message) }] *)
Definition try_catch {A} (m : M A) (handler : jsstring -> M A) : M A :=
  match m with
  | (t, Thrown e) => let '(t', r) := handler e in (t ++ t', r)
  | done => done
  end.

(** An awaited call: it is recorded and its answer is taken. *)
Definition await {A} (c : call) (answer : outcome A) : M A := ([c], answer).

(** [await Promise.all([c1, c2])]: both calls are made, and the first
    rejection (the connection answers in the order of the queries) is
    thrown. *)
Definition await_all {A B} (c1 : call) (a1 : outcome A) (c2 : call)
  (a2 : outcome B) : M (A * B) :=
  ([c1; c2],
   match a1, a2 with
   | Returned x, Returned y => Returned (x, y)
   | Thrown e, _ => Thrown e
   | _, Thrown e => Thrown e
   end).

Notation "x <- m ;; k" := (bind m (fun x => k))
  (at level 61, m at next level, right associativity).

Section Request.

Context {rt : Runtime}.
Variable w : World.

(** [getUserId(req, env)] for a request with the given [Authorization]
    header. *)
Definition getUserId (authorization : option jsstring) : M jsstring :=
  try_catch
    (let authHeader := match authorization with Some h => h | None => [] end in
     match strip_prefix (lit "Bearer ") authHeader with
     | None => throw "Missing or invalid Authorization header"
     | Some [] => throw "Missing token"
     | Some token =>
         payload <- await (VerifyToken token) (verifyToken w token) ;;
         match payload with
         | Some (c :: sub) => ret (c :: sub)
         | _ => throw "Invalid token payload"
         end
     end)
    (fun message => ([], Thrown (lit "Authentication failed: " ++ message))).

(** [{ weather: [{ description: 'unknown' }], main: { temp: 20 } }] *)
Definition unknownWeather : JSON :=
  JObject
    [ (lit "weather",
       JArray [JObject [(lit "description", JString (lit "unknown"))]]);
      (lit "main", JObject [(lit "temp", JNumber (lit "20"))]) ].

(** The first [try]: the weather of the city of the preferences. *)
Definition getWeatherFor (prefs : Preferences) : M JSON :=
  match city prefs with
  | Some (c :: rest) =>
      match fetchWeather w (c :: rest) with
      | Response true _ _ (Returned weather) =>
          ([FetchWeather (c :: rest)], Returned weather)
      | _ => ([FetchWeather (c :: rest)], Returned unknownWeather)
      end
  | _ => ret unknownWeather
  end.

(** The second [try]: the picture of the day, [null] when it fails. *)
Definition getApodFor : M JSON :=
  match fetchApod w with
  | Response true _ _ (Returned apod) => ([FetchApod], Returned apod)
  | _ => ([FetchApod], Returned JNull)
  end.

(** [`${status}`] for a status code. *)
Definition N_toString (n : N) : jsstring :=
  lit (NilZero.string_of_uint (N.to_uint n)).

(** The third [try]: the call to the completion model and the parse of its
    answer. *)
Definition getPlanFor (prompt : jsstring) : M JSON :=
  match fetchCompletion w prompt with
  | Rejected message => ([FetchCompletion prompt], Thrown message)
  | Response false status statusText _ =>
      ([FetchCompletion prompt],
       Thrown (lit "MistralAI API error: " ++ N_toString status ++ lit " "
               ++ statusText))
  | Response true _ _ (Thrown message) =>
      ([FetchCompletion prompt], Thrown message)
  | Response true _ _ (Returned ai) =>
      ([FetchCompletion prompt],
       match choices ai with
       | Some (Some {| message := Some {| content := rawContent |} |} :: _) =>
           match parseAIResponse rawContent with
           | Returned plan => Returned plan
           | Thrown _ => Thrown (lit "Failed to parse AI response as JSON")
           end
       | _ => Thrown (lit "Invalid response from MistralAI")
       end)
  end.

(** [generatePlan(req, env, sql)] *)
Definition generatePlan (authorization : option jsstring) : M HttpResponse :=
  userId <- getUserId authorization ;;
  _ <- try_catch (await (InsertUser userId) (insertUser w userId))
         (fun _ => ret tt) ;;
  rows <- await_all (SelectPreferences userId) (selectPreferences w userId)
            (SelectTasks userId) (selectTasks w userId) ;;
  let '(prefsRows, tasks) := rows in
  match prefsRows with
  | [] =>
      ret (json (ErrorBody (lit "User preferences not found. Please set up your preferences first.")) 400)
  | prefs :: _ =>
      match tasks with
      | [] =>
          ret (json (ErrorBody (lit "No tasks found for today. Please add some tasks first.")) 400)
      | _ :: _ =>
          weather <- getWeatherFor prefs ;;
          apod <- getApodFor ;;
          prompt <- ([], buildPrompt (Some prefs) (Some tasks) weather) ;;
          generated <-
            try_catch (plan <- getPlanFor prompt ;; ret (inl plan))
              (fun message =>
                 ret (inr (json (ErrorBody (lit "Failed to generate plan: "
                                            ++ message)) 500))) ;;
          match generated with
          | inr failure => ret failure
          | inl plan =>
              _ <- try_catch
                     (await (UpsertPlan userId plan)
                        (upsertPlan w userId plan))
                     (fun _ => ret tt) ;;
              ret (json (PlanBody plan apod weather) 200)
          end
      end
  end.

End Request.

End Handler.

(** ** The shape the prompt asks of a completion *)

Module Schema.

Import JS.

Definition is_string (v : option JSON) : bool :=
  match v with Some (JString _) => true | _ => false end.

Definition is_string_or_number (v : option JSON) : bool :=
  match v with Some (JString _) | Some (JNumber _) => true | _ => false end.

(** [{ time, activity, duration, type }] *)
Definition is_schedule_item (v : JSON) : bool :=
  match v with
  | JObject props =>
      is_string (Json.get_prop (lit "time") props)
      && is_string (Json.get_prop (lit "activity") props)
      && is_string_or_number (Json.get_prop (lit "duration") props)
      && is_string (Json.get_prop (lit "type") props)
  | _ => false
  end.

(** [{ schedule: [item, ...], summary }] *)
Definition matches (v : JSON) : bool :=
  match v with
  | JObject props =>
      match Json.get_prop (lit "schedule") props with
      | Some (JArray items) => forallb is_schedule_item items
      | _ => false
      end
      && is_string (Json.get_prop (lit "summary") props)
  | _ => false
  end.

Definition is_object (v : JSON) : bool :=
  match v with JObject _ => true | _ => false end.



End Schema.

(** ** Completions that were cut off *)

Module Truncation.

Import JS Repair.

(** The start of a completion up to the opening bracket of the schedule
    array, with white space [w1] after the brace and [w2] after the colon. *)
Definition schedule_head (w1 w2 : jsstring) : jsstring :=
  lit "{" ++ w1 ++ q_schedule ++ lit ":" ++ w2 ++ lit "[".

(** A completion cut off after the items [items] of the schedule array:
    what follows the last item is [rest]. *)
Definition truncated (w1 w2 : jsstring) (items : list jsstring)
  (rest : jsstring) : jsstring :=
  schedule_head w1 w2 ++ join (lit ",") items ++ rest.

(** The text [item] is a complete object that reads as [v]. *)
Definition complete_item (item : jsstring) (v : JSON) : Prop :=
  JSON_parse item = Some v /\ Schema.is_object v = true.

(** As many opening as closing brackets, and as many opening as closing
    braces. *)
Definition balanced (s : jsstring) : Prop :=
  count_char 91 s = count_char 93 s /\ count_char 123 s = count_char 125 s.

(** What may follow the last complete item: after at least one item, any
    text without a closing brace (the start of a further item, say); in an
    empty array, white space with at most one comma. *)
Definition cut_after (items : list jsstring) (rest : jsstring) : Prop :=
  match items with
  | [] =>
      forallb is_space rest = true \/
      exists w w', rest = w ++ lit "," ++ w' /\
                   forallb Json.is_ws w = true /\ forallb is_space w' = true
  | _ :: _ => count_char 125 rest = 0
  end.




End Truncation.

(** ** The calls of a request *)

Module Trace.

(** The calls the design document counts as external for plan generation:
    the weather fetch, the picture fetch, the completion call and the write
    of the plan. *)
Definition is_external (c : call) : bool :=
  match c with
  | FetchWeather _ | FetchApod | FetchCompletion _ | UpsertPlan _ _ => true
  | _ => false
  end.

End Trace.

(** ** Sample data *)

Module Sample.

Import JS.

(** A text written with apostrophes where it has double quotes. *)
Definition text (s : string) : jsstring :=
  map (fun c => if (c =? 39)%N then dquote else c) (lit s).





(** A complete completion whose summary key is written with an escape. *)
Definition escaped_summary : jsstring :=
  text "{'schedule': [], '\u0073ummary': 'x'}".

Definition plain_summary : jsstring :=
  text "{'schedule': [], 'summary': 'x'}".

(** A completion that holds the schedule key and the four fields, and that
    no repair makes parse. *)
Definition garbled : jsstring :=
  text "{'schedule' 'time': '09:00' 'activity': 'a' 'duration': '5' 'type': 't'".






(** A text with the schedule key before its braces, and a doubled comma
    between them. *)
Definition schedule_outside : jsstring :=
  text "'schedule': [ {'time': '09:00', 'activity': 'a',, 'duration': '5', 'type': 't'} ]".

(** A text with the four fields before its braces and, after the schedule
    key, between them. *)
Definition fields_outside : jsstring :=
  text "'time': '08:00' 'activity': 'b' 'duration': '9' 'type': 'u' {'schedule' 'time': '09:00' 'activity': 'a' 'duration': '5' 'type': 't'}".

Definition runtime : Runtime := {|
  Number_truthy := fun tok => negb (JS.eqb tok (lit "0"));
  Number_toString := fun tok => tok;
  JSON_stringify_row := fun _ => lit "{}";
  primitive_TypeError := lit "Cannot convert object to primitive value"
|}.

Definition task1 : Task :=
  {| title := Some (lit "Write report"); duration_minutes := Some (lit "45");
     importance := Some (lit "high") |}.

Definition task2 : Task :=
  {| title := None; duration_minutes := None; importance := None |}.

(** A weather answer whose description is an object that hides the
    [toString] it inherits. *)
Definition hiding_weather : JSON :=
  JObject
    [ (lit "weather",
       JArray
         [JObject
            [(lit "description",
              JObject [(lit "toString", JNumber (lit "1"))])]]) ].

Definition prefs1 : Preferences :=
  {| wake_time := Some (lit "07:00"); sleep_time := Some (lit "22:00");
     break_interval_minutes := Some (lit "50"); city := Some (lit "Pune") |}.

(** A day on which every collaborator answers, the completion is a complete
    plan, and the write to [plans] fails; the user has the tasks [tasks]. *)
Definition world (tasks : list Task) : World := {|
  verifyToken := fun _ => Returned (Some (lit "user_1"));
  insertUser := fun _ => Returned tt;
  selectPreferences := fun _ => Returned [prefs1];
  selectTasks := fun _ => Returned tasks;
  fetchWeather := fun _ => Rejected (lit "network");
  fetchApod := Response false 503 (lit "Service Unavailable")
                 (Thrown (lit "no body"));
  fetchCompletion := fun _ =>
    Response true 200 (lit "OK")
      (Returned {| choices :=
                     Some [Some {| message :=
                                     Some {| content := plain_summary |} |}] |});
  upsertPlan := fun _ _ => Thrown (lit "connection closed")
|}.

Definition bearer : option jsstring := Some (lit "Bearer token_1").

End Sample.

(** ** What the field scraping captures *)

Module Scrape.

Import JS.

(** A key without a double quote in it, as the four keys of an item are. *)
Definition plain_key (key : string) : Prop :=
  lit key <> [] /\ count_char dquote (lit key) = 0.

(** The item whose four fields hold the names of their keys. *)
Definition key_item : JSON :=
  Repair.schedule_item (lit "time") (lit "activity") (lit "duration")
    (lit "type").

End Scrape.

(** ** The other handlers and the dispatcher *)

(** Whether the double a number token denotes is greater than an integer:
    the one comparison of the handlers that the token does not show. *)
Class NumberOrder := {
  Number_exceeds : jsstring -> N -> bool
}.

Module Api.

Import JS.

(** The statements the task and preference handlers send to the database. *)
Inductive api_call :=
| InsertTask (userId title duration importance : jsstring)
| DeleteTaskRow (taskId userId : jsstring)
| UpsertPreferences (userId : jsstring)
    (wakeTime sleepTime peakFocus city breakStyle breakInterval maxWorkHours
       commuteMode : JSON).

(** What a handler makes happen: a call of the plan handler's kind, one of
    the statements above, or a call of a handler part that is not embedded
    here. *)
Inductive event :=
| Plan (c : call)
| Api (c : api_call)
| Other (what : jsstring).

(** What a request makes happen: the connection is opened, the handler
    works, the connection is closed. *)
Inductive step :=
| Connect
| Close
| Handled (e : event).

(** The parts of a request the worker reads; [body] is what [req.json()]
    resolves to. *)
Record Request := {
  method : jsstring;
  pathname : jsstring;
  authorization : option jsstring;
  json_body : outcome JSON
}.

(** The collaborators behind the dispatcher: those of the plan handler, the
    connection, the three statements above and the clock.  What [sql.end()]
    answers is not among them: the dispatcher catches its failure and goes
    on. *)
Record Backend := {
  plan_world : World;
  connect : outcome unit;
  insertTask : jsstring -> jsstring -> jsstring -> jsstring -> outcome unit;
  deleteTaskRow : jsstring -> jsstring -> outcome N;
  upsertPreferences : jsstring -> list JSON -> outcome unit;
  now : jsstring
}.

(** A response: [json(data, status)] with its data, or [corsResponse()]. *)
Inductive response :=
| JsonResponse (status : N) (data : JSON)
| Preflight.

(** [{ error: message }] *)
Definition error_data (message : jsstring) : JSON :=
  JObject [(lit "error", JString message)].

(** [{ ok: true, message }] *)
Definition ok_data (message : string) : JSON :=
  JObject [(lit "ok", JBool true); (lit "message", JString (lit message))].

(** The data of a response of [generatePlan]. *)
Definition plan_data (p : payload) : JSON :=
  match p with
  | ErrorBody e => error_data e
  | PlanBody plan apod weather =>
      JObject [(lit "plan", plan); (lit "apod", apod);
               (lit "weather", weather)]
  end.

Definition D (A : Type) : Type := list event * outcome A.

Definition ret {A} (a : A) : D A := ([], Returned a).

Definition bind {A B} (m : D A) (k : A -> D B) : D B :=
  match m with
  | (t, Returned a) => let '(t', r) := k a in (t ++ t', r)
  | (t, Thrown e) => (t, Thrown e)
  end.

(** [try { m } catch (err) { handler(err.message) }] *)
Definition try_catch {A} (m : D A) (handler : jsstring -> D A) : D A :=
  match m with
  | (t, Thrown e) => let '(t', r) := handler e in (t ++ t', r)
  | done => done
  end.

Definition await {A} (e : event) (answer : outcome A) : D A := ([e], answer).

(** A computation of the plan handler, inside a request. *)
Definition lift {A} (m : Handler.M A) : D A := (map Plan (fst m), snd m).

Notation "x <- m ;; k" := (bind m (fun x => k))
  (at level 61, m at next level, right associativity).

(** [path.split('/').pop()]: what follows the last slash. *)
Fixpoint last_segment (acc path : jsstring) : jsstring :=
  match path with
  | [] => acc
  | c :: t =>
      if (c =? 47)%N then last_segment [] t else last_segment (acc ++ [c]) t
  end.

(** [req.method.toUpperCase()], a method being a token of ASCII
    characters. *)
Definition toUpperCase (s : jsstring) : jsstring := map canonicalize s.

(** [x <= 0] for the double of a number token: zero is what is falsy, and a
    double that is not zero has the sign its token starts with. *)
Definition Number_le_zero {rt : Runtime} (tok : jsstring) : bool :=
  negb (Number_truthy tok) || starts_with (lit "-") tok.

Definition is_time_digit (lo hi c : N) : bool := ((lo <=? c) && (c <=? hi))%N.

(** [/^([0-1]?[0-9]|2[0-3]):[0-5][0-9]$/.test(s)] *)
Definition timeRegex_test (s : jsstring) : bool :=
  match s with
  | [h; colon; m1; m2] =>
      is_time_digit 48 57 h && (colon =? 58)%N
      && is_time_digit 48 53 m1 && is_time_digit 48 57 m2
  | [h1; h2; colon; m1; m2] =>
      (is_time_digit 48 49 h1 && is_time_digit 48 57 h2
       || (h1 =? 50)%N && is_time_digit 48 51 h2)
      && (colon =? 58)%N
      && is_time_digit 48 53 m1 && is_time_digit 48 57 m2
  | _ => false
  end.

Definition validCommuteModes : list jsstring :=
  [lit "none"; lit "walk"; lit "bike"; lit "public"; lit "car"].

Definition validPeakFocus : list jsstring :=
  [lit "morning"; lit "afternoon"; lit "evening"].

(** [list.includes(v)] for a list of strings: a value that is not a string is
    not in it. *)
Definition includes_value (list : list jsstring) (v : option JSON) : bool :=
  match v with
  | Some (JString s) => existsb (JS.eqb s) list
  | _ => false
  end.

(** The member [k] of a destructured body, [None] when it is missing. *)
Definition field (k : string) (fields : JSON) : option JSON :=
  Json.get (lit k) fields.

(** [typeof v === 'number'], with the token. *)
Definition as_number (v : option JSON) : option jsstring :=
  match v with
  | Some (JNumber tok) => Some tok
  | _ => None
  end.

Section Handlers.

Context {rt : Runtime} {ord : NumberOrder}.
Variable b : Backend.

(** The messages of the TypeErrors the engine throws when a [null] body is
    destructured and when an object has no primitive value. *)
Variable nullBodyMessage : jsstring.
Variable primitiveMessage : jsstring.

(** ToString of the argument of [RegExp.prototype.test]. *)
Definition ToString (v : JSON) : outcome jsstring :=
  Prompt.toString primitiveMessage v.

(** [timeRegex.test(value)] *)
Definition test_time (value : JSON) : D bool :=
  match ToString value with
  | Thrown e => ([], Thrown e)
  | Returned s => ret (timeRegex_test s)
  end.

(** [const { a, b, ... } = body]: the members are read from any value but
    [null], which makes the statement throw. *)
Definition destructure (body : JSON) : D JSON :=
  match body with
  | JNull => ([], Thrown nullBodyMessage)
  | v => ret v
  end.

(** The [try] around [INSERT INTO users ... ON CONFLICT DO NOTHING]. *)
Definition ensureUser (userId : jsstring) : D unit :=
  try_catch
    (await (Plan (InsertUser userId)) (insertUser (plan_world b) userId))
    (fun _ => ret tt).

(** [createTask(req, env, sql)] *)
Definition createTask (req : Request) : D response :=
  userId <- lift (Handler.getUserId (plan_world b) (authorization req)) ;;
  _ <- ensureUser userId ;;
  match json_body req with
  | Thrown _ =>
      ret (JsonResponse 400 (error_data (lit "Invalid JSON in request body")))
  | Returned parsed =>
      fields <- destructure parsed ;;
      let title := field "title" fields in
      let duration := field "duration" fields in
      let importance := field "importance" fields in
      match title with
      | Some (JString (c :: s)) =>
          match trim (c :: s) with
          | [] =>
              ret (JsonResponse 400
                     (error_data (lit "Title is required and must be a non-empty string")))
          | trimmed =>
              match duration with
              | Some (JNumber tok) =>
                  if Number_le_zero tok then
                    ret (JsonResponse 400
                           (error_data (lit "Duration is required and must be a positive number")))
                  else
                    match importance with
                    | Some (JString (i :: imp)) =>
                        try_catch
                          (_ <- await
                                  (Api (InsertTask userId trimmed tok
                                          (i :: imp)))
                                  (insertTask b userId trimmed tok (i :: imp)) ;;
                           ret (JsonResponse 200
                                  (ok_data "Task created successfully")))
                          (fun message =>
                             ret (JsonResponse 500
                                    (error_data (lit "Failed to create task: "
                                                 ++ message))))
                    | _ =>
                        ret (JsonResponse 400
                               (error_data (lit "Importance is required and must be a string")))
                    end
              | _ =>
                  ret (JsonResponse 400
                         (error_data (lit "Duration is required and must be a positive number")))
              end
          end
      | _ =>
          ret (JsonResponse 400
                 (error_data (lit "Title is required and must be a non-empty string")))
      end
  end.

(** [deleteTask(req, env, sql)] *)
Definition deleteTask (req : Request) : D response :=
  userId <- lift (Handler.getUserId (plan_world b) (authorization req)) ;;
  match last_segment [] (pathname req) with
  | [] => ret (JsonResponse 400 (error_data (lit "Task ID is required")))
  | taskId =>
      try_catch
        (rowCount <- await (Api (DeleteTaskRow taskId userId))
                       (deleteTaskRow b taskId userId) ;;
         if (rowCount =? 0)%N then
           ret (JsonResponse 404
                  (error_data (lit "Task not found or not authorized to delete")))
         else ret (JsonResponse 200 (ok_data "Task deleted successfully")))
        (fun message =>
           ret (JsonResponse 500
                  (error_data (lit "Failed to delete task: " ++ message))))
  end.

Definition bad_request (message : string) : D response :=
  ret (JsonResponse 400 (error_data (lit message))).

(** [value <= 0] after [typeof value !== 'number'] *)
Definition positive_number (v : option JSON) : bool :=
  match as_number v with
  | Some tok => negb (Number_le_zero tok)
  | None => false
  end.

(** [savePreferences(req, env, sql)] *)
Definition savePreferences (req : Request) : D response :=
  userId <- lift (Handler.getUserId (plan_world b) (authorization req)) ;;
  _ <- ensureUser userId ;;
  match json_body req with
  | Thrown _ => bad_request "Invalid JSON in request body"
  | Returned parsed =>
      fields <- destructure parsed ;;
      let wakeTime := field "wakeTime" fields in
      let sleepTime := field "sleepTime" fields in
      let peakFocus := field "peakFocus" fields in
      let city := field "city" fields in
      let breakStyle := field "breakStyle" fields in
      let breakInterval := field "breakInterval" fields in
      let maxWorkHours := field "maxWorkHours" fields in
      let commuteMode := field "commuteMode" fields in
      match wakeTime, sleepTime, peakFocus, city, breakStyle, breakInterval,
            maxWorkHours, commuteMode with
      | Some wake, Some sleep, Some peak, Some cty, Some style, Some interval,
        Some hours, Some commute =>
          if negb (Prompt.truthy wakeTime && Prompt.truthy sleepTime
                   && Prompt.truthy peakFocus && Prompt.truthy city
                   && Prompt.truthy breakStyle && Prompt.truthy commuteMode)
          then bad_request "All preference fields are required"
          else if negb (includes_value validCommuteModes commuteMode)
          then bad_request "Invalid commute mode. Must be one of: none, walk, bike, public, car"
          else if negb (includes_value validPeakFocus peakFocus)
          then bad_request "Invalid peak focus. Must be one of: morning, afternoon, evening"
          else
          wakeOk <- test_time wake ;;
          if negb wakeOk
          then bad_request "Wake time must be in HH:MM format"
          else
          sleepOk <- test_time sleep ;;
          if negb sleepOk
          then bad_request "Sleep time must be in HH:MM format"
          else if negb (positive_number breakInterval)
          then bad_request "Break interval must be a positive number"
          else if negb (positive_number maxWorkHours)
                  || match as_number maxWorkHours with
                     | Some tok => Number_exceeds tok 24
                     | None => true
                     end
          then bad_request "Max work hours must be between 1 and 24"
          else
            try_catch
              (_ <- await
                      (Api (UpsertPreferences userId wake sleep peak cty style
                              interval hours commute))
                      (upsertPreferences b userId
                         [wake; sleep; peak; cty; style; interval; hours;
                          commute]) ;;
               ret (JsonResponse 200
                      (ok_data "Preferences saved successfully")))
              (fun message =>
                 ret (JsonResponse 500
                        (error_data (lit "Failed to save preferences: "
                                     ++ message))))
      | _, _, _, _, _, _, _, _ =>
          bad_request "All preference fields are required"
      end
  end.

(** [generatePlan(req, env, sql)], as the dispatcher sees it. *)
Definition planRoute (req : Request) : D response :=
  r <- lift (Handler.generatePlan (plan_world b) (authorization req)) ;;
  ret (JsonResponse (status r) (plan_data (body r))).

(** The handlers whose work after [getUserId] is not embedded: the rest of
    [getTasks], [getPreferences], [getPlan] and [getWeather] for a user, and
    [getApod], which does not authenticate. *)
Variable getTasksFor getPreferencesFor getPlanFor getWeatherFor :
  jsstring -> D response.
Variable getApod : D response.

Definition authenticated (req : Request) (k : jsstring -> D response)
  : D response :=
  userId <- lift (Handler.getUserId (plan_world b) (authorization req)) ;;
  k userId.

Definition banner (status : string) (extra : list (jsstring * JSON)) : JSON :=
  JObject ((lit "status", JString (lit status)) :: extra
           ++ [(lit "timestamp", JString (now b))]).

(** [path === p && method === m] *)
Definition on (m p : string) (method path : jsstring) : bool :=
  JS.eqb path (lit p) && JS.eqb method (lit m).

(** The chain of [if]s of the dispatcher. *)
Definition route (req : Request) : D response :=
  let path := pathname req in
  let method := toUpperCase (method req) in
  if JS.eqb method (lit "OPTIONS") then ret Preflight
  else if on "GET" "/health" method path then ret (JsonResponse 200 (banner "ok" []))
  else if on "GET" "/" method path then
    ret (JsonResponse 200
           (banner "Server Running"
              [(lit "message", JString (lit "Can't access backend directly."))]))
  else if on "POST" "/api/tasks" method path then createTask req
  else if on "GET" "/api/tasks" method path then authenticated req getTasksFor
  else if starts_with (lit "/api/tasks/") path && JS.eqb method (lit "DELETE")
  then deleteTask req
  else if on "POST" "/api/preferences" method path then savePreferences req
  else if on "GET" "/api/preferences" method path then authenticated req getPreferencesFor
  else if on "POST" "/api/plan" method path then planRoute req
  else if on "GET" "/api/plan" method path then authenticated req getPlanFor
  else if on "GET" "/api/weather" method path then authenticated req getWeatherFor
  else if on "GET" "/api/apod" method path then getApod
  else ret (JsonResponse 404 (error_data (lit "Not found"))).

(** The requests the chain hands to a handler that starts with
    [getUserId]. *)
Definition needs_user (req : Request) : bool :=
  let path := pathname req in
  let method := toUpperCase (method req) in
  negb (JS.eqb method (lit "OPTIONS"))
  && (on "POST" "/api/tasks" method path
      || on "GET" "/api/tasks" method path
      || starts_with (lit "/api/tasks/") path && JS.eqb method (lit "DELETE")
      || on "POST" "/api/preferences" method path
      || on "GET" "/api/preferences" method path
      || on "POST" "/api/plan" method path
      || on "GET" "/api/plan" method path
      || on "GET" "/api/weather" method path).

(** [err.message || 'Server error'] *)
Definition message_or_default (message : jsstring) : jsstring :=
  match message with
  | [] => lit "Server error"
  | _ => message
  end.

(** [fetch(req, env)]: the connection, the route inside [try], the answer to
    an exception in [catch], the end of the connection in [finally]. *)
Definition dispatch (req : Request) : list step * response :=
  match connect b with
  | Thrown _ =>
      ([Connect],
       JsonResponse 500 (error_data (lit "Database connection failed")))
  | Returned _ =>
      let '(t, r) := route req in
      (Connect :: map Handled t ++ [Close],
       match r with
       | Returned answer => answer
       | Thrown message =>
           JsonResponse 500 (error_data (message_or_default message))
       end)
  end.

End Handlers.

End Api.

(** ** Clock times *)

Module Clock.

(** The character of a decimal digit. *)
Definition digit (n : nat) : N := (48 + N.of_nat n)%N.

(** A number below 100 written with two digits. *)
Definition two_digits (n : nat) : jsstring := [digit (n / 10); digit (n mod 10)].

(** The hour [h] and the minute [m] written as [s]: the hour with two digits,
    or with one when it is below ten, a colon, the minute with two digits. *)
Definition written (h m : nat) (s : jsstring) : Prop :=
  s = two_digits h ++ [58%N] ++ two_digits m
  \/ (h < 10 /\ s = [digit h] ++ [58%N] ++ two_digits m).

End Clock.

(** ** Sample requests *)

Module ApiSample.

Import JS Api.

(** The value of a token of decimal digits. *)
Definition value (tok : jsstring) : N :=
  fold_left (fun acc c => (acc * 10 + (c - 48))%N) tok 0%N.

Definition order : NumberOrder := {|
  Number_exceeds := fun tok n => (n <? value tok)%N
|}.

(** A backend whose statements all succeed; a delete removes one row. *)
Definition backend : Backend := {|
  plan_world := Sample.world [Sample.task1];
  connect := Returned tt;
  insertTask := fun _ _ _ _ => Returned tt;
  deleteTaskRow := fun _ _ => Returned 1%N;
  upsertPreferences := fun _ _ => Returned tt;
  now := lit "2024-05-01T08:00:00.000Z"
|}.

Definition taskBody : JSON :=
  JObject [ (lit "title", JString (lit "  Write report "));
            (lit "duration", JNumber (lit "45"));
            (lit "importance", JString (lit "high")) ].

Definition preferencesBody : JSON :=
  JObject [ (lit "wakeTime", JString (lit "7:30"));
            (lit "sleepTime", JString (lit "23:00"));
            (lit "peakFocus", JString (lit "morning"));
            (lit "city", JString (lit "Pune"));
            (lit "breakStyle", JString (lit "short"));
            (lit "breakInterval", JNumber (lit "50"));
            (lit "maxWorkHours", JNumber (lit "8"));
            (lit "commuteMode", JString (lit "bike")) ].

Definition request (m p : string) (header : option jsstring) (data : JSON)
  : Request :=
  {| method := lit m; pathname := lit p; authorization := header;
     json_body := Returned data |}.

(** A stand-in for the handlers that only read. *)
Definition reader (_ : jsstring) : D response :=
  ret (JsonResponse 200 JNull).

(** A completion with prose around the object. *)
Definition chatty : jsstring :=
  lit "Here is your plan: " ++ Sample.plain_summary ++ lit " Enjoy!".

Definition plain_summary_value : JSON :=
  JObject [ (lit "schedule", JArray []); (lit "summary", JString (lit "x")) ].

End ApiSample.

(** * Properties *)

(** ** Strings *)

Section StringFacts.

Import JS.

Lemma strip_prefix_app (p s : jsstring) : strip_prefix p (p ++ s) = Some s.
Proof.
  induction p as [|a p IH]; simpl; [reflexivity|].
  now rewrite N.eqb_refl.
Qed.

Lemma strip_prefix_Some (p s r : jsstring) :
  strip_prefix p s = Some r -> s = p ++ r.
Proof.
  revert s; induction p as [|a p IH]; intros s H; simpl in *.
  - now inversion H.
  - destruct s as [|b s]; [discriminate|].
    destruct (N.eqb_spec a b); [subst|discriminate].
    now rewrite (IH _ H).
Qed.

Lemma strip_prefix_head (a b : N) (p s : jsstring) :
  a <> b -> strip_prefix (a :: p) (b :: s) = None.
Proof. intros H; simpl. now destruct (N.eqb_spec a b). Qed.

Lemma strip_suffix_app (p s : jsstring) : strip_suffix p (s ++ p) = Some s.
Proof.
  unfold strip_suffix. rewrite rev_app_distr, strip_prefix_app.
  now rewrite rev_involutive.
Qed.

Lemma strip_suffix_Some (p s r : jsstring) :
  strip_suffix p s = Some r -> s = r ++ p.
Proof.
  unfold strip_suffix.
  destruct (strip_prefix (rev p) (rev s)) as [x|] eqn:E; [|discriminate].
  intros H; inversion H; subst. apply strip_prefix_Some in E.
  rewrite <- (rev_involutive s), E, rev_app_distr.
  now rewrite rev_involutive.
Qed.

Lemma strip_suffix_last (a b : N) (p s : jsstring) :
  a <> b -> strip_suffix (p ++ [a]) (s ++ [b]) = None.
Proof.
  intros H. unfold strip_suffix. rewrite !rev_app_distr. simpl.
  now destruct (N.eqb_spec a b).
Qed.

Lemma infix_refl (s : jsstring) : infix s s.
Proof. exists [], []. now rewrite app_nil_r. Qed.

Lemma infix_trans (a b c : jsstring) : infix a b -> infix b c -> infix a c.
Proof.
  intros (l1 & r1 & ->) (l2 & r2 & ->).
  exists (l2 ++ l1), (r1 ++ r2). now rewrite <- !app_assoc.
Qed.

Lemma infix_suffix (a s : jsstring) : infix s (a ++ s).
Proof. exists a, []. now rewrite app_nil_r. Qed.

Lemma infix_prefix (s b : jsstring) : infix s (s ++ b).
Proof. now exists [], b. Qed.

Lemma includes_true_iff (p s : jsstring) :
  includes p s = true <-> infix p s.
Proof.
  split.
  - induction s as [|c s IH]; simpl; intros H.
    + rewrite orb_false_r in H. unfold starts_with in H.
      destruct (strip_prefix p []) as [r|] eqn:E; [|discriminate].
      apply strip_prefix_Some in E. exists [], r. exact E.
    + apply orb_true_iff in H. destruct H as [H|H].
      * unfold starts_with in H.
        destruct (strip_prefix p (c :: s)) as [r|] eqn:E; [|discriminate].
        apply strip_prefix_Some in E. exists [], r. exact E.
      * destruct (IH H) as (l & r & ->). now exists (c :: l), r.
  - intros (l & r & ->). induction l as [|c l IH]; simpl.
    + assert (Hs : starts_with p (p ++ r) = true)
        by (unfold starts_with; now rewrite strip_prefix_app).
      destruct (p ++ r); simpl; now rewrite Hs.
    + rewrite IH. apply orb_true_r.
Qed.

Lemma includes_infix (p a s : jsstring) :
  infix a s -> includes p a = true -> includes p s = true.
Proof.
  intros Hi H. apply includes_true_iff. apply includes_true_iff in H.
  eapply infix_trans; eassumption.
Qed.

Lemma includes_infix_false (p a s : jsstring) :
  infix a s -> includes p s = false -> includes p a = false.
Proof.
  intros Hi H. destruct (includes p a) eqn:E; [|reflexivity].
  now rewrite (includes_infix p a s Hi E) in H.
Qed.

Lemma dropWhile_suffix (f : N -> bool) (s : jsstring) :
  exists a, s = a ++ dropWhile f s /\ forallb f a = true.
Proof.
  induction s as [|c s (a & IH & Ha)]; simpl.
  - now exists [].
  - destruct (f c) eqn:E.
    + exists (c :: a). simpl. rewrite E, Ha. split; [now f_equal|reflexivity].
    + now exists [].
Qed.

Lemma dropWhile_app_all (f : N -> bool) (a s : jsstring) :
  forallb f a = true -> dropWhile f (a ++ s) = dropWhile f s.
Proof.
  induction a as [|c a IH]; simpl; [reflexivity|].
  intros H. apply andb_true_iff in H. destruct H as [-> H]. auto.
Qed.

Lemma dropWhile_stop (f : N -> bool) (c : N) (s : jsstring) :
  f c = false -> dropWhile f (c :: s) = c :: s.
Proof. intros H; simpl; now rewrite H. Qed.

Lemma skip_spaces_infix (s : jsstring) : infix (skip_spaces s) s.
Proof.
  destruct (dropWhile_suffix is_space s) as (a & H & _).
  exists a, []. now rewrite app_nil_r.
Qed.

Lemma drop_trailing_spaces_prefix (s : jsstring) :
  exists b, s = drop_trailing_spaces s ++ b /\ forallb is_space b = true.
Proof.
  unfold drop_trailing_spaces.
  destruct (dropWhile_suffix is_space (rev s)) as (a & H & Ha).
  exists (rev a). split.
  - rewrite <- rev_app_distr, <- H. now rewrite rev_involutive.
  - rewrite forallb_forall in *. intros x Hx. apply Ha. now apply in_rev.
Qed.

Lemma drop_trailing_spaces_infix (s : jsstring) :
  infix (drop_trailing_spaces s) s.
Proof.
  destruct (drop_trailing_spaces_prefix s) as (b & H & _). now exists [], b.
Qed.

Lemma trim_infix (s : jsstring) : infix (trim s) s.
Proof.
  unfold trim. eapply infix_trans;
    [apply drop_trailing_spaces_infix | apply skip_spaces_infix].
Qed.

Lemma strip_prefix_ci_suffix (p s r : jsstring) :
  strip_prefix_ci p s = Some r -> exists a, s = a ++ r /\ length a = length p.
Proof.
  revert s; induction p as [|a p IH]; intros s H; simpl in *.
  - inversion H. now exists [].
  - destruct s as [|b s]; [discriminate|].
    destruct (canonicalize a =? canonicalize b)%N; [|discriminate].
    destruct (IH _ H) as (x & -> & Hx). exists (b :: x). simpl. auto.
Qed.

Lemma from_first_Some (c : N) (s t : jsstring) :
  from_first c s = Some t ->
  exists a u, s = a ++ c :: u /\ t = c :: u /\ count_char c a = 0.
Proof.
  unfold count_char.
  induction s as [|d s IH]; simpl; [discriminate|].
  destruct (N.eqb_spec d c) as [->|Hd]; intros H.
  - inversion H. now exists [], s.
  - destruct (IH H) as (a & u & -> & -> & Ha). exists (d :: a), u.
    simpl. destruct (N.eqb_spec c d); [congruence|]. auto.
Qed.

Lemma from_first_None (c : N) (s : jsstring) :
  from_first c s = None <-> count_char c s = 0.
Proof.
  unfold count_char. induction s as [|d s IH]; simpl; [tauto|].
  rewrite (N.eqb_sym c d). destruct (d =? c)%N; simpl; [|exact IH].
  split; discriminate.
Qed.

Lemma from_first_here (c : N) (s : jsstring) :
  from_first c (c :: s) = Some (c :: s).
Proof. simpl. now rewrite N.eqb_refl. Qed.

Lemma through_last_Some (c : N) (s r : jsstring) :
  through_last c s = Some r ->
  exists u b, s = u ++ c :: b /\ r = u ++ [c] /\ count_char c b = 0.
Proof.
  unfold count_char. revert r.
  induction s as [|d s IH]; simpl; intros r; [discriminate|].
  destruct (through_last c s) as [r'|] eqn:E.
  - intros H; inversion H; subst.
    destruct (IH _ eq_refl) as (u & b & -> & -> & Hb).
    now exists (d :: u), b.
  - destruct (N.eqb_spec d c) as [->|Hd]; [|discriminate].
    intros H; inversion H; subst. exists [], s. repeat split.
    clear IH H. induction s as [|e s IHs]; simpl in *; [reflexivity|].
    destruct (through_last c s); [discriminate|].
    rewrite (N.eqb_sym c e). destruct (e =? c)%N; [discriminate|auto].
Qed.

Lemma through_last_app (c : N) (u b : jsstring) :
  count_char c b = 0 -> through_last c (u ++ c :: b) = Some (u ++ [c]).
Proof.
  intros Hb.
  assert (Hn : through_last c b = None).
  { unfold count_char in Hb. induction b as [|e b IH]; simpl in *; [reflexivity|].
    rewrite (N.eqb_sym e c). destruct (c =? e)%N; simpl in Hb; [discriminate|].
    now rewrite (IH Hb). }
  induction u as [|d u IH]; simpl.
  - now rewrite Hn, N.eqb_refl.
  - now rewrite IH.
Qed.

Lemma count_char_app (c : N) (a b : jsstring) :
  count_char c (a ++ b) = count_char c a + count_char c b.
Proof. unfold count_char. now rewrite filter_app, length_app. Qed.

Lemma eqb_true (x y : jsstring) : JS.eqb x y = true -> x = y.
Proof.
  revert y. induction x as [|a x IH]; intros [|c y]; simpl; try discriminate;
    [reflexivity|].
  rewrite andb_true_iff, N.eqb_eq. intros [-> H]. now rewrite (IH y H).
Qed.


Lemma eqb_same (x : jsstring) : JS.eqb x x = true.
Proof.
  induction x as [|a x IH]; simpl; [reflexivity|].
  now rewrite N.eqb_refl, IH.
Qed.


Lemma dropWhile_head (f : N -> bool) (s t : jsstring) (c : N) :
  dropWhile f s = c :: t -> f c = false.
Proof.
  induction s as [|d s IH]; simpl; [discriminate|].
  destruct (f d) eqn:E; [exact IH|]. intros H; inversion H; now subst.
Qed.


Lemma trim_first (s t : jsstring) (c : N) :
  trim s = c :: t -> is_space c = false.
Proof.
  unfold trim. intros H.
  destruct (drop_trailing_spaces_prefix (skip_spaces s)) as (b & Hb & _).
  rewrite H in Hb. simpl in Hb.
  now apply (dropWhile_head is_space s (t ++ b) c).
Qed.


Lemma trim_last (s t : jsstring) (c : N) :
  trim s = t ++ [c] -> is_space c = false.
Proof.
  unfold trim, drop_trailing_spaces. intros H.
  apply (f_equal (@rev N)) in H.
  rewrite rev_involutive, rev_app_distr in H. simpl in H.
  now apply (dropWhile_head is_space _ _ _ H).
Qed.

End StringFacts.

(** ** The cleaning steps keep a part of the text *)

Section CleaningFacts.

Import JS Repair.

Lemma strip_json_fence_infix (s : jsstring) : infix (strip_json_fence s) s.
Proof.
  unfold strip_json_fence.
  destruct (strip_prefix_ci (lit "```json") s) as [r|] eqn:E;
    [|apply infix_refl].
  destruct (strip_prefix_ci_suffix _ _ _ E) as (a & -> & _).
  eapply infix_trans; [apply skip_spaces_infix | apply infix_suffix].
Qed.

Lemma strip_open_fence_infix (s : jsstring) : infix (strip_open_fence s) s.
Proof.
  unfold strip_open_fence.
  destruct (strip_prefix fence s) as [r|] eqn:E; [|apply infix_refl].
  rewrite (strip_prefix_Some _ _ _ E).
  eapply infix_trans; [apply skip_spaces_infix | apply infix_suffix].
Qed.

Lemma strip_close_fence_infix (s : jsstring) : infix (strip_close_fence s) s.
Proof.
  unfold strip_close_fence.
  destruct (strip_suffix fence s) as [r|] eqn:E; [|apply infix_refl].
  rewrite (strip_suffix_Some _ _ _ E).
  eapply infix_trans; [apply drop_trailing_spaces_infix | apply infix_prefix].
Qed.

Lemma match_braces_infix (s m : jsstring) :
  match_braces s = Some m -> infix m s.
Proof.
  unfold match_braces. destruct (from_first 123 s) as [t|] eqn:E; [|discriminate].
  intros H.
  destruct (from_first_Some _ _ _ E) as (a & u & -> & -> & _).
  destruct (through_last_Some _ _ _ H) as (x & b & Hx & -> & _).
  rewrite Hx. exists a, b. now rewrite <- !app_assoc.
Qed.

Lemma cleanContent_infix (rawContent : jsstring) :
  infix (cleanContent rawContent) rawContent.
Proof.
  unfold cleanContent.
  eapply infix_trans; [apply trim_infix|].
  assert (H : infix (strip_close_fence (strip_open_fence
                       (strip_json_fence (trim rawContent)))) rawContent).
  { eapply infix_trans; [apply strip_close_fence_infix|].
    eapply infix_trans; [apply strip_open_fence_infix|].
    eapply infix_trans; [apply strip_json_fence_infix|apply trim_infix]. }
  destruct (match_braces _) as [m|] eqn:E; [|exact H].
  eapply infix_trans; [eapply match_braces_infix; exact E | exact H].
Qed.

(** The truncation repair leaves a text without the schedule key alone. *)
Lemma repairTruncated_no_schedule (cleaned : jsstring) :
  includes q_schedule cleaned = false -> repairTruncated cleaned = cleaned.
Proof. intros H. unfold repairTruncated. now rewrite H. Qed.

Lemma repairTruncated_with_summary (cleaned : jsstring) :
  includes q_summary cleaned = true -> repairTruncated cleaned = cleaned.
Proof.
  intros H. unfold repairTruncated. rewrite H. now rewrite andb_false_r.
Qed.

End CleaningFacts.

Lemma matches_is_object (v : JSON) : Schema.matches v = true -> Schema.is_object v = true.
Proof. destruct v; simpl; congruence. Qed.


(** ** The cascade of [parseAIResponse] *)

Section CascadeFacts.

Import JS Repair.

(** C4. A completion that is valid JSON of the shape
    [{ schedule, summary }] is returned as [JSON.parse] reads it: the first
    stage ends the cascade and no repair touches the value. *)
Theorem valid_completion_returned_unchanged (rawContent : jsstring) (v : JSON) :
  JSON_parse rawContent = Some v ->
  Schema.matches v = true ->
  parseAIResponse rawContent = Returned v.
Proof.
  intros Hparse _. unfold parseAIResponse, parseAIResponse_try.
  now rewrite Hparse.
Qed.

(** C10. Whatever valid JSON the completion is (an object of another shape,
    an array, a number, a string), [parseAIResponse] returns the parsed
    value and does not throw: a successful direct parse is not checked
    against the schema. *)
Theorem direct_parse_is_not_validated (rawContent : jsstring) (v : JSON) :
  JSON_parse rawContent = Some v ->
  parseAIResponse rawContent = Returned v.
Proof.
  intros Hparse. unfold parseAIResponse, parseAIResponse_try.
  now rewrite Hparse.
Qed.

(** C3, as the code has it. A completion without the quoted word schedule
    that neither parses as it is nor after cleaning makes [parseAIResponse]
    throw the unrecoverable-response error, whose message carries the first
    200 characters of the completion. *)
Theorem no_schedule_content_is_unrecoverable (rawContent : jsstring) :
  includes q_schedule rawContent = false ->
  JSON_parse rawContent = None ->
  JSON_parse (cleanContent rawContent) = None ->
  parseAIResponse rawContent =
    Thrown (lit "Cannot extract valid JSON from AI response: "
            ++ firstn 200 rawContent ++ lit "...").
Proof.
  intros Hno Hraw Hclean.
  assert (Hc : includes q_schedule (cleanContent rawContent) = false)
    by (eapply includes_infix_false; [apply cleanContent_infix | exact Hno]).
  unfold parseAIResponse, parseAIResponse_try.
  rewrite Hraw, (repairTruncated_no_schedule _ Hc), Hclean, Hc.
  reflexivity.
Qed.

Lemma scrape_items_length (tm am dm ty : list jsstring) (i n : nat) :
  length (scrape_items tm am dm ty i n) = n.
Proof. revert i; induction n as [|n IH]; intros i; simpl; auto. Qed.

Lemma scrape_items_nth (tm am dm ty : list jsstring) (n i k : nat) :
  k < n ->
  nth k (scrape_items tm am dm ty i n) JNull =
    schedule_item (capture_or "09:00" (nth (i + k) tm []))
                  (capture_or "Task" (nth (i + k) am []))
                  (capture_or "30" (nth (i + k) dm []))
                  (capture_or "task" (nth (i + k) ty [])).
Proof.
  revert i k; induction n as [|n IH]; intros i k Hk; [lia|].
  destruct k as [|k]; simpl.
  - now rewrite Nat.add_0_r.
  - rewrite IH by lia. now replace (S i + k) with (i + S k) by lia.
Qed.

(** The items the scraping stage builds from the four lists of matches. *)
Lemma scrapeSchedule_items (cleaned : jsstring) :
  let tm := match_field "time" cleaned in
  let am := match_field "activity" cleaned in
  let dm := match_field "duration" cleaned in
  let ty := match_field "type" cleaned in
  exists items,
    scrapeSchedule cleaned = plan_object items fallback_summary /\
    length items =
      Nat.min (length tm) (Nat.min (length am)
        (Nat.min (length dm) (length ty))) /\
    forall i, i < length items ->
      nth i items JNull =
        schedule_item (capture_or "09:00" (nth i tm []))
                      (capture_or "Task" (nth i am []))
                      (capture_or "30" (nth i dm []))
                      (capture_or "task" (nth i ty [])).
Proof.
  intros tm am dm ty. unfold scrapeSchedule. fold tm am dm ty.
  destruct (negb (is_null tm) && negb (is_null am) && negb (is_null dm)
            && negb (is_null ty)) eqn:E.
  - eexists; split; [reflexivity|]. rewrite scrape_items_length.
    split; [reflexivity|]. intros i Hi. now rewrite scrape_items_nth.
  - exists []. split; [reflexivity|]. split; [|simpl; intros; lia].
    destruct tm; [reflexivity|]. destruct am; [simpl; lia|].
    destruct dm; [simpl; lia|]. destruct ty; [simpl; lia|]. discriminate.
Qed.

End CascadeFacts.

(** ** The parser *)

Section ParserFacts.

Import Json.

Ltac split_if :=
  match goal with
  | |- context [if ?b then _ else _] => destruct b eqn:?
  | H : context [if ?b then _ else _] |- _ => destruct b eqn:?
  end.

Ltac unfold_step :=
  unfold step, value_start, after_value, string_step, string_done in *.

Lemma steps_app (st : state) (a b : jsstring) :
  steps st (a ++ b) =
    match steps st a with
    | Some st' => steps st' b
    | None => None
    end.
Proof.
  revert st; induction a as [|c a IH]; intros st; simpl; [reflexivity|].
  destruct (step st c); auto.
Qed.

Lemma steps_app_Some (st st' : state) (a b : jsstring) :
  steps st a = Some st' -> steps st (a ++ b) = steps st' b.
Proof. intros H. now rewrite steps_app, H. Qed.

(** A step looks at the top of the stack only. *)
Lemma step_frame (K K' base : list frame) (m m' : mode) (c : N) :
  step (K, m) c = Some (K', m') ->
  step (K ++ base, m) c = Some (K' ++ base, m').
Proof.
  intros H. destruct m as [| | | | |k acc ss|ns tok|rest l|v];
    try destruct ss; try destruct ns; try destruct rest as [|d [|d' rest]];
    unfold_step; unfold num_next, num_complete in *; simpl in *;
    repeat first [ discriminate | split_if
                 | match goal with
                   | H : context [match hex_value ?c with _ => _ end] |- _ =>
                       destruct (hex_value c)
                   end ];
    try discriminate;
    try (destruct K as [|[] K]; simpl in *; try discriminate);
    try (inversion H; subst; reflexivity).
Qed.

Lemma steps_frame (s : jsstring) (K K' base : list frame) (m m' : mode) :
  steps (K, m) s = Some (K', m') ->
  steps (K ++ base, m) s = Some (K' ++ base, m').
Proof.
  revert K m; induction s as [|c s IH]; intros K m H; cbn [steps] in *.
  - now inversion H.
  - destruct (step (K, m) c) as [[K1 m1]|] eqn:E; [|discriminate].
    rewrite (step_frame _ _ base _ _ _ E). auto.
Qed.


Ltac step_cases m :=
  destruct m as [| | | | |k acc ss|ns tok|rest l|v];
  try destruct ss; try destruct ns; try destruct rest as [|d [|d' rest]];
  unfold_step; unfold num_next, num_complete in *; simpl in *;
  repeat first [ discriminate | split_if
               | match goal with
                 | H : context [match hex_value ?c with _ => _ end] |- _ =>
                     destruct (hex_value c)
                 end ];
  try discriminate.

Lemma step_ws_idle (K : list frame) (m : mode) (c : N) :
  idle m = true -> is_ws c = true -> step (K, m) c = Some (K, m).
Proof.
  intros Hm Hc. destruct m; try discriminate; simpl;
    unfold after_value; now rewrite Hc.
Qed.

Lemma steps_ws_idle (K : list frame) (m : mode) (w : jsstring) :
  idle m = true -> forallb is_ws w = true -> steps (K, m) w = Some (K, m).
Proof.
  intros Hm. induction w as [|c w IH]; intros Hw; cbn [steps]; [reflexivity|].
  simpl in Hw. apply andb_true_iff in Hw. destruct Hw as [Hc Hw].
  rewrite (step_ws_idle K m c Hm Hc). auto.
Qed.

(** White space does not complete an object. *)
Lemma step_ws_object (K K' : list frame) (m : mode) (c : N)
  (ps : list (jsstring * JSON)) :
  is_ws c = true ->
  step (K, m) c = Some (K', MAfter (JObject ps)) ->
  (K, m) = (K', MAfter (JObject ps)).
Proof.
  intros Hc H. step_cases m; try congruence;
    try (destruct K as [|[] K]; simpl in *; try discriminate);
    try (inversion H; subst; try reflexivity; try discriminate);
    try (unfold is_ws in Hc;
         repeat match goal with
                | E : (_ =? _)%N = true |- _ => apply N.eqb_eq in E; subst
                end; discriminate);
    try (destruct l; discriminate).
Qed.

Lemma steps_ws_object (st : state) (s w : jsstring) (K' : list frame)
  (ps : list (jsstring * JSON)) :
  forallb is_ws w = true ->
  steps st (s ++ w) = Some (K', MAfter (JObject ps)) ->
  steps st s = Some (K', MAfter (JObject ps)).
Proof.
  revert s; induction w as [|c w IH]; intros s Hw H.
  - now rewrite app_nil_r in H.
  - simpl in Hw. apply andb_true_iff in Hw. destruct Hw as [Hc Hw].
    replace (s ++ c :: w) with ((s ++ [c]) ++ w) in H
      by now rewrite <- app_assoc.
    apply IH in H; [|exact Hw]. rewrite steps_app in H.
    destruct (steps st s) as [[K1 m1]|]; [|discriminate].
    cbn [steps] in H.
    destruct (step (K1, m1) c) as [st2|] eqn:E; [|discriminate].
    inversion H; subst.
    now rewrite (step_ws_object _ _ _ _ _ Hc E).
Qed.

(** Only a closing brace completes an object. *)
Lemma step_object_brace (K K' : list frame) (m : mode) (c : N)
  (ps : list (jsstring * JSON)) :
  step (K, m) c = Some (K', MAfter (JObject ps)) ->
  is_ws c = true \/ c = 125%N.
Proof.
  intros H. step_cases m; auto;
    try (destruct K as [|[] K]; simpl in *; try discriminate);
    try (inversion H; subst; try discriminate);
    try (right; now apply N.eqb_eq);
    try (destruct l; discriminate).
Qed.

Lemma step_non_object (st st' : state) (c : N) :
  step st c = Some st' -> non_object st = true -> non_object st' = true.
Proof.
  destruct st as [K m], st' as [K' m']. unfold non_object. intros H Hn.
  step_cases m;
    destruct K as [|f [|g K2]]; try destruct f; simpl in *;
    try discriminate;
    try (inversion H; subst; simpl; try reflexivity; try assumption;
         try (destruct l; reflexivity)).
Qed.

Lemma steps_non_object (s : jsstring) (st st' : state) :
  steps st s = Some st' -> non_object st = true -> non_object st' = true.
Proof.
  revert st; induction s as [|c s IH]; intros st H Hn; cbn [steps] in H.
  - now inversion H; subst.
  - destruct (step st c) as [st1|] eqn:E; [|discriminate].
    eapply IH; [exact H|]. eapply step_non_object; eassumption.
Qed.

Lemma parse_object_state (t : jsstring) (ps : list (jsstring * JSON)) :
  JSON_parse t = Some (JObject ps) ->
  steps initial t = Some ([], MAfter (JObject ps)).
Proof.
  unfold JSON_parse. destruct (steps initial t) as [[K m]|]; [|discriminate].
  destruct K; [|discriminate]. destruct m; simpl; try discriminate.
  - destruct (num_complete st); discriminate.
  - now intros H; inversion H.
Qed.

Lemma state_parse (t : jsstring) (v : JSON) :
  steps initial t = Some ([], MAfter v) -> JSON_parse t = Some v.
Proof. intros H. unfold JSON_parse. now rewrite H. Qed.

Lemma rstrip_spec (f : N -> bool) (s : jsstring) :
  exists core b,
    s = core ++ b /\ forallb f b = true /\
    (core = [] \/ exists x e, core = x ++ [e] /\ f e = false).
Proof.
  induction s as [|e s IH] using rev_ind.
  - exists [], []. auto.
  - destruct (f e) eqn:E.
    + destruct IH as (core & b & -> & Hb & Hc).
      exists core, (b ++ [e]). rewrite app_assoc. split; [reflexivity|].
      split; [|exact Hc]. rewrite forallb_app, Hb. simpl. now rewrite E.
    + exists (s ++ [e]), []. rewrite app_nil_r. split; [reflexivity|].
      split; [reflexivity|]. right. now exists s, e.
Qed.

Lemma lstrip_spec (f : N -> bool) (s : jsstring) :
  exists a r,
    s = a ++ r /\ forallb f a = true /\
    (r = [] \/ exists c x, r = c :: x /\ f c = false).
Proof.
  induction s as [|c s (a & r & -> & Ha & Hr)].
  - exists [], []. auto.
  - destruct (f c) eqn:E.
    + exists (c :: a), r. simpl. rewrite E, Ha. auto.
    + exists [], (c :: a ++ r). split; [reflexivity|]. split; [reflexivity|].
      right. now exists c, (a ++ r).
Qed.

(** The text of an object is an opening brace, a body and a closing brace,
    between white space. *)
Lemma object_text_shape (t : jsstring) (ps : list (jsstring * JSON)) :
  JSON_parse t = Some (JObject ps) ->
  exists wl mid wr,
    t = wl ++ (123%N :: mid ++ [125%N]) ++ wr /\
    forallb is_ws wl = true /\ forallb is_ws wr = true /\
    steps initial (123%N :: mid ++ [125%N]) = Some ([], MAfter (JObject ps)).
Proof.
  intros Hp. apply parse_object_state in Hp.
  destruct (lstrip_spec is_ws t) as (wl & r & -> & Hwl & Hr).
  rewrite (steps_app_Some initial initial wl r) in Hp
    by now apply steps_ws_idle.
  destruct (rstrip_spec is_ws r) as (core & wr & -> & Hwr & Hcore).
  apply steps_ws_object in Hp; [|exact Hwr].
  exists wl. destruct Hcore as [->|(x & e & -> & He)]; [discriminate|].
  assert (He' : e = 125%N).
  { rewrite steps_app in Hp.
    destruct (steps initial x) as [[K1 m1]|]; [|discriminate].
    cbn [steps] in Hp.
    destruct (step (K1, m1) e) as [st2|] eqn:E; [|discriminate].
    inversion Hp; subst.
    destruct (step_object_brace _ _ _ _ _ E) as [Hw|Hw]; congruence. }
  subst e.
  destruct x as [|c mid].
  - discriminate.
  - assert (Hc : c = 123%N).
    { destruct (N.eq_dec c 123%N) as [|Hne]; [assumption|exfalso].
      destruct Hr as [Hr|(c' & x' & Hr & Hc')]; [discriminate|].
      inversion Hr; subst c'. clear Hr.
      simpl in Hp. unfold initial in Hp. cbn [step] in Hp. rewrite Hc' in Hp.
      destruct (value_start [] c) as [st1|] eqn:E; [|discriminate].
      assert (Hn : non_object st1 = true).
      { unfold value_start in E. apply N.eqb_neq in Hne. rewrite Hne in E.
        repeat split_if; inversion E; reflexivity. }
      apply (steps_non_object _ _ _ Hp) in Hn. discriminate. }
    subst c. exists mid, wr. repeat split; assumption.
Qed.

End ParserFacts.

(** ** Completions between markdown fences *)

Section FenceFacts.

Import JS Repair.

Lemma is_ws_is_space (c : N) : Json.is_ws c = true -> is_space c = true.
Proof.
  unfold Json.is_ws. intros H.
  repeat (apply orb_true_iff in H; destruct H as [H|H]);
    apply N.eqb_eq in H; subst; reflexivity.
Qed.

Lemma all_ws_all_space (w : jsstring) :
  forallb Json.is_ws w = true -> forallb is_space w = true.
Proof.
  rewrite !forallb_forall. intros H x Hx. apply is_ws_is_space. auto.
Qed.

Lemma skip_spaces_to (w s : jsstring) (c : N) :
  forallb is_space w = true -> is_space c = false ->
  skip_spaces (w ++ c :: s) = c :: s.
Proof.
  intros Hw Hc. unfold skip_spaces.
  rewrite dropWhile_app_all by exact Hw. now apply dropWhile_stop.
Qed.

Lemma drop_trailing_spaces_to (s w : jsstring) (c : N) :
  forallb is_space w = true -> is_space c = false ->
  drop_trailing_spaces (s ++ c :: w) = s ++ [c].
Proof.
  intros Hw Hc. unfold drop_trailing_spaces.
  rewrite rev_app_distr. simpl. rewrite <- app_assoc. simpl.
  rewrite dropWhile_app_all.
  - rewrite dropWhile_stop by exact Hc. simpl. now rewrite rev_involutive.
  - rewrite forallb_forall in *. intros x Hx. apply Hw. now apply in_rev.
Qed.

Lemma drop_trailing_spaces_last (s : jsstring) (c : N) :
  is_space c = false -> drop_trailing_spaces (s ++ [c]) = s ++ [c].
Proof. intros Hc. now apply (drop_trailing_spaces_to s [] c). Qed.

Lemma strip_prefix_ci_app (p a s : jsstring) :
  strip_prefix_ci p a = Some [] -> strip_prefix_ci p (a ++ s) = Some s.
Proof.
  revert a; induction p as [|x p IH]; intros a H; simpl in *.
  - now inversion H.
  - destruct a as [|y a]; [discriminate|]. simpl.
    destruct (canonicalize x =? canonicalize y)%N; [auto|discriminate].
Qed.

(** Neither white space nor an opening brace reads as the letter j under the
    [i] flag. *)
Lemma not_letter_j (c : N) :
  is_space c = true \/ c = 123%N ->
  (canonicalize 106 =? canonicalize c)%N = false.
Proof.
  intros H. apply N.eqb_neq. intros E.
  assert (Hc : c = 74%N \/ c = 106%N).
  { unfold canonicalize in E. simpl in E.
    destruct ((97 <=? c) && (c <=? 122))%N eqn:R.
    - apply andb_true_iff in R. destruct R as [R1 R2].
      apply N.leb_le in R1, R2. right. lia.
    - left. now symmetry. }
  destruct Hc as [-> | ->]; destruct H as [H|H]; vm_compute in H;
    discriminate.
Qed.

Lemma includes_skip_left (f : N -> bool) (a : N) (p w s : jsstring) :
  f a = false -> forallb f w = true ->
  includes (a :: p) (w ++ s) = true -> includes (a :: p) s = true.
Proof.
  intros Ha. induction w as [|c w IH]; intros Hw H; [exact H|].
  simpl in Hw. apply andb_true_iff in Hw. destruct Hw as [Hc Hw].
  apply IH; [exact Hw|].
  change ((c :: w) ++ s) with (c :: (w ++ s)) in H.
  cbn [includes] in H. apply orb_true_iff in H. destruct H as [H|H]; [|exact H].
  unfold starts_with in H. simpl in H.
  destruct (N.eqb_spec a c); [congruence|discriminate].
Qed.

Lemma includes_skip_right (f : N -> bool) (e : N) (p s w : jsstring) :
  f e = false -> forallb f w = true ->
  includes (p ++ [e]) (s ++ w) = true -> includes (p ++ [e]) s = true.
Proof.
  intros He. induction w as [|c w IH] using rev_ind; intros Hw H.
  - now rewrite app_nil_r in H.
  - rewrite forallb_app in Hw. apply andb_true_iff in Hw.
    destruct Hw as [Hw Hc]. simpl in Hc. rewrite andb_true_r in Hc.
    apply IH; [exact Hw|].
    apply includes_true_iff in H. apply includes_true_iff.
    destruct H as (l & r & H).
    destruct r as [|y r] using rev_ind.
    + rewrite app_nil_r in H. rewrite !app_assoc in H.
      apply app_inj_tail in H. destruct H as [_ H]. congruence.
    + clear IHr. exists l, r.
      rewrite !app_assoc in H. apply app_inj_tail in H.
      destruct H as [H _]. rewrite H. now rewrite <- !app_assoc.
Qed.


Lemma trim_core (s w1 w2 : jsstring) (a b : N) :
  forallb is_space w1 = true -> forallb is_space w2 = true ->
  is_space a = false -> is_space b = false ->
  trim (w1 ++ (a :: s ++ [b]) ++ w2) = a :: s ++ [b].
Proof.
  intros H1 H2 Ha Hb. unfold trim.
  change ((a :: s ++ [b]) ++ w2) with (a :: (s ++ [b]) ++ w2).
  rewrite skip_spaces_to by assumption.
  change (a :: (s ++ [b]) ++ w2) with ((a :: s ++ [b]) ++ w2).
  replace ((a :: s ++ [b]) ++ w2) with ((a :: s) ++ b :: w2)
    by (simpl; now rewrite <- app_assoc).
  now rewrite drop_trailing_spaces_to.
Qed.

Lemma trim_core_id (s : jsstring) (a b : N) :
  is_space a = false -> is_space b = false ->
  trim (a :: s ++ [b]) = a :: s ++ [b].
Proof.
  intros Ha Hb.
  replace (a :: s ++ [b]) with ([] ++ (a :: s ++ [b]) ++ []) at 1
    by (simpl; now rewrite app_nil_r).
  now apply trim_core.
Qed.

Lemma match_braces_object (mid : jsstring) :
  match_braces (123%N :: mid ++ [125%N]) = Some (123 :: mid ++ [125])%N.
Proof.
  unfold match_braces. rewrite from_first_here.
  now apply (through_last_app 125%N (123%N :: mid) []).
Qed.

Lemma strip_json_fence_untagged (c : N) (s : jsstring) :
  is_space c = true \/ c = 123%N ->
  strip_json_fence (fence ++ c :: s) = fence ++ c :: s.
Proof.
  intros H. unfold strip_json_fence.
  change (lit "```json") with ([96; 96; 96; 106]%N ++ lit "son").
  change fence with [96; 96; 96]%N.
  cbn [app strip_prefix_ci]. rewrite !N.eqb_refl.
  now rewrite (not_letter_j c H).
Qed.

Lemma strip_json_fence_tagged (tag s : jsstring) :
  strip_prefix_ci (lit "json") tag = Some [] ->
  strip_json_fence (fence ++ tag ++ s) = skip_spaces s.
Proof.
  intros H. unfold strip_json_fence.
  change (lit "```json") with ([96; 96; 96]%N ++ lit "json").
  change fence with [96; 96; 96]%N.
  cbn [app strip_prefix_ci]. rewrite !N.eqb_refl.
  now rewrite (strip_prefix_ci_app _ _ _ H).
Qed.

(** The cleaning of an object text between markdown fences gives back the
    object text. *)
Lemma cleanContent_fenced (tag w1 w2 wa wb mid : jsstring) :
  tag = [] \/ strip_prefix_ci (lit "json") tag = Some [] ->
  forallb is_space w1 = true -> forallb is_space w2 = true ->
  forallb is_space wa = true -> forallb is_space wb = true ->
  cleanContent
    (wa ++ (fence ++ tag ++ w1 ++ (123%N :: mid ++ [125%N]) ++ w2 ++ fence)
        ++ wb)
  = (123 :: mid ++ [125])%N.
Proof.
  intros Htag H1 H2 Ha Hb. unfold cleanContent.
  set (core := (123%N :: mid ++ [125%N])).
  assert (Ht : trim (wa ++ (fence ++ tag ++ w1 ++ core ++ w2 ++ fence) ++ wb)
               = fence ++ tag ++ w1 ++ core ++ w2 ++ fence).
  { replace (fence ++ tag ++ w1 ++ core ++ w2 ++ fence)
      with (96%N :: ([96; 96]%N ++ tag ++ w1 ++ core ++ w2 ++ [96; 96]%N)
                 ++ [96%N]).
    - now apply trim_core.
    - unfold fence, lit. simpl. repeat (rewrite <- app_assoc; simpl).
      reflexivity. }
  rewrite Ht. clear Ht.
  assert (Hs : skip_spaces (w1 ++ core ++ w2 ++ fence) = core ++ w2 ++ fence)
    by (unfold core; simpl; now apply skip_spaces_to).
  assert (Hopen : strip_open_fence
                    (strip_json_fence
                       (fence ++ tag ++ w1 ++ core ++ w2 ++ fence))
                  = core ++ w2 ++ fence).
  { destruct Htag as [->|Htag].
    - assert (Hj : strip_json_fence (fence ++ [] ++ w1 ++ core ++ w2 ++ fence)
                   = fence ++ w1 ++ core ++ w2 ++ fence).
      { cbn [app]. destruct w1 as [|c w1].
        - apply strip_json_fence_untagged. now right.
        - simpl in H1. apply andb_true_iff in H1. destruct H1 as [Hc _].
          apply (strip_json_fence_untagged c). now left. }
      rewrite Hj. unfold strip_open_fence.
      now rewrite strip_prefix_app.
    - rewrite (strip_json_fence_tagged _ _ Htag), Hs.
      unfold strip_open_fence, core. reflexivity. }
  rewrite Hopen. clear Hopen Hs.
  assert (Hclose : strip_close_fence (core ++ w2 ++ fence) = core).
  { unfold strip_close_fence. rewrite app_assoc, strip_suffix_app.
    unfold core.
    replace ((123%N :: mid ++ [125%N]) ++ w2)
      with ((123%N :: mid) ++ 125%N :: w2)
      by (simpl; now rewrite <- app_assoc).
    now rewrite drop_trailing_spaces_to. }
  rewrite Hclose. unfold core. rewrite match_braces_object.
  now apply trim_core_id.
Qed.


Ltac split_if :=
  match goal with
  | |- context [if ?b then _ else _] => destruct b eqn:?
  | H : context [if ?b then _ else _] |- _ => destruct b eqn:?
  end.

(** No value starts with a white space character of JavaScript. *)
Lemma value_start_space (K : list Json.frame) (c : N) :
  is_space c = true -> Json.value_start K c = None.
Proof.
  intros H. unfold Json.value_start.
  repeat split_if; try reflexivity; exfalso;
    try (match goal with
         | E : (c =? _)%N = true |- _ => apply N.eqb_eq in E; subst c
         end; vm_compute in H; discriminate).
  unfold Json.is_digit, is_space in *.
  rewrite ?orb_true_iff, ?andb_true_iff, ?N.eqb_eq, ?N.leb_le in *. lia.
Qed.

Lemma parse_rejects_fence (wa rest : jsstring) :
  forallb is_space wa = true -> JSON_parse (wa ++ 96%N :: rest) = None.
Proof.
  intros Ha. unfold JSON_parse.
  assert (H : Json.steps Json.initial (wa ++ 96%N :: rest) = None).
  { induction wa as [|c wa IH]; [reflexivity|].
    simpl in Ha. apply andb_true_iff in Ha. destruct Ha as [Hc Ha].
    change ((c :: wa) ++ 96%N :: rest) with (c :: (wa ++ 96%N :: rest)).
    cbn [Json.steps]. unfold Json.initial at 1. cbn [Json.step].
    destruct (Json.is_ws c); [now apply IH|].
    now rewrite value_start_space. }
  now rewrite H.
Qed.

(** C5, as the code has it. An object text of the schema that holds the
    quoted word summary whenever it holds the quoted word schedule gives the
    same value between markdown fences (three backquotes, with or without
    the tag json in any case, white space around the text and around the
    fences) as it gives bare. *)
Theorem fenced_completion_same_value
  (text tag w1 w2 wa wb : jsstring) (v : JSON) :
  JSON_parse text = Some v ->
  Schema.matches v = true ->
  tag = [] \/ strip_prefix_ci (lit "json") tag = Some [] ->
  forallb is_space w1 = true -> forallb is_space w2 = true ->
  forallb is_space wa = true -> forallb is_space wb = true ->
  (includes q_schedule text = true -> includes q_summary text = true) ->
  parseAIResponse (wa ++ (fence ++ tag ++ w1 ++ text ++ w2 ++ fence) ++ wb)
  = parseAIResponse text.
Proof.
  intros Hp Hm Htag H1 H2 Ha Hb Hsum.
  destruct v as [| | | | |ps]; try discriminate. clear Hm.
  destruct (object_text_shape text ps Hp) as (wl & mid & wr & -> & Hwl & Hwr & Hcore).
  set (core := (123%N :: mid ++ [125%N])) in *.
  assert (Hclean :
    cleanContent
      (wa ++ (fence ++ tag ++ w1 ++ (wl ++ core ++ wr) ++ w2 ++ fence) ++ wb)
    = core).
  { replace (fence ++ tag ++ w1 ++ (wl ++ core ++ wr) ++ w2 ++ fence)
      with (fence ++ tag ++ (w1 ++ wl) ++ core ++ (wr ++ w2) ++ fence)
      by (now rewrite <- !app_assoc).
    apply cleanContent_fenced; try assumption;
      rewrite forallb_app; apply andb_true_iff; split;
      try assumption; now apply all_ws_all_space. }
  assert (Hrep : repairTruncated core = core).
  { destruct (includes q_schedule core) eqn:Hs;
      [|now apply repairTruncated_no_schedule].
    apply repairTruncated_with_summary.
    assert (Hi : JS.infix core (wl ++ core ++ wr)) by (now exists wl, wr).
    pose proof (Hsum (includes_infix _ _ _ Hi Hs)) as Hq.
    apply (includes_skip_left Json.is_ws) in Hq; [|reflexivity|exact Hwl].
    apply (includes_skip_right Json.is_ws 34%N (34%N :: lit "summary"))
      in Hq; [exact Hq|reflexivity|exact Hwr]. }
  unfold parseAIResponse, parseAIResponse_try.
  rewrite Hp.
  replace (wa ++ (fence ++ tag ++ w1 ++ (wl ++ core ++ wr) ++ w2 ++ fence)
              ++ wb)
    with (wa ++ 96%N :: ([96; 96]%N ++ tag ++ w1 ++ (wl ++ core ++ wr)
                              ++ w2 ++ fence) ++ wb) at 1 by reflexivity.
  rewrite parse_rejects_fence by exact Ha.
  change (wa ++ 96%N :: ([96; 96]%N ++ tag ++ w1 ++ (wl ++ core ++ wr)
                              ++ w2 ++ fence) ++ wb)
    with (wa ++ (fence ++ tag ++ w1 ++ (wl ++ core ++ wr) ++ w2 ++ fence)
              ++ wb).
  rewrite Hclean, Hrep.
  now rewrite (state_parse core (JObject ps) Hcore).
Qed.

End FenceFacts.

(** ** Completions that were cut off *)

Section TruncationFacts.

Import JS Repair Json Truncation.

Ltac split_if :=
  match goal with
  | |- context [if ?b then _ else _] => destruct b eqn:?
  | H : context [if ?b then _ else _] |- _ => destruct b eqn:?
  end.

Ltac step_cases m :=
  destruct m as [| | | | |k acc ss|ns tok|rest l|v];
  try destruct ss; try destruct ns; try destruct rest as [|d [|d' rest]];
  unfold step, value_start, after_value, string_step, string_done in *;
  unfold num_next, num_complete in *; simpl in *;
  repeat first [ discriminate | split_if
               | match goal with
                 | H : context [match hex_value ?c with _ => _ end] |- _ =>
                     destruct (hex_value c)
                 end ];
  try discriminate.

(** A value that can start after a comma can start after the opening
    bracket. *)
Lemma steps_array_start (s : jsstring) (K K' : list frame) (v : JSON) :
  steps (K, MValue) s = Some (K', MAfter v) ->
  steps (K, MArrayStart) s = Some (K', MAfter v).
Proof.
  induction s as [|c s IH]; intros H; cbn [steps] in *; [discriminate|].
  cbn [step] in *. destruct (is_ws c); [auto|].
  destruct (N.eqb_spec c 93) as [->|_]; [discriminate|exact H].
Qed.

Lemma item_steps (item : jsstring) (v : JSON) (K : list frame) :
  complete_item item v -> steps (K, MValue) item = Some (K, MAfter v).
Proof.
  intros [Hp Ho]. destruct v; try discriminate.
  apply parse_object_state in Hp.
  apply (steps_frame _ _ _ K) in Hp. exact Hp.
Qed.

(** The items of an array, read one after the other. *)
Lemma items_steps (items : list jsstring) (vals : list JSON) :
  Forall2 complete_item items vals -> items <> [] ->
  exists init final,
    vals = init ++ [final] /\ Schema.is_object final = true /\
    forall elems K,
      steps (FArray elems :: K, MValue) (join (lit ",") items)
      = Some (FArray (elems ++ init) :: K, MAfter final).
Proof.
  induction 1 as [|item v items vals Hi Hrest IH]; intros Hne.
  - congruence.
  - destruct items as [|item2 items].
    + inversion Hrest; subst. exists [], v. split; [reflexivity|].
      split; [apply Hi|]. intros elems K. rewrite app_nil_r. simpl.
      now apply item_steps.
    + destruct IH as (init & final & -> & Hf & IH); [discriminate|].
      exists (v :: init), final. split; [reflexivity|]. split; [exact Hf|].
      intros elems K.
      change (join (lit ",") (item :: item2 :: items))
        with (item ++ lit "," ++ join (lit ",") (item2 :: items)).
      rewrite (steps_app_Some _ _ _ _ (item_steps item v _ Hi)).
      change (lit "," ++ join (lit ",") (item2 :: items))
        with (44%N :: join (lit ",") (item2 :: items)).
      cbn [steps step after_value]. simpl. rewrite IH.
      now rewrite <- app_assoc.
Qed.


Lemma head_steps (w1 w2 : jsstring) :
  forallb is_ws w1 = true -> forallb is_ws w2 = true ->
  steps initial (schedule_head w1 w2)
  = Some ([FArray []; FMember [] (lit "schedule")], MArrayStart).
Proof.
  intros H1 H2. unfold schedule_head.
  rewrite (steps_app_Some _ ([FObject []], MObjectStart)) by reflexivity.
  rewrite (steps_app_Some _ ([FObject []], MObjectStart))
    by now apply steps_ws_idle.
  rewrite (steps_app_Some _ ([FMember [] (lit "schedule")], MColon))
    by reflexivity.
  rewrite (steps_app_Some _ ([FMember [] (lit "schedule")], MValue))
    by reflexivity.
  rewrite (steps_app_Some _ ([FMember [] (lit "schedule")], MValue))
    by now apply steps_ws_idle.
  reflexivity.
Qed.

(** The closing bracket, the summary field and the closing brace the repair
    appends, read after the last item. *)
Lemma closing_steps (init : list JSON) (final : JSON) :
  steps ([FArray init; FMember [] (lit "schedule")], MAfter final)
    ([93%N] ++ summary_field ++ [125%N])
  = Some ([], MAfter (plan_object (init ++ [final]) fallback_summary)).
Proof. reflexivity. Qed.

Lemma closing_steps_empty :
  steps ([FArray []; FMember [] (lit "schedule")], MArrayStart)
    ([93%N] ++ summary_field ++ [125%N])
  = Some ([], MAfter (plan_object [] fallback_summary)).
Proof. reflexivity. Qed.

Lemma step_holds_object (K K' : list frame) (m m' : mode) (c : N) :
  c <> 125%N ->
  step (K, m) c = Some (K', m') ->
  holds_object K = true -> holds_object K' = true.
Proof.
  intros Hc H Hk. apply N.eqb_neq in Hc. step_cases m;
    try (destruct K as [|[] K]; simpl in *; try discriminate);
    try (inversion H; subst; simpl; try assumption; try reflexivity);
    try congruence.
Qed.

Lemma count_char_cons (c d : N) (s : jsstring) :
  count_char c (d :: s) = (if (c =? d)%N then 1 else 0) + count_char c s.
Proof. unfold count_char. cbn [filter]. now destruct (c =? d)%N. Qed.

Lemma steps_holds_object (s : jsstring) (K K' : list frame) (m m' : mode) :
  count_char 125 s = 0 ->
  steps (K, m) s = Some (K', m') ->
  holds_object K = true -> holds_object K' = true.
Proof.
  revert K m; induction s as [|c s IH]; intros K m Hs H Hk; cbn [steps] in H.
  - now inversion H; subst.
  - rewrite count_char_cons in Hs.
    destruct (N.eqb_spec 125 c) as [E|Hc]; [discriminate|].
    destruct (step (K, m) c) as [[K1 m1]|] eqn:E; [|discriminate].
    eapply IH; [exact Hs|exact H|].
    eapply step_holds_object; [|exact E|exact Hk]. congruence.
Qed.

(** A text that leaves an object open and has no closing brace after that
    does not parse. *)
Lemma unclosed_object_rejected (a b : jsstring) (K : list frame) (m : mode) :
  steps initial a = Some (K, m) -> holds_object K = true ->
  count_char 125 b = 0 ->
  JSON_parse (a ++ b) = None.
Proof.
  intros Ha Hk Hb. unfold JSON_parse. rewrite (steps_app_Some _ _ _ _ Ha).
  destruct (steps (K, m) b) as [[K' m']|] eqn:E; [|reflexivity].
  pose proof (steps_holds_object _ _ _ _ _ Hb E Hk) as Hk'.
  destruct K'; [discriminate|reflexivity].
Qed.


Lemma drop_trailing_spaces_snoc (s : jsstring) (e : N) :
  is_space e = true ->
  drop_trailing_spaces (s ++ [e]) = drop_trailing_spaces s.
Proof.
  intros He. unfold drop_trailing_spaces. rewrite rev_app_distr.
  simpl. now rewrite He.
Qed.

Lemma drop_trailing_spaces_keep (a t : jsstring) (c : N) :
  is_space c = false ->
  exists t' b, drop_trailing_spaces (a ++ c :: t) = a ++ c :: t' /\
               t = t' ++ b.
Proof.
  intros Hc. induction t as [|e t IH] using rev_ind.
  - exists [], []. split; [|reflexivity].
    now apply drop_trailing_spaces_last.
  - destruct (is_space e) eqn:He.
    + destruct IH as (t' & b & IH & ->). exists t', (b ++ [e]).
      split; [|now rewrite app_assoc].
      replace (a ++ c :: (t' ++ b) ++ [e])
        with ((a ++ c :: t' ++ b) ++ [e])
        by (now rewrite <- app_assoc).
      now rewrite drop_trailing_spaces_snoc.
    + exists (t ++ [e]), []. split; [|now rewrite app_nil_r].
      replace (a ++ c :: t ++ [e]) with ((a ++ c :: t) ++ [e])
        by (now rewrite <- app_assoc).
      now apply drop_trailing_spaces_last.
Qed.

Lemma app_suffix_split (f a t r : jsstring) (c : N) :
  ~ In c f -> a ++ c :: t = r ++ f ->
  exists t', r = a ++ c :: t' /\ t = t' ++ f.
Proof.
  revert t. induction f as [|x f IH] using rev_ind; intros t Hc H.
  - rewrite app_nil_r in H. exists t. now rewrite app_nil_r.
  - destruct t as [|y t] using rev_ind.
    + rewrite app_assoc in H. apply app_inj_tail in H.
      destruct H as [_ H]. exfalso. apply Hc. subst.
      apply in_or_app. right. now left.
    + clear IHt. rewrite app_assoc in H.
      replace (a ++ c :: t ++ [y]) with ((a ++ c :: t) ++ [y]) in H
        by (now rewrite <- app_assoc).
      apply app_inj_tail in H. destruct H as [H ->].
      destruct (IH t) as (t' & -> & ->); [|exact H|].
      * intros Hin. apply Hc. apply in_or_app. now left.
      * exists t'. split; [reflexivity|]. now rewrite app_assoc.
Qed.

Lemma strip_close_fence_keep (a t : jsstring) (c : N) :
  is_space c = false -> c <> 96%N ->
  exists t' b, strip_close_fence (a ++ c :: t) = a ++ c :: t' /\
               t = t' ++ b.
Proof.
  intros Hs Hc. unfold strip_close_fence.
  destruct (strip_suffix fence (a ++ c :: t)) as [r|] eqn:E.
  - apply strip_suffix_Some in E.
    destruct (app_suffix_split fence a t r c) as (t1 & -> & ->);
      [|exact E|].
    + unfold fence. simpl. intuition congruence.
    + destruct (drop_trailing_spaces_keep a t1 c Hs) as (t2 & b & -> & ->).
      exists t2, (b ++ fence). split; [reflexivity|].
      now rewrite app_assoc.
  - exists t, []. now rewrite app_nil_r.
Qed.

Lemma count_char_prefix_zero (c : N) (a b : jsstring) :
  count_char c (a ++ b) = 0 -> count_char c a = 0.
Proof. rewrite count_char_app. lia. Qed.

Lemma through_last_None (c : N) (s : jsstring) :
  count_char c s = 0 -> through_last c s = None.
Proof.
  induction s as [|e s IH]; [reflexivity|].
  rewrite count_char_cons. cbn [through_last].
  destruct (N.eqb_spec c e) as [->|Hc]; [discriminate|].
  intros H. rewrite (IH H).
  now destruct (N.eqb_spec e c); [congruence|].
Qed.

Lemma strip_json_fence_brace (s : jsstring) :
  strip_json_fence (123%N :: s) = 123%N :: s.
Proof. reflexivity. Qed.

Lemma strip_open_fence_brace (s : jsstring) :
  strip_open_fence (123%N :: s) = 123%N :: s.
Proof. reflexivity. Qed.

(** The cleaning of a text that starts with an opening brace and has a
    closing brace: everything up to the last closing brace. *)
Lemma cleanContent_cut (x t : jsstring) :
  count_char 125 t = 0 ->
  cleanContent ((123%N :: x) ++ 125%N :: t) = (123%N :: x) ++ [125%N].
Proof.
  intros Ht. unfold cleanContent, trim.
  change (skip_spaces ((123%N :: x) ++ 125%N :: t))
    with ((123%N :: x) ++ 125%N :: t).
  destruct (drop_trailing_spaces_keep (123%N :: x) t 125%N eq_refl)
    as (t1 & b1 & -> & ->).
  apply count_char_prefix_zero in Ht.
  change ((123%N :: x) ++ 125%N :: t1) with (123%N :: (x ++ 125%N :: t1)).
  rewrite strip_json_fence_brace, strip_open_fence_brace.
  change (123%N :: (x ++ 125%N :: t1)) with ((123%N :: x) ++ 125%N :: t1).
  destruct (strip_close_fence_keep (123%N :: x) t1 125%N eq_refl)
    as (t2 & b2 & -> & ->); [discriminate|].
  apply count_char_prefix_zero in Ht.
  unfold match_braces.
  change ((123%N :: x) ++ 125%N :: t2) with (123%N :: (x ++ 125%N :: t2)).
  rewrite from_first_here.
  change (123%N :: (x ++ 125%N :: t2)) with ((123%N :: x) ++ 125%N :: t2).
  rewrite (through_last_app 125%N _ _ Ht).
  change (skip_spaces ((123%N :: x) ++ [125%N]))
    with ((123%N :: x) ++ [125%N]).
  now apply drop_trailing_spaces_last.
Qed.


Lemma count_char_none (f : N -> bool) (c : N) (w : jsstring) :
  forallb f w = true -> f c = false -> count_char c w = 0.
Proof.
  intros Hw Hc. induction w as [|e w IH]; [reflexivity|].
  simpl in Hw. apply andb_true_iff in Hw. destruct Hw as [He Hw].
  rewrite count_char_cons, (IH Hw).
  destruct (N.eqb_spec c e); [congruence|reflexivity].
Qed.

Lemma count_head (w1 w2 : jsstring) (c : N) :
  forallb is_ws w1 = true -> forallb is_ws w2 = true -> is_ws c = false ->
  count_char c (schedule_head w1 w2)
  = count_char c (lit "{" ++ q_schedule ++ lit ":" ++ lit "[").
Proof.
  intros H1 H2 Hc. unfold schedule_head. rewrite !count_char_app.
  rewrite (count_char_none is_ws c w1 H1 Hc).
  rewrite (count_char_none is_ws c w2 H2 Hc). lia.
Qed.

Lemma has_schedule_array_found (a w s : jsstring) :
  forallb is_space w = true ->
  has_schedule_array (a ++ (q_schedule ++ lit ":") ++ w ++ 91%N :: s) = true.
Proof.
  intros Hw. induction a as [|c a IH].
  - cbn [app].
    assert (H : match strip_prefix (q_schedule ++ lit ":")
                        ((q_schedule ++ lit ":") ++ w ++ 91%N :: s) with
                | Some rest => starts_with (lit "[") (skip_spaces rest)
                | None => false
                end = true).
    { rewrite strip_prefix_app. rewrite skip_spaces_to by (exact Hw || reflexivity).
      reflexivity. }
    destruct ((q_schedule ++ lit ":") ++ w ++ 91%N :: s) eqn:E;
      cbn [has_schedule_array]; now rewrite H.
  - change ((c :: a) ++ (q_schedule ++ lit ":") ++ w ++ 91%N :: s)
      with (c :: (a ++ (q_schedule ++ lit ":") ++ w ++ 91%N :: s)).
    cbn [has_schedule_array]. rewrite IH. apply orb_true_r.
Qed.

Lemma match_schedule_head (w1 w2 body : jsstring) :
  forallb is_ws w1 = true -> forallb is_ws w2 = true ->
  match_schedule (schedule_head w1 w2 ++ body)
  = Some (schedule_head w1 w2 ++ body).
Proof.
  intros H1 H2. unfold match_schedule, schedule_head.
  change ((lit "{" ++ w1 ++ q_schedule ++ lit ":" ++ w2 ++ lit "[") ++ body)
    with (123%N :: ((w1 ++ q_schedule ++ lit ":" ++ w2 ++ lit "[") ++ body)).
  rewrite from_first_here.
  replace ((w1 ++ q_schedule ++ lit ":" ++ w2 ++ lit "[") ++ body)
    with (w1 ++ (q_schedule ++ lit ":") ++ w2 ++ 91%N :: body)
    by (unfold lit; simpl; repeat (rewrite <- app_assoc; simpl); reflexivity).
  rewrite has_schedule_array_found; [reflexivity|].
  now apply all_ws_all_space.
Qed.

Lemma includes_schedule_head (w1 w2 body : jsstring) :
  includes q_schedule (schedule_head w1 w2 ++ body) = true.
Proof.
  apply includes_true_iff. unfold schedule_head.
  exists (lit "{" ++ w1), (lit ":" ++ w2 ++ lit "[" ++ body).
  now rewrite <- !app_assoc.
Qed.

Lemma includes_snoc (p s : jsstring) (e c : N) :
  e <> c ->
  includes (p ++ [e]) s = false -> includes (p ++ [e]) (s ++ [c]) = false.
Proof.
  intros Hne H. destruct (includes (p ++ [e]) (s ++ [c])) eqn:E;
    [|reflexivity].
  apply (includes_skip_right (fun x => (x =? c)%N)) in E.
  - congruence.
  - now apply N.eqb_neq.
  - simpl. now rewrite N.eqb_refl.
Qed.

(** The repair of a cleaned text that opens the schedule array and whose
    brackets and braces are balanced after that. *)
Lemma repairTruncated_balanced (w1 w2 body sc : jsstring) :
  forallb is_ws w1 = true -> forallb is_ws w2 = true ->
  balanced body ->
  includes q_summary (schedule_head w1 w2 ++ body) = false ->
  strip_trailing_comma (schedule_head w1 w2 ++ body) = sc ->
  includes q_summary sc = false ->
  repairTruncated (schedule_head w1 w2 ++ body)
  = sc ++ [93%N] ++ summary_field ++ [125%N].
Proof.
  intros H1 H2 [Hb1 Hb2] Hsum Hsc Hsum'. unfold repairTruncated.
  rewrite includes_schedule_head, Hsum. cbn [negb andb].
  rewrite (match_schedule_head w1 w2 body H1 H2), Hsc.
  rewrite !count_char_app.
  rewrite !(count_head w1 w2) by (assumption || reflexivity).
  rewrite <- Hb1, <- Hb2. unfold close_missing.
  replace (count_char 91 (lit "{" ++ q_schedule ++ lit ":" ++ lit "[")
           + count_char 91 body
           - (count_char 93 (lit "{" ++ q_schedule ++ lit ":" ++ lit "[")
              + count_char 91 body)) with 1
    by (change (count_char 91 (lit "{" ++ q_schedule ++ lit ":" ++ lit "["))
          with 1;
        change (count_char 93 (lit "{" ++ q_schedule ++ lit ":" ++ lit "["))
          with 0; lia).
  replace (count_char 123 (lit "{" ++ q_schedule ++ lit ":" ++ lit "[")
           + count_char 123 body
           - (count_char 125 (lit "{" ++ q_schedule ++ lit ":" ++ lit "[")
              + count_char 123 body)) with 1
    by (change (count_char 123 (lit "{" ++ q_schedule ++ lit ":" ++ lit "["))
          with 1;
        change (count_char 125 (lit "{" ++ q_schedule ++ lit ":" ++ lit "["))
          with 0; lia).
  change (repeat 93%N 1) with [93%N]. change (repeat 125%N 1) with [125%N].
  assert (Hs : includes q_summary (sc ++ [93%N]) = false)
    by (apply (includes_snoc (34%N :: lit "summary") sc 34 93);
        [discriminate|exact Hsum']).
  rewrite Hs. cbn [negb]. now rewrite <- !app_assoc.
Qed.


Lemma balanced_app (a b : jsstring) :
  balanced a -> balanced b -> balanced (a ++ b).
Proof.
  intros [A1 A2] [B1 B2]. unfold balanced. rewrite !count_char_app. lia.
Qed.

Lemma balanced_join (items : list jsstring) :
  Forall balanced items -> balanced (join (lit ",") items).
Proof.
  induction 1 as [|item items Hi Hrest IH]; [now split|].
  destruct items as [|item2 items]; [exact Hi|].
  change (join (lit ",") (item :: item2 :: items))
    with (item ++ lit "," ++ join (lit ",") (item2 :: items)).
  apply balanced_app; [exact Hi|]. apply balanced_app; [now split|exact IH].
Qed.

Lemma balanced_without_ws (a w : jsstring) :
  forallb is_ws w = true -> balanced (a ++ w) -> balanced a.
Proof.
  intros Hw [B1 B2]. unfold balanced. rewrite !count_char_app in B1, B2.
  rewrite !(count_char_none is_ws _ w Hw) in B1 by reflexivity.
  rewrite !(count_char_none is_ws _ w Hw) in B2 by reflexivity. lia.
Qed.

(** A text that ends an object ends, white space apart, with a closing
    brace. *)
Lemma object_end_shape (st : state) (body : jsstring) (K' : list frame)
  (ps : list (jsstring * JSON)) :
  snd st = MValue ->
  steps st body = Some (K', MAfter (JObject ps)) ->
  exists u wr,
    body = u ++ [125%N] ++ wr /\ forallb is_ws wr = true /\
    steps st (u ++ [125%N]) = Some (K', MAfter (JObject ps)).
Proof.
  intros Hst H.
  destruct (rstrip_spec is_ws body) as (core & wr & -> & Hwr & Hcore).
  apply steps_ws_object in H; [|exact Hwr].
  destruct Hcore as [->|(x & e & -> & He)].
  - cbn [steps] in H. inversion H; subst. discriminate.
  - assert (He' : e = 125%N).
    { rewrite steps_app in H.
      destruct (steps st x) as [[K1 m1]|]; [|discriminate].
      cbn [steps] in H.
      destruct (step (K1, m1) e) as [st2|] eqn:E; [|discriminate].
      inversion H; subst.
      destruct (step_object_brace _ _ _ _ _ E) as [Hw|Hw]; congruence. }
    subst e. exists x, wr. rewrite <- app_assoc. auto.
Qed.

Lemma strip_trailing_comma_other (s : jsstring) (e : N) :
  is_space e = false -> e <> 44%N ->
  strip_trailing_comma (s ++ [e]) = s ++ [e].
Proof.
  intros Hs He. unfold strip_trailing_comma.
  rewrite drop_trailing_spaces_last by exact Hs.
  change (lit ",") with ([] ++ [44%N]).
  now rewrite (strip_suffix_last 44 e [] s) by congruence.
Qed.

Lemma strip_trailing_comma_comma (s : jsstring) :
  strip_trailing_comma (s ++ lit ",") = s.
Proof.
  unfold strip_trailing_comma. change (lit ",") with [44%N].
  rewrite (drop_trailing_spaces_last s 44) by reflexivity.
  now rewrite strip_suffix_app.
Qed.

(** The cleaning of a text that starts with an opening brace and has no
    closing brace: the text without the white space at its end. *)
Lemma cleanContent_open (x w : jsstring) (e : N) :
  count_char 125 (x ++ [e]) = 0 -> is_space e = false -> e <> 96%N ->
  forallb is_space w = true ->
  cleanContent (123%N :: (x ++ [e]) ++ w) = 123%N :: x ++ [e].
Proof.
  intros Hc He He' Hw. unfold cleanContent.
  replace (123%N :: (x ++ [e]) ++ w) with ([] ++ (123%N :: x ++ [e]) ++ w)
    by reflexivity.
  rewrite trim_core by (assumption || reflexivity).
  rewrite strip_json_fence_brace, strip_open_fence_brace.
  unfold strip_close_fence.
  change fence with ([96; 96]%N ++ [96%N]).
  change (123%N :: x ++ [e]) with ((123%N :: x) ++ [e]).
  rewrite strip_suffix_last by congruence.
  unfold match_braces.
  change ((123%N :: x) ++ [e]) with (123%N :: x ++ [e]).
  rewrite from_first_here.
  rewrite through_last_None
    by (rewrite count_char_cons; now rewrite Hc).
  now apply trim_core_id.
Qed.


Lemma schedule_head_cons (w1 w2 : jsstring) :
  schedule_head w1 w2
  = 123%N :: (w1 ++ q_schedule ++ lit ":" ++ w2) ++ [91%N].
Proof.
  unfold schedule_head. change (lit "{") with [123%N].
  change (lit "[") with [91%N]. cbn [app]. f_equal.
  now rewrite <- !app_assoc.
Qed.

Lemma schedule_head_no_brace (w1 w2 : jsstring) :
  forallb is_ws w1 = true -> forallb is_ws w2 = true ->
  count_char 125 (schedule_head w1 w2) = 0.
Proof. intros H1 H2. now rewrite count_head. Qed.

(** A completion cut off after at least one complete item. *)
Lemma repaired_with_items (w1 w2 : jsstring) (items : list jsstring)
  (vals : list JSON) (rest : jsstring) :
  forallb is_ws w1 = true -> forallb is_ws w2 = true ->
  Forall2 complete_item items vals -> Forall balanced items ->
  items <> [] -> count_char 125 rest = 0 ->
  includes q_summary (cleanContent (truncated w1 w2 items rest)) = false ->
  JSON_parse (truncated w1 w2 items rest) = None /\
  JSON_parse (repairTruncated (cleanContent (truncated w1 w2 items rest)))
  = Some (plan_object vals fallback_summary).
Proof.
  intros H1 H2 HF HB Hne Hrest Hsum.
  destruct (items_steps items vals HF Hne)
    as (init & final & -> & Hfo & Hsteps).
  destruct final as [| | | | |ps]; try discriminate.
  specialize (Hsteps [] [FMember [] (lit "schedule")]). cbn [app] in Hsteps.
  set (body := join (lit ",") items) in *.
  set (st0 := ([FArray []; FMember [] (lit "schedule")], MValue)) in *.
  destruct (object_end_shape st0 body _ ps eq_refl Hsteps)
    as (u & wr & Hbody & Hwr & Hu).
  assert (Hstart : steps initial (schedule_head w1 w2 ++ body)
                   = Some ([FArray init; FMember [] (lit "schedule")],
                           MAfter (JObject ps))).
  { rewrite (steps_app_Some _ _ _ _ (head_steps w1 w2 H1 H2)).
    now apply steps_array_start. }
  assert (Hclean : cleanContent (truncated w1 w2 items rest)
                   = schedule_head w1 w2 ++ u ++ [125%N]).
  { unfold truncated. fold body. rewrite Hbody, schedule_head_cons.
    set (hx := (w1 ++ q_schedule ++ lit ":" ++ w2) ++ [91%N]).
    replace ((123%N :: hx) ++ (u ++ [125%N] ++ wr) ++ rest)
      with ((123%N :: hx ++ u) ++ 125%N :: (wr ++ rest))
      by (simpl; repeat (rewrite <- app_assoc; simpl); reflexivity).
    rewrite cleanContent_cut.
    - simpl. now rewrite <- !app_assoc.
    - rewrite count_char_app, Hrest.
      now rewrite (count_char_none is_ws 125 wr Hwr). }
  split.
  - unfold truncated. fold body. rewrite app_assoc.
    now apply (unclosed_object_rejected _ _ _ _ Hstart).
  - rewrite Hclean in *.
    rewrite (repairTruncated_balanced w1 w2 (u ++ [125%N])
               (schedule_head w1 w2 ++ u ++ [125%N])); try assumption.
    + apply state_parse.
      rewrite <- app_assoc.
      rewrite (steps_app_Some _ _ _ _ (head_steps w1 w2 H1 H2)).
      rewrite (steps_app_Some _ _ _ _ (steps_array_start _ _ _ _ Hu)).
      apply closing_steps.
    + apply (balanced_without_ws _ wr Hwr).
      rewrite <- app_assoc, <- Hbody. now apply balanced_join.
    + rewrite !app_assoc. now apply strip_trailing_comma_other.
Qed.

(** A completion cut off before the first item is complete. *)
Lemma repaired_without_items (w1 w2 rest : jsstring) :
  forallb is_ws w1 = true -> forallb is_ws w2 = true ->
  cut_after [] rest ->
  includes q_summary (cleanContent (truncated w1 w2 [] rest)) = false ->
  JSON_parse (truncated w1 w2 [] rest) = None /\
  JSON_parse (repairTruncated (cleanContent (truncated w1 w2 [] rest)))
  = Some (plan_object [] fallback_summary).
Proof.
  intros H1 H2 Hcut Hsum. unfold truncated in *. cbn [join app] in *.
  pose proof (head_steps w1 w2 H1 H2) as Hhead.
  pose proof (schedule_head_no_brace w1 w2 H1 H2) as Hnb.
  destruct Hcut as [Hsp|(w & w' & -> & Hw & Hw')].
  - split.
    + apply (unclosed_object_rejected _ _ _ _ Hhead); [reflexivity|].
      now apply (count_char_none is_space).
    + assert (Hclean : cleanContent (schedule_head w1 w2 ++ rest)
                       = schedule_head w1 w2).
      { rewrite schedule_head_cons.
        change ((123%N :: (w1 ++ q_schedule ++ lit ":" ++ w2) ++ [91%N])
                  ++ rest)
          with (123%N :: ((w1 ++ q_schedule ++ lit ":" ++ w2) ++ [91%N])
                  ++ rest).
        apply cleanContent_open; try assumption; try discriminate;
          try reflexivity.
        rewrite schedule_head_cons, count_char_cons in Hnb. exact Hnb. }
      rewrite Hclean in *.
      replace (schedule_head w1 w2) with (schedule_head w1 w2 ++ []) at 1
        by apply app_nil_r.
      rewrite (repairTruncated_balanced w1 w2 [] (schedule_head w1 w2));
        try assumption.
      * apply state_parse.
        rewrite (steps_app_Some _ _ _ _ Hhead). apply closing_steps_empty.
      * now split.
      * now rewrite app_nil_r.
      * rewrite app_nil_r, schedule_head_cons.
        change (123%N :: (w1 ++ q_schedule ++ lit ":" ++ w2) ++ [91%N])
          with ((123%N :: w1 ++ q_schedule ++ lit ":" ++ w2) ++ [91%N]).
        now apply strip_trailing_comma_other.
  - pose proof (all_ws_all_space w Hw) as Hws.
    split.
    + apply (unclosed_object_rejected _ _ _ _ Hhead); [reflexivity|].
      rewrite !count_char_app.
      rewrite (count_char_none is_space 125 w Hws eq_refl).
      now rewrite (count_char_none is_space 125 w' Hw' eq_refl).
    + assert (Hclean : cleanContent (schedule_head w1 w2 ++ w ++ lit ","
                                       ++ w')
                       = schedule_head w1 w2 ++ w ++ lit ",").
      { rewrite schedule_head_cons.
        set (hx := (w1 ++ q_schedule ++ lit ":" ++ w2) ++ [91%N]) in *.
        replace ((123%N :: hx) ++ w ++ lit "," ++ w')
          with (123%N :: ((hx ++ w) ++ [44%N]) ++ w')
          by (unfold lit; simpl; repeat (rewrite <- app_assoc; simpl);
              reflexivity).
        rewrite cleanContent_open; try assumption; try discriminate;
          try reflexivity.
        - unfold lit; simpl; repeat (rewrite <- app_assoc; simpl).
          reflexivity.
        - rewrite schedule_head_cons, count_char_cons in Hnb. fold hx in Hnb.
          rewrite !count_char_app, (count_char_none is_space 125 w Hws eq_refl).
          simpl in Hnb. rewrite Hnb. reflexivity. }
      rewrite Hclean in *.
      assert (Hsum' : includes q_summary (schedule_head w1 w2 ++ w) = false).
      { eapply includes_infix_false; [|exact Hsum].
        exists [], (lit ","). now rewrite <- app_assoc. }
      rewrite (repairTruncated_balanced w1 w2 (w ++ lit ",")
                 (schedule_head w1 w2 ++ w)); try assumption.
      * apply state_parse.
        rewrite <- app_assoc.
        rewrite (steps_app_Some _ _ _ _ Hhead).
        rewrite (steps_app_Some _ _ _ _
                   (steps_ws_idle _ MArrayStart w eq_refl Hw)).
        apply closing_steps_empty.
      * unfold balanced. rewrite !count_char_app.
        rewrite !(count_char_none is_ws _ w Hw) by reflexivity.
        now split.
      * rewrite app_assoc. apply strip_trailing_comma_comma.
Qed.














End TruncationFacts.

(** ** The prompt *)

Section PromptFacts.

Import JS Prompt.
Context {rt : Runtime}.

(** Induction on a value through the elements of its arrays. *)
Lemma JSON_array_ind (P : JSON -> Prop) :
  P JNull -> (forall b, P (JBool b)) -> (forall tok, P (JNumber tok)) ->
  (forall s, P (JString s)) ->
  (forall elems, Forall P elems -> P (JArray elems)) ->
  (forall props, P (JObject props)) ->
  forall v, P v.
Proof.
  intros H1 H2 H3 H4 H5 H6. fix IH 1.
  intros [|b|tok|s|elems|props];
    [exact H1|apply H2|apply H3|apply H4| |apply H6].
  apply H5. revert elems. fix IHl 1.
  intros [|x l]; constructor; [apply IH|apply IHl].
Qed.

(** The one error of the conversion to text is the TypeError. *)
Lemma toString_thrown (message : jsstring) (v : JSON) (e : jsstring) :
  toString message v = Thrown e -> e = message.
Proof.
  revert e. induction v as [|b|tok|s|elems IH|props] using JSON_array_ind;
    intros e; cbn [toString]; try discriminate.
  - destruct b; discriminate.
  - match goal with
    | |- match ?l with _ => _ end = _ -> _ =>
        assert (Hl : forall r, l = Thrown r -> r = message)
    end.
    { induction IH as [|x l Hx _ IHl]; intros r; [discriminate|].
      destruct (match x with JNull => Returned [] | _ => toString message x end)
        as [sx|ex] eqn:Ex.
      - match goal with
        | |- match ?l' with _ => _ end = _ -> _ =>
            destruct l' as [rs|el] eqn:El
        end; [discriminate|].
        intros H; inversion H; subst. now apply IHl.
      - intros H; inversion H; subst.
        destruct x; try discriminate; now apply Hx. }
    match goal with
    | |- match ?l with _ => _ end = _ -> _ => destruct l as [parts|r] eqn:E
    end; [discriminate|].
    intros H; inversion H; subst. now apply Hl.
  - destruct (Json.get_prop (lit "toString") props); [|discriminate].
    intros H; now inversion H.
Qed.

Lemma value_or_thrown (v : option JSON) (fallback : string) (e : jsstring) :
  value_or v fallback = Thrown e -> e = primitive_TypeError.
Proof.
  unfold value_or. destruct v as [x|]; [|discriminate].
  destruct (truthy (Some x)); [|discriminate]. apply toString_thrown.
Qed.

(** Given a task, [buildPrompt] throws nothing but the TypeError. *)
Lemma buildPrompt_thrown (prefs : option Preferences) (t : Task)
      (ts : list Task) (weather : JSON) (e : jsstring) :
  buildPrompt prefs (Some (t :: ts)) weather = Thrown e ->
  e = primitive_TypeError.
Proof.
  unfold buildPrompt.
  destruct (weatherDesc weather) as [desc|e1] eqn:D.
  - destruct (weatherTemp weather) as [temp|e2] eqn:T; [discriminate|].
    intros H; inversion H; subst. exact (value_or_thrown _ _ _ T).
  - intros H; inversion H; subst. exact (value_or_thrown _ _ _ D).
Qed.

(** C7, as the code has it. [buildPrompt] throws when it is given no task.
    Given at least one, and a weather whose description and temperature
    convert to text, it returns a prompt that holds, between two line ends,
    one line per task in the order of the input, each line as the design
    document words it. When one of the two conversions throws, so does
    [buildPrompt], and the error is the TypeError of the conversion. *)
Theorem buildPrompt_lists_tasks (prefs : option Preferences) (weather : JSON) :
  buildPrompt prefs None weather
    = Thrown (lit "No tasks provided for planning")
  /\ buildPrompt prefs (Some []) weather
    = Thrown (lit "No tasks provided for planning")
  /\ (forall t ts desc temp,
        weatherDesc weather = Returned desc ->
        weatherTemp weather = Returned temp ->
        exists head tail,
          buildPrompt prefs (Some (t :: ts)) weather
          = Returned (head ++ [10%N]
                      ++ join [10%N] (Rendering.lines (t :: ts))
                      ++ [10%N] ++ tail))
  /\ (forall t ts message,
        weatherDesc weather = Thrown message
        \/ (exists desc, weatherDesc weather = Returned desc)
           /\ weatherTemp weather = Thrown message ->
        buildPrompt prefs (Some (t :: ts)) weather = Thrown message
        /\ message = primitive_TypeError).
Proof.
  split; [reflexivity|]. split; [reflexivity|]. split.
  - intros t ts desc temp Hd Ht. unfold buildPrompt. rewrite Hd, Ht.
    exists (removelast (promptHead prefs desc temp)).
    exists (tl (promptTail prefs)).
    f_equal.
    assert (Hl : taskLines (t :: ts)
                 = join [10%N] (Rendering.lines (t :: ts))).
    { unfold taskLines, Rendering.lines, newline. f_equal.
      apply map_ext. intros x. unfold taskLine, Rendering.line.
      assert (Hs : forall v fallback,
                 string_or v fallback = Rendering.text_or v fallback)
        by (intros [[|c s]|] fallback; reflexivity).
      rewrite !Hs. reflexivity. }
    rewrite Hl. unfold promptHead, promptTail, newline.
    rewrite !app_assoc. rewrite removelast_last.
    cbn [tl app]. rewrite <- !app_assoc. reflexivity.
  - intros t ts message H. unfold buildPrompt.
    destruct H as [Hd|[[desc Hd] Ht]].
    + rewrite Hd. split; [reflexivity|]. exact (value_or_thrown _ _ _ Hd).
    + rewrite Hd, Ht. split; [reflexivity|]. exact (value_or_thrown _ _ _ Ht).
Qed.

End PromptFacts.

(** ** The plan handler *)

Section HandlerFacts.

Import JS Handler.
Context {rt : Runtime}.
Variable w : World.

Lemma getUserId_calls (authorization : option jsstring) :
  existsb Trace.is_external (fst (getUserId w authorization)) = false.
Proof.
  unfold getUserId, try_catch, bind, await, throw, ret.
  destruct (strip_prefix (lit "Bearer ")
              match authorization with Some h => h | None => [] end)
    as [[|c token]|]; try reflexivity.
  destruct (verifyToken w (c :: token)) as [[[|d sub]|]|e]; reflexivity.
Qed.



End HandlerFacts.

(** ** The properties at sample inputs *)

Section Samples.

Import JS Repair Truncation.
#[local] Existing Instance Sample.runtime.



Lemma no_schedule_content_is_unrecoverable_witness :
  parseAIResponse (lit "Sorry, I cannot help with that.")
  = Thrown (lit "Cannot extract valid JSON from AI response: Sorry, I cannot help with that....").
Proof.
  apply (no_schedule_content_is_unrecoverable
           (lit "Sorry, I cannot help with that."));
    vm_compute; reflexivity.
Defined.

(** C3 fails on the code: a completion without the word schedule that is
    valid JSON is returned, not refused. *)
Lemma no_schedule_content_counterexample :
  includes q_schedule (lit "{}") = false
  /\ parseAIResponse (lit "{}") = Returned (JObject []).
Proof. split; vm_compute; reflexivity. Qed.

Lemma valid_completion_returned_unchanged_witness :
  parseAIResponse Sample.plain_summary
  = Returned (plan_object [] (lit "x")).
Proof.
  apply (valid_completion_returned_unchanged Sample.plain_summary);
    vm_compute; reflexivity.
Defined.

Lemma fenced_completion_same_value_witness :
  parseAIResponse
    ([] ++ (fence ++ lit "json" ++ [10%N] ++ Sample.plain_summary ++ [10%N]
               ++ fence) ++ [])
  = parseAIResponse Sample.plain_summary.
Proof.
  apply (fenced_completion_same_value Sample.plain_summary (lit "json")
           [10%N] [10%N] [] [] (plan_object [] (lit "x"))).
  1-2, 4-7: vm_compute; reflexivity.
  - right. vm_compute; reflexivity.
  - intros _. vm_compute; reflexivity.
Defined.

(** C5 fails on the code: an object of the schema whose summary key is
    written with an escape. Bare it is returned as parsed; between fences it
    is taken for a cut-off completion and comes back with the fixed
    summary. *)
Lemma fenced_completion_counterexample :
  JSON_parse Sample.escaped_summary = Some (plan_object [] (lit "x"))
  /\ Schema.matches (plan_object [] (lit "x")) = true
  /\ parseAIResponse Sample.escaped_summary
     = Returned (plan_object [] (lit "x"))
  /\ parseAIResponse
       (fence ++ lit "json" ++ [10%N] ++ Sample.escaped_summary ++ [10%N]
          ++ fence)
     = Returned (plan_object [] fallback_summary)
  /\ JS.eqb (lit "x") fallback_summary = false.
Proof. repeat split; vm_compute; reflexivity. Qed.

Lemma direct_parse_is_not_validated_witness :
  parseAIResponse (lit "[1, 2]")
  = Returned (JArray [JNumber (lit "1"); JNumber (lit "2")]).
Proof.
  apply (direct_parse_is_not_validated (lit "[1, 2]")).
  vm_compute; reflexivity.
Defined.

Lemma buildPrompt_lists_tasks_witness :
  exists head tail,
    buildPrompt (Some Sample.prefs1) (Some [Sample.task1; Sample.task2])
      Handler.unknownWeather
    = Returned (head ++ [10%N]
                ++ lit "Write report" ++ [32; 8211; 32]%N ++ lit "45m"
                ++ [32; 8211; 32]%N ++ lit "high"
                ++ [10%N]
                ++ lit "Untitled" ++ [32; 8211; 32]%N ++ lit "30m"
                ++ [32; 8211; 32]%N ++ lit "medium"
                ++ [10%N] ++ tail).
Proof.
  destruct (buildPrompt_lists_tasks (Some Sample.prefs1)
              Handler.unknownWeather) as (_ & _ & H & _).
  destruct (H Sample.task1 [Sample.task2] (lit "unknown") (lit "20"))
    as (head & tail & E); try reflexivity.
  exists head, tail. rewrite E. reflexivity.
Defined.

(** C7 fails on the code: one task and a weather answer whose description
    is an object with a member named toString. The conversion of the
    description to text throws, and no prompt is produced. *)
Lemma buildPrompt_counterexample :
  buildPrompt (Some Sample.prefs1) (Some [Sample.task1]) Sample.hiding_weather
  = Thrown (lit "Cannot convert object to primitive value").
Proof. vm_compute; reflexivity. Qed.



End Samples.

(** ** Objects inside prose *)

Section EmbeddedFacts.

Import JS Repair.

Lemma app_prefix_split (c : N) (a A r Y : jsstring) :
  count_char c a = 0 -> count_char c A = 0 ->
  A ++ c :: Y = a ++ r ->
  exists A', A = a ++ A' /\ r = A' ++ c :: Y.
Proof.
  revert A. induction a as [|x a IH]; intros A Ha HA H.
  - exists A. now split.
  - rewrite count_char_cons in Ha.
    destruct (N.eqb_spec c x) as [->|Hx]; [discriminate|].
    destruct A as [|y A].
    + simpl in H. inversion H. congruence.
    + simpl in H. inversion H; subst y.
      rewrite count_char_cons in HA.
      destruct (N.eqb_spec c x); [discriminate|].
      destruct (IH A Ha HA H2) as (A' & -> & ->). now exists A'.
Qed.

Lemma skip_spaces_keep (A Y : jsstring) :
  count_char 123 A = 0 ->
  exists A', skip_spaces (A ++ 123%N :: Y) = A' ++ 123%N :: Y
             /\ count_char 123 A' = 0.
Proof.
  intros HA. unfold skip_spaces.
  destruct (dropWhile_suffix is_space (A ++ 123%N :: Y)) as (a & H & Ha).
  destruct (app_prefix_split 123 a A
              (dropWhile is_space (A ++ 123%N :: Y)) Y) as (A' & -> & Hr);
    [now apply (count_char_none is_space)|exact HA|exact H|].
  exists A'. split; [exact Hr|].
  rewrite count_char_app in HA. lia.
Qed.

Lemma strip_prefix_ci_keep (p s r : jsstring) (c : N) :
  forallb (fun x => negb (canonicalize x =? canonicalize c)%N) p = true ->
  strip_prefix_ci p s = Some r ->
  exists a, s = a ++ r /\ count_char c a = 0.
Proof.
  revert s. induction p as [|x p IH]; intros s Hp H; simpl in *.
  - inversion H. now exists [].
  - destruct s as [|y s]; [discriminate|].
    apply andb_true_iff in Hp. destruct Hp as [Hx Hp].
    destruct (N.eqb_spec (canonicalize x) (canonicalize y)) as [E|];
      [|discriminate].
    destruct (IH s Hp H) as (a & -> & Ha). exists (y :: a).
    split; [reflexivity|]. rewrite count_char_cons, Ha.
    destruct (N.eqb_spec c y) as [->|]; [|reflexivity].
    rewrite E, N.eqb_refl in Hx. discriminate.
Qed.

Lemma strip_json_fence_keep (A Y : jsstring) :
  count_char 123 A = 0 ->
  exists A', strip_json_fence (A ++ 123%N :: Y) = A' ++ 123%N :: Y
             /\ count_char 123 A' = 0.
Proof.
  intros HA. unfold strip_json_fence.
  destruct (strip_prefix_ci (lit "```json") (A ++ 123%N :: Y)) as [r|] eqn:E.
  - destruct (strip_prefix_ci_keep (lit "```json") _ _ 123 eq_refl E)
      as (a & H & Ha).
    destruct (app_prefix_split 123 a A r Y Ha HA H) as (A' & -> & ->).
    apply skip_spaces_keep. rewrite count_char_app in HA. lia.
  - now exists A.
Qed.

Lemma strip_open_fence_keep (A Y : jsstring) :
  count_char 123 A = 0 ->
  exists A', strip_open_fence (A ++ 123%N :: Y) = A' ++ 123%N :: Y
             /\ count_char 123 A' = 0.
Proof.
  intros HA. unfold strip_open_fence.
  destruct (strip_prefix fence (A ++ 123%N :: Y)) as [r|] eqn:E.
  - apply strip_prefix_Some in E.
    destruct (app_prefix_split 123 fence A r Y eq_refl HA E) as (A' & -> & ->).
    apply skip_spaces_keep. rewrite count_char_app in HA. lia.
  - now exists A.
Qed.

Lemma from_first_app (c : N) (A Y : jsstring) :
  count_char c A = 0 -> from_first c (A ++ c :: Y) = Some (c :: Y).
Proof.
  induction A as [|x A IH]; intros HA.
  - apply from_first_here.
  - rewrite count_char_cons in HA. cbn [app from_first].
    destruct (N.eqb_spec c x) as [->|Hx]; [discriminate|].
    destruct (N.eqb_spec x c); [congruence|]. auto.
Qed.

(** The cleaning of a text that holds an object between a part without an
    opening brace and a part without a closing brace: the object. *)
Lemma cleanContent_embedded (A B mid : jsstring) :
  count_char 123 A = 0 -> count_char 125 B = 0 ->
  cleanContent (A ++ (123%N :: mid ++ [125%N]) ++ B)
  = 123%N :: mid ++ [125%N].
Proof.
  intros HA HB. unfold cleanContent, trim.
  replace (A ++ (123%N :: mid ++ [125%N]) ++ B)
    with (A ++ 123%N :: (mid ++ 125%N :: B))
    by (simpl; now rewrite <- app_assoc).
  destruct (skip_spaces_keep A (mid ++ 125%N :: B) HA) as (A1 & -> & HA1).
  replace (A1 ++ 123%N :: mid ++ 125%N :: B)
    with ((A1 ++ 123%N :: mid) ++ 125%N :: B)
    by (now rewrite <- app_assoc).
  destruct (drop_trailing_spaces_keep (A1 ++ 123%N :: mid) B 125%N eq_refl)
    as (B1 & b1 & -> & ->).
  apply count_char_prefix_zero in HB.
  replace ((A1 ++ 123%N :: mid) ++ 125%N :: B1)
    with (A1 ++ 123%N :: (mid ++ 125%N :: B1))
    by (now rewrite <- app_assoc).
  destruct (strip_json_fence_keep A1 (mid ++ 125%N :: B1) HA1)
    as (A2 & -> & HA2).
  destruct (strip_open_fence_keep A2 (mid ++ 125%N :: B1) HA2)
    as (A3 & -> & HA3).
  replace (A3 ++ 123%N :: mid ++ 125%N :: B1)
    with ((A3 ++ 123%N :: mid) ++ 125%N :: B1)
    by (now rewrite <- app_assoc).
  destruct (strip_close_fence_keep (A3 ++ 123%N :: mid) B1 125%N eq_refl)
    as (B2 & b2 & -> & ->); [discriminate|].
  apply count_char_prefix_zero in HB.
  unfold match_braces.
  replace ((A3 ++ 123%N :: mid) ++ 125%N :: B2)
    with (A3 ++ 123%N :: (mid ++ 125%N :: B2))
    by (now rewrite <- app_assoc).
  rewrite (from_first_app 123 A3 _ HA3).
  change (123%N :: mid ++ 125%N :: B2) with ((123%N :: mid) ++ 125%N :: B2).
  rewrite (through_last_app 125%N _ _ HB).
  change (skip_spaces ((123%N :: mid) ++ [125%N]))
    with ((123%N :: mid) ++ [125%N]).
  now apply drop_trailing_spaces_last.
Qed.

(** X1. A completion that does not parse as it is and that holds the text of
    an object between a part without an opening brace and a part without a
    closing brace (prose, markdown fences) gives the value of that object,
    provided the object text holds the quoted word summary whenever it holds
    the quoted word schedule. *)
Theorem embedded_object_is_extracted (before text after : jsstring)
  (v : JSON) :
  JSON_parse text = Some v ->
  Schema.is_object v = true ->
  count_char 123 before = 0 ->
  count_char 125 after = 0 ->
  JSON_parse (before ++ text ++ after) = None ->
  (includes q_schedule text = true -> includes q_summary text = true) ->
  parseAIResponse (before ++ text ++ after) = Returned v.
Proof.
  intros Hp Ho Hb Ha Hraw Hsum.
  destruct v as [| | | | |ps]; try discriminate. clear Ho.
  destruct (object_text_shape text ps Hp)
    as (wl & mid & wr & -> & Hwl & Hwr & Hcore).
  set (core := (123%N :: mid ++ [125%N])) in *.
  assert (Hclean : cleanContent (before ++ (wl ++ core ++ wr) ++ after)
                   = core).
  { replace (before ++ (wl ++ core ++ wr) ++ after)
      with ((before ++ wl) ++ core ++ (wr ++ after))
      by (now rewrite <- !app_assoc).
    apply cleanContent_embedded.
    - rewrite count_char_app, Hb.
      now rewrite (count_char_none Json.is_ws 123 wl Hwl).
    - rewrite count_char_app, Ha.
      now rewrite (count_char_none Json.is_ws 125 wr Hwr). }
  assert (Hrep : repairTruncated core = core).
  { destruct (includes q_schedule core) eqn:Hs;
      [|now apply repairTruncated_no_schedule].
    apply repairTruncated_with_summary.
    assert (Hi : JS.infix core (wl ++ core ++ wr)) by (now exists wl, wr).
    pose proof (Hsum (includes_infix _ _ _ Hi Hs)) as Hq.
    apply (includes_skip_left Json.is_ws) in Hq; [|reflexivity|exact Hwl].
    apply (includes_skip_right Json.is_ws 34%N (34%N :: lit "summary"))
      in Hq; [exact Hq|reflexivity|exact Hwr]. }
  unfold parseAIResponse, parseAIResponse_try.
  rewrite Hraw, Hclean, Hrep.
  now rewrite (state_parse core (JObject ps) Hcore).
Qed.

End EmbeddedFacts.

(** ** What the field scraping returns *)

Section ScrapeFacts.

Import JS Repair Scrape.

(** The first quoted run of a text that starts with a quoted word is that
    word. *)
Lemma first_quoted_leading (word rest : jsstring) :
  word <> [] -> count_char dquote word = 0 ->
  first_quoted (dquote :: word ++ dquote :: rest) = Some word.
Proof.
  intros Hne Hq. cbn [first_quoted]. rewrite N.eqb_refl.
  rewrite (from_first_app dquote word rest Hq).
  replace (length (word ++ dquote :: rest) - length (dquote :: rest))
    with (length word) by (rewrite length_app; simpl; lia).
  destruct word as [|c word]; [congruence|]. cbn [length Nat.eqb].
  change (S (length word)) with (length (c :: word)).
  rewrite <- (Nat.add_0_r (length (c :: word))).
  rewrite firstn_app_2. cbn [firstn]. now rewrite app_nil_r.
Qed.

Lemma match_field_here_shape (key : string) (s m : jsstring) :
  match_field_here key s = Some m -> exists rest, m = quoted key ++ rest.
Proof.
  unfold match_field_here.
  destruct (strip_prefix (quoted key ++ lit ":") s) as [r|] eqn:E;
    [|discriminate].
  apply strip_prefix_Some in E. subst s.
  destruct (skip_spaces r) as [|q after]; [discriminate|].
  destruct (q =? dquote)%N; [|discriminate].
  destruct (from_first dquote after) as [closing|]; [|discriminate].
  destruct (length after - length closing =? 0); [discriminate|].
  intros H; inversion H; clear H.
  rewrite <- app_assoc, <- !Nat.add_assoc, firstn_app_2.
  eexists. reflexivity.
Qed.

Lemma match_field_from_in (key : string) (s : jsstring) (skip : nat)
  (m : jsstring) :
  In m (match_field_from key skip s) ->
  exists t, match_field_here key t = Some m.
Proof.
  revert skip. induction s as [|c s IH]; intros skip H; [contradiction|].
  cbn [match_field_from] in H. destruct skip as [|k].
  - destruct (match_field_here key (c :: s)) as [m'|] eqn:E.
    + destruct H as [->|H]; [now exists (c :: s)|eauto].
    + eauto.
  - eauto.
Qed.

Lemma capture_of_match (key fallback : string) (s m : jsstring) :
  plain_key key ->
  In m (match_field key s) -> capture_or fallback m = lit key.
Proof.
  intros [Hne Hq] Hin.
  destruct (match_field_from_in key s 0 m Hin) as (t & Ht).
  destruct (match_field_here_shape key t m Ht) as (rest & ->).
  unfold capture_or, quoted.
  replace ((dquote :: lit key ++ [dquote]) ++ rest)
    with (dquote :: lit key ++ dquote :: rest)
    by (simpl; now rewrite <- app_assoc).
  rewrite (first_quoted_leading (lit key) rest Hne Hq).
  destruct (lit key); [congruence|reflexivity].
Qed.

Lemma scrape_items_keys (tm am dm ty : list jsstring) (n i : nat) :
  (forall m, In m tm -> capture_or "09:00" m = lit "time") ->
  (forall m, In m am -> capture_or "Task" m = lit "activity") ->
  (forall m, In m dm -> capture_or "30" m = lit "duration") ->
  (forall m, In m ty -> capture_or "task" m = lit "type") ->
  i + n <= length tm -> i + n <= length am ->
  i + n <= length dm -> i + n <= length ty ->
  scrape_items tm am dm ty i n = repeat key_item n.
Proof.
  intros H1 H2 H3 H4. revert i.
  induction n as [|n IH]; intros i L1 L2 L3 L4; [reflexivity|].
  cbn [scrape_items repeat].
  rewrite H1 by (apply nth_In; lia). rewrite H2 by (apply nth_In; lia).
  rewrite H3 by (apply nth_In; lia). rewrite H4 by (apply nth_In; lia).
  rewrite IH by lia. reflexivity.
Qed.

Lemma repeat_key_item_matches (n : nat) (summary : jsstring) :
  Schema.matches (plan_object (repeat key_item n) summary) = true.
Proof.
  unfold Schema.matches, plan_object.
  change (Json.get_prop (lit "schedule")
            [(lit "schedule", JArray (repeat key_item n));
             (lit "summary", JString summary)])
    with (Some (JArray (repeat key_item n))).
  change (Json.get_prop (lit "summary")
            [(lit "schedule", JArray (repeat key_item n));
             (lit "summary", JString summary)])
    with (Some (JString summary)).
  cbn [Schema.is_string]. rewrite andb_true_r.
  induction n as [|n IH]; [reflexivity|]. cbn [repeat forallb].
  now rewrite IH.
Qed.

(** X2. Whatever the text, every item the field-scraping stage builds has
    the names of the four keys as its values (time, activity, duration,
    type): the capture reads the first quoted run of a match, which is the
    key. The result has the shape the prompt asks for. *)
Theorem scraped_fields_are_key_names (cleaned : jsstring) :
  exists n,
    scrapeSchedule cleaned
    = plan_object
        (repeat (schedule_item (lit "time") (lit "activity") (lit "duration")
                   (lit "type")) n)
        fallback_summary
    /\ n <= length (match_field "time" cleaned)
    /\ Schema.matches (scrapeSchedule cleaned) = true.
Proof.
  unfold scrapeSchedule.
  set (tm := match_field "time" cleaned).
  set (am := match_field "activity" cleaned).
  set (dm := match_field "duration" cleaned).
  set (ty := match_field "type" cleaned).
  destruct (negb (is_null tm) && negb (is_null am) && negb (is_null dm)
            && negb (is_null ty)).
  - exists (Nat.min (length tm) (Nat.min (length am)
              (Nat.min (length dm) (length ty)))).
    rewrite (scrape_items_keys tm am dm ty); try lia.
    + split; [reflexivity|]. split; [lia|]. apply repeat_key_item_matches.
    + intros m. apply capture_of_match. split; [discriminate|reflexivity].
    + intros m. apply capture_of_match. split; [discriminate|reflexivity].
    + intros m. apply capture_of_match. split; [discriminate|reflexivity].
    + intros m. apply capture_of_match. split; [discriminate|reflexivity].
  - exists 0. split; [reflexivity|]. split; [lia|reflexivity].
Qed.

(** The scraped plan: as many copies of the item of key names as the
    shortest of the four lists of matches is long. *)
Lemma scrapeSchedule_keys (cleaned : jsstring) :
  scrapeSchedule cleaned
  = plan_object
      (repeat key_item
         (Nat.min (length (match_field "time" cleaned))
            (Nat.min (length (match_field "activity" cleaned))
               (Nat.min (length (match_field "duration" cleaned))
                  (length (match_field "type" cleaned))))))
      fallback_summary.
Proof.
  unfold scrapeSchedule.
  set (tm := match_field "time" cleaned).
  set (am := match_field "activity" cleaned).
  set (dm := match_field "duration" cleaned).
  set (ty := match_field "type" cleaned).
  destruct (negb (is_null tm) && negb (is_null am) && negb (is_null dm)
            && negb (is_null ty)) eqn:E.
  - rewrite (scrape_items_keys tm am dm ty); try lia; try reflexivity;
      intros m; apply capture_of_match; (split; [discriminate|reflexivity]).
  - replace (Nat.min (length tm) (Nat.min (length am)
               (Nat.min (length dm) (length ty)))) with 0; [reflexivity|].
    destruct tm; [reflexivity|]. destruct am; [simpl; lia|].
    destruct dm; [simpl; lia|]. destruct ty; [simpl; lia|]. discriminate.
Qed.

(** C2, as the code has it. When the completion parses neither as it is nor
    after cleaning and repair, and the cleaned and repaired text holds the
    quoted word schedule, the call returns a plan with the fixed summary
    and as many items as the shortest of the four lists of matches in that
    text. Item [i] is built from the [i]-th match of each list, each field
    with its own default (09:00, Task, 30, task) for a capture that extracts
    nothing; and since the capture reads the first quoted run of a match,
    which is the key, every item holds the names of the four keys. *)
Theorem field_scraping_recovers_min_items (rawContent : jsstring) :
  let cleaned := repairTruncated (cleanContent rawContent) in
  let tm := match_field "time" cleaned in
  let am := match_field "activity" cleaned in
  let dm := match_field "duration" cleaned in
  let ty := match_field "type" cleaned in
  let n := Nat.min (length tm) (Nat.min (length am)
             (Nat.min (length dm) (length ty))) in
  JSON_parse rawContent = None ->
  JSON_parse cleaned = None ->
  includes q_schedule cleaned = true ->
  exists items,
    parseAIResponse rawContent = Returned (plan_object items fallback_summary)
    /\ length items = n
    /\ (forall i, i < n ->
          nth i items JNull =
            schedule_item (capture_or "09:00" (nth i tm []))
                          (capture_or "Task" (nth i am []))
                          (capture_or "30" (nth i dm []))
                          (capture_or "task" (nth i ty [])))
    /\ (forall i, i < n ->
          nth i items JNull =
            schedule_item (lit "time") (lit "activity") (lit "duration")
              (lit "type"))
    /\ fallback_summary =
         lit "Daily schedule generated based on your preferences and tasks.".
Proof.
  intros cleaned tm am dm ty n Hraw Hclean Hsched.
  exists (repeat key_item n).
  assert (Hret : parseAIResponse rawContent
                 = Returned (plan_object (repeat key_item n) fallback_summary)).
  { unfold parseAIResponse, parseAIResponse_try. fold cleaned.
    rewrite Hraw, Hclean, Hsched. now rewrite scrapeSchedule_keys. }
  split; [exact Hret|]. split; [apply repeat_length|].
  assert (Hnth : forall i, i < n -> nth i (repeat key_item n) JNull = key_item).
  { intros i Hi. apply nth_repeat_lt. exact Hi. }
  split; [|split; [|reflexivity]].
  - intros i Hi. rewrite (Hnth i Hi). unfold key_item.
    rewrite (capture_of_match "time" "09:00" cleaned)
      by (try apply nth_In; try (split; [discriminate|reflexivity]);
          fold tm; unfold n in Hi; lia).
    rewrite (capture_of_match "activity" "Task" cleaned)
      by (try apply nth_In; try (split; [discriminate|reflexivity]);
          fold am; unfold n in Hi; lia).
    rewrite (capture_of_match "duration" "30" cleaned)
      by (try apply nth_In; try (split; [discriminate|reflexivity]);
          fold dm; unfold n in Hi; lia).
    rewrite (capture_of_match "type" "task" cleaned)
      by (try apply nth_In; try (split; [discriminate|reflexivity]);
          fold ty; unfold n in Hi; lia).
    reflexivity.
  - intros i Hi. now rewrite (Hnth i Hi).
Qed.

End ScrapeFacts.

Section ScrapeSamples.

Import JS Repair.

Lemma field_scraping_recovers_min_items_witness :
  exists items,
    parseAIResponse Sample.garbled
    = Returned (plan_object items fallback_summary)
    /\ length items = 1
    /\ nth 0 items JNull
       = schedule_item (lit "time") (lit "activity") (lit "duration")
           (lit "type").
Proof.
  destruct (field_scraping_recovers_min_items Sample.garbled)
    as (items & H1 & H2 & _ & H3 & _); try (vm_compute; reflexivity).
  exists items. split; [exact H1|]. split; [exact H2|].
  apply H3. vm_compute. lia.
Defined.

(** C2 fails on the code. A text that holds the quoted word schedule before
    its braces and parses neither as it is nor after cleaning: the cleaned
    text is what stands between the braces, it does not hold the word, and
    the call throws. A text with the four fields once before its braces and
    once between them: each pattern matches twice in the text, and the call
    returns one item. *)
Lemma field_scraping_counterexample :
  (includes q_schedule Sample.schedule_outside = true
   /\ JSON_parse Sample.schedule_outside = None
   /\ JSON_parse (repairTruncated (cleanContent Sample.schedule_outside))
      = None
   /\ parseAIResponse Sample.schedule_outside
      = Thrown (unrecoverable Sample.schedule_outside))
  /\ (JSON_parse Sample.fields_outside = None
      /\ JSON_parse (repairTruncated (cleanContent Sample.fields_outside))
         = None
      /\ length (match_field "time" Sample.fields_outside) = 2
      /\ length (match_field "activity" Sample.fields_outside) = 2
      /\ length (match_field "duration" Sample.fields_outside) = 2
      /\ length (match_field "type" Sample.fields_outside) = 2
      /\ exists item,
           parseAIResponse Sample.fields_outside
           = Returned (plan_object [item] fallback_summary)).
Proof.
  repeat split; try (vm_compute; reflexivity).
  eexists. vm_compute. reflexivity.
Qed.

End ScrapeSamples.

(** ** The error of the cascade *)

Section ErrorFacts.

Import JS Repair.

Lemma has_schedule_array_shape (t : jsstring) :
  has_schedule_array t = true ->
  exists a w z,
    t = a ++ (q_schedule ++ lit ":") ++ w ++ 91%N :: z /\
    forallb is_space w = true.
Proof.
  induction t as [|c t IH]; cbn [has_schedule_array].
  - discriminate.
  - intros H. apply orb_true_iff in H. destruct H as [H|H].
    + destruct (strip_prefix (q_schedule ++ lit ":") (c :: t)) as [r|] eqn:E;
        [|discriminate].
      apply strip_prefix_Some in E.
      destruct (dropWhile_suffix is_space r) as (w & Hr & Hw).
      fold (skip_spaces r) in Hr.
      destruct (skip_spaces r) as [|d z]; [discriminate|].
      unfold starts_with in H.
      destruct (strip_prefix (lit "[") (d :: z)) as [r'|] eqn:E';
        [|discriminate].
      apply strip_prefix_Some in E'. inversion E'; subst.
      exists [], w, r'. rewrite E. now split.
    + destruct (IH H) as (a & w & z & -> & Hw). now exists (c :: a), w, z.
Qed.

Lemma strip_trailing_comma_keep (P Z : jsstring) (c : N) :
  is_space c = false -> c <> 44%N ->
  exists Z', strip_trailing_comma (P ++ c :: Z) = P ++ c :: Z'.
Proof.
  intros Hs Hc. unfold strip_trailing_comma.
  destruct (drop_trailing_spaces_keep P Z c Hs) as (Z1 & b & -> & _).
  destruct (strip_suffix (lit ",") (P ++ c :: Z1)) as [r|] eqn:E.
  - apply strip_suffix_Some in E.
    destruct (app_suffix_split (lit ",") P Z1 r c) as (Z2 & -> & _);
      [|exact E|now exists Z2].
    simpl. intuition congruence.
  - now exists Z.
Qed.

(** The repair keeps the quoted word schedule. *)
Lemma repairTruncated_keeps_schedule (cleaned : jsstring) :
  includes q_schedule cleaned = true ->
  includes q_schedule (repairTruncated cleaned) = true.
Proof.
  intros H. unfold repairTruncated. rewrite H. cbn [andb].
  destruct (negb (includes q_summary cleaned)); [|exact H].
  destruct (match_schedule cleaned) as [sc|] eqn:E; [|exact H].
  unfold match_schedule in E.
  destruct (from_first 123 cleaned) as [[|b t]|]; try discriminate.
  destruct (has_schedule_array t) eqn:Hs; [|discriminate].
  inversion E; subst sc. clear E.
  destruct (has_schedule_array_shape t Hs) as (a & w & z & -> & Hw).
  replace (b :: a ++ (q_schedule ++ lit ":") ++ w ++ 91%N :: z)
    with ((b :: a ++ (q_schedule ++ lit ":") ++ w) ++ 91%N :: z)
    by (simpl; now rewrite <- !app_assoc).
  destruct (strip_trailing_comma_keep
              (b :: a ++ (q_schedule ++ lit ":") ++ w) z 91%N eq_refl)
    as (z' & ->); [discriminate|].
  apply includes_true_iff. unfold close_missing.
  match goal with
  | |- infix _ (?x ++ _) =>
      assert (Hx : exists y, x = (b :: a ++ q_schedule
                                   ++ lit ":" ++ w ++ 91%N :: z') ++ y)
  end.
  { destruct (negb _); eexists; simpl; repeat (rewrite <- app_assoc; simpl);
      reflexivity. }
  destruct Hx as (y & ->).
  exists (b :: a), (lit ":" ++ w ++ 91%N :: z' ++ y
                      ++ repeat 125%N
                           (count_char 123
                              ((b :: a ++ (q_schedule ++ lit ":") ++ w)
                                 ++ 91%N :: z)
                            - count_char 125
                                ((b :: a ++ (q_schedule ++ lit ":") ++ w)
                                   ++ 91%N :: z))).
  simpl. repeat (rewrite <- app_assoc; simpl). reflexivity.
Qed.

(** X3. The one error [parseAIResponse] throws is the unrecoverable-response
    error: its message is the fixed text, the first 200 characters of the
    completion and three dots, 247 characters at most, and it is thrown only
    for a completion that does not parse and whose cleaned text does not
    hold the quoted word schedule. *)
Theorem only_error_is_unrecoverable (rawContent message : jsstring) :
  parseAIResponse rawContent = Thrown message ->
  message = lit "Cannot extract valid JSON from AI response: "
            ++ firstn 200 rawContent ++ lit "..."
  /\ length message <= 247
  /\ JSON_parse rawContent = None
  /\ includes q_schedule (cleanContent rawContent) = false.
Proof.
  unfold parseAIResponse, parseAIResponse_try.
  destruct (JSON_parse rawContent) as [v|]; [discriminate|].
  destruct (JSON_parse (repairTruncated (cleanContent rawContent)));
    [discriminate|].
  destruct (includes q_schedule (repairTruncated (cleanContent rawContent)))
    eqn:Hs; [discriminate|].
  intros H; inversion H; subst message. clear H.
  split; [reflexivity|]. split.
  - unfold unrecoverable, substring0. rewrite !length_app.
    pose proof (firstn_le_length 200 rawContent) as Hl.
    change (length (lit "Cannot extract valid JSON from AI response: "))
      with 44.
    change (length (lit "...")) with 3. lia.
  - split; [reflexivity|].
    destruct (includes q_schedule (cleanContent rawContent)) eqn:Hc;
      [|reflexivity].
    now rewrite (repairTruncated_keeps_schedule _ Hc) in Hs.
Qed.

(** X4. The cleaned text is a run of consecutive characters of the
    completion, and it neither starts nor ends with white space. *)
Theorem cleaned_text_is_trimmed_part (rawContent : jsstring) :
  infix (cleanContent rawContent) rawContent
  /\ (forall c t, cleanContent rawContent = c :: t -> is_space c = false)
  /\ (forall t c, cleanContent rawContent = t ++ [c] -> is_space c = false).
Proof.
  split; [apply cleanContent_infix|]. unfold cleanContent.
  split; intros; [eapply trim_first|eapply trim_last]; eassumption.
Qed.

End ErrorFacts.

(** ** The repair, twice *)

Section RepairFacts.

Import JS Repair.

Lemma repairTruncated_changes (cleaned : jsstring) :
  repairTruncated cleaned = cleaned
  \/ includes q_summary (repairTruncated cleaned) = true.
Proof.
  unfold repairTruncated.
  destruct (includes q_schedule cleaned && negb (includes q_summary cleaned));
    [|now left].
  destruct (match_schedule cleaned) as [sc|]; [|now left].
  right. cbv zeta. unfold close_missing.
  set (s1 := strip_trailing_comma sc ++ repeat 93%N _).
  destruct (includes q_summary s1) eqn:E; cbn [negb].
  - apply includes_true_iff. apply includes_true_iff in E.
    destruct E as (a & z & E). exists a, (z ++ repeat 125%N (count_char 123 sc - count_char 125 sc)).
    rewrite E, <- !app_assoc. reflexivity.
  - apply includes_true_iff. unfold summary_field.
    exists (s1 ++ lit ", "), (lit ": " ++ [dquote] ++ fallback_summary ++ [dquote] ++ repeat 125%N (count_char 123 sc - count_char 125 sc)).
    rewrite <- !app_assoc. reflexivity.
Qed.

(** X5. The repair of a cut-off completion is idempotent: a text it
    changed holds the summary key, so that repairing it again leaves it as
    it is. *)
Theorem repairTruncated_idempotent (cleaned : jsstring) :
  repairTruncated (repairTruncated cleaned) = repairTruncated cleaned
  /\ (repairTruncated cleaned <> cleaned ->
      includes q_summary (repairTruncated cleaned) = true).
Proof.
  destruct (repairTruncated_changes cleaned) as [E|E].
  - split; [now rewrite !E|]. intros H. now destruct H.
  - split; [|intros _; exact E].
    apply repairTruncated_with_summary. exact E.
Qed.

End RepairFacts.

(** ** Authentication and the plan handler *)

Section PlanFacts.

Import JS Handler.
Context {rt : Runtime}.
Variable w : World.

(** X6. [getUserId] returns a user only for a header that starts with
    Bearer, a space and a token that is not empty and that the identity
    provider verified with a subject that is not empty; the provider was
    called once, with that token. Every failure is thrown again under the
    words Authentication failed, and a header without the Bearer prefix
    fails before the provider is called. *)
Theorem getUserId_contract (authorization : option jsstring) :
  (forall userId,
     snd (getUserId w authorization) = Returned userId ->
     userId <> [] /\
     exists token,
       authorization = Some (lit "Bearer " ++ token) /\ token <> [] /\
       verifyToken w token = Returned (Some userId) /\
       fst (getUserId w authorization) = [VerifyToken token])
  /\ (forall message,
        snd (getUserId w authorization) = Thrown message ->
        exists cause, message = lit "Authentication failed: " ++ cause)
  /\ (strip_prefix (lit "Bearer ")
        match authorization with Some h => h | None => [] end = None ->
      getUserId w authorization
      = ([], Thrown (lit "Authentication failed: Missing or invalid Authorization header"))).
Proof.
  unfold getUserId, try_catch, bind, await, throw, ret.
  destruct (strip_prefix (lit "Bearer ")
              match authorization with Some h => h | None => [] end)
    as [[|c token]|] eqn:E.
  - repeat split; try discriminate.
    intros message H; inversion H. eexists; reflexivity.
  - apply strip_prefix_Some in E.
    destruct (verifyToken w (c :: token)) as [[[|d sub]|]|e] eqn:V;
      (split; [|split]); try discriminate;
      try (intros message H; inversion H; eexists; reflexivity).
    intros userId H. inversion H; subst. split; [discriminate|].
    exists (c :: token). repeat split; try discriminate; try assumption.
    destruct authorization as [h|]; [now subst|discriminate].
  - repeat split; try discriminate.
    intros message H; inversion H. eexists; reflexivity.
Qed.

Lemma getWeatherFor_answers (prefs : Preferences) :
  exists t weather,
    getWeatherFor w prefs = (t, Returned weather) /\
    existsb (fun c => match c with UpsertPlan _ _ => true | _ => false end) t
    = false /\
    (weather = unknownWeather \/
     exists place code text,
       fetchWeather w place = Response true code text (Returned weather)).
Proof.
  unfold getWeatherFor, ret.
  destruct (city prefs) as [[|c rest]|];
    try (eexists; eexists; split; [reflexivity|]; split; [reflexivity|];
         now left).
  destruct (fetchWeather w (c :: rest)) as [e|[] st stt [x|e]] eqn:F;
    eexists; eexists; (split; [reflexivity|]); (split; [reflexivity|]);
    try (now left).
  right. eauto.
Qed.

Lemma getWeatherFor_calls (prefs : Preferences) (c : call) :
  In c (fst (getWeatherFor w prefs)) -> exists place, c = FetchWeather place.
Proof.
  unfold getWeatherFor, ret.
  destruct (city prefs) as [[|a rest]|]; try (intros []).
  destruct (fetchWeather w (a :: rest)) as [e|[] st stt [x|e]];
    intros [<-|[]]; eauto.
Qed.

Lemma getApodFor_answers :
  exists apod, getApodFor w = ([FetchApod], Returned apod).
Proof.
  unfold getApodFor.
  destruct (fetchApod w) as [e|[] st stt [x|e]]; eexists; reflexivity.
Qed.

Lemma getPlanFor_calls (prompt : jsstring) :
  fst (getPlanFor w prompt) = [FetchCompletion prompt].
Proof.
  unfold getPlanFor.
  destruct (fetchCompletion w prompt) as [e|[] st stt [x|e]]; reflexivity.
Qed.

(** The handler once the user, the preferences and the tasks are there. *)
Lemma generatePlan_ready (authorization : option jsstring)
  (userId : jsstring) (prefs : Preferences) (others : list Preferences)
  (task : Task) (tasks : list Task) :
  snd (getUserId w authorization) = Returned userId ->
  selectPreferences w userId = Returned (prefs :: others) ->
  selectTasks w userId = Returned (task :: tasks) ->
  exists tw weather apod,
    getWeatherFor w prefs = (tw, Returned weather) /\
    generatePlan w authorization
    = match buildPrompt (Some prefs) (Some (task :: tasks)) weather with
      | Returned prompt =>
          (fst (getUserId w authorization)
             ++ [InsertUser userId; SelectPreferences userId;
                 SelectTasks userId]
             ++ tw ++ [FetchApod; FetchCompletion prompt]
             ++ match snd (getPlanFor w prompt) with
                | Returned plan => [UpsertPlan userId plan]
                | Thrown _ => []
                end,
           Returned
             match snd (getPlanFor w prompt) with
             | Returned plan => json (PlanBody plan apod weather) 200
             | Thrown message =>
                 json (ErrorBody (lit "Failed to generate plan: " ++ message))
                   500
             end)
      | Thrown e =>
          (fst (getUserId w authorization)
             ++ [InsertUser userId; SelectPreferences userId;
                 SelectTasks userId]
             ++ tw ++ [FetchApod],
           Thrown e)
      end.
Proof.
  intros Hid Hp Ht.
  destruct (getWeatherFor_answers prefs) as (tw & weather & Hw & _ & _).
  destruct getApodFor_answers as (apod & Ha).
  exists tw, weather, apod. split; [exact Hw|].
  unfold generatePlan.
  destruct (getUserId w authorization) as [t0 r0]. simpl in Hid. subst r0.
  unfold bind at 1. unfold await_all. rewrite Hp, Ht.
  destruct (buildPrompt (Some prefs) (Some (task :: tasks)) weather)
    as [prompt|e] eqn:B.
  - pose proof (getPlanFor_calls prompt) as Hc.
    destruct (getPlanFor w prompt) as [tp [plan|message]] eqn:G;
      simpl in Hc; subst tp;
      destruct (insertUser w userId) as [[]|e];
      cbn [bind try_catch await ret fst snd];
      rewrite Hw; cbn [bind try_catch await ret fst snd];
      rewrite Ha; cbn [bind try_catch await ret fst snd];
      rewrite B; cbn [bind try_catch await ret fst snd];
      rewrite G; cbn [bind try_catch await ret fst snd];
      try (destruct (upsertPlan w userId plan) as [[]|e']);
      cbn [bind try_catch await ret fst snd];
      f_equal; cbn [app]; rewrite ?app_nil_r;
      repeat (rewrite <- app_assoc; cbn [app]); reflexivity.
  - destruct (insertUser w userId) as [[]|e'];
      cbn [bind try_catch await ret fst snd];
      rewrite Hw; cbn [bind try_catch await ret fst snd];
      rewrite Ha; cbn [bind try_catch await ret fst snd];
      rewrite B; cbn [bind try_catch await ret fst snd];
      f_equal; cbn [app]; rewrite ?app_nil_r;
      repeat (rewrite <- app_assoc; cbn [app]); reflexivity.
Qed.


(** The handler when a query fails or a row is missing. *)
Lemma generatePlan_early (authorization : option jsstring)
  (userId : jsstring) :
  snd (getUserId w authorization) = Returned userId ->
  match selectPreferences w userId, selectTasks w userId with
  | Returned (_ :: _), Returned (_ :: _) => True
  | chosen, found =>
      generatePlan w authorization
      = (fst (getUserId w authorization)
           ++ [InsertUser userId; SelectPreferences userId;
               SelectTasks userId],
         match chosen, found with
         | Thrown e, _ => Thrown e
         | _, Thrown e => Thrown e
         | Returned [], _ =>
             Returned
               (json (ErrorBody
                        (lit "User preferences not found. Please set up your preferences first."))
                  400)
         | _, _ =>
             Returned
               (json (ErrorBody
                        (lit "No tasks found for today. Please add some tasks first."))
                  400)
         end)
  end.
Proof.
  intros Hid.
  destruct (selectPreferences w userId) as [[|p ps]|e] eqn:Hp;
    destruct (selectTasks w userId) as [[|t ts]|e'] eqn:Ht;
    try exact I;
    unfold generatePlan;
    destruct (getUserId w authorization) as [t0 r0]; simpl in Hid; subst r0;
    unfold bind at 1; unfold await_all; cbv beta; rewrite Hp, ?Ht;
    destruct (insertUser w userId) as [[]|e''];
    cbn [bind try_catch await ret fst snd app]; rewrite ?app_nil_r;
    repeat (rewrite <- app_assoc; cbn [app]); reflexivity.
Qed.

Lemma not_in_quiet (f : call -> bool) (c : call) (t : list call) :
  existsb f t = false -> In c t -> f c = false.
Proof.
  intros H Hin. destruct (f c) eqn:E; [|reflexivity].
  assert (existsb f t = true) by (apply existsb_exists; eauto). congruence.
Qed.

(** X7. Once the user is authenticated and the two queries answer, the
    handler ends in one of two ways. It answers, with 200, 400 or 500: 400
    exactly when there are no preferences or no tasks, and then without any
    external call. Or it throws, which happens exactly when [buildPrompt]
    throws on the weather it was given: then the error is the TypeError of
    the conversion to text, and neither the completion model was called nor
    a plan written. A failing weather or picture service does not make it
    fail, and the guard on the tasks keeps the no-tasks error of
    [buildPrompt] out of reach. *)
Theorem generatePlan_always_answers (authorization : option jsstring)
  (userId : jsstring) (chosen : list Preferences) (found : list Task) :
  snd (getUserId w authorization) = Returned userId ->
  selectPreferences w userId = Returned chosen ->
  selectTasks w userId = Returned found ->
  exists t,
    (exists answer,
       generatePlan w authorization = (t, Returned answer)
       /\ (status answer = 400%N <-> chosen = [] \/ found = [])
       /\ (status answer = 200%N \/ status answer = 400%N
           \/ status answer = 500%N)
       /\ (status answer = 400%N -> existsb Trace.is_external t = false)
       /\ (forall prefs others,
             chosen = prefs :: others -> found <> [] ->
             exists weather prompt,
               snd (getWeatherFor w prefs) = Returned weather
               /\ buildPrompt (Some prefs) (Some found) weather
                  = Returned prompt))
    \/ (exists prefs others weather,
          chosen = prefs :: others /\ found <> []
          /\ snd (getWeatherFor w prefs) = Returned weather
          /\ buildPrompt (Some prefs) (Some found) weather
             = Thrown primitive_TypeError
          /\ generatePlan w authorization = (t, Thrown primitive_TypeError)
          /\ (forall prompt, ~ In (FetchCompletion prompt) t)
          /\ (forall user plan, ~ In (UpsertPlan user plan) t)).
Proof.
  intros Hid Hp Ht.
  destruct chosen as [|prefs others]; [|destruct found as [|task tasks]].
  - pose proof (generatePlan_early authorization userId Hid) as H.
    rewrite Hp, Ht in H.
    assert (H' : generatePlan w authorization
                 = (fst (getUserId w authorization)
                      ++ [InsertUser userId; SelectPreferences userId;
                          SelectTasks userId],
                    Returned
                      (json (ErrorBody
                               (lit "User preferences not found. Please set up your preferences first."))
                         400)))
      by (destruct found; exact H).
    rewrite H'. eexists. left. eexists. split; [reflexivity|].
    cbn [status json]. split; [tauto|]. split; [tauto|].
    split; [|intros ? ? E; discriminate E]. intros _.
    rewrite existsb_app, getUserId_calls. reflexivity.
  - pose proof (generatePlan_early authorization userId Hid) as H.
    rewrite Hp, Ht in H. rewrite H. eexists. left. eexists.
    split; [reflexivity|]. cbn [status json]. split; [tauto|].
    split; [tauto|]. split; [|intros ? ? _ E; now destruct E]. intros _.
    rewrite existsb_app, getUserId_calls. reflexivity.
  - destruct (generatePlan_ready authorization userId prefs others task tasks
                Hid Hp Ht) as (tw & weather & apod & Hw & H).
    destruct (getWeatherFor_answers prefs)
      as (tw' & weather' & Hw' & Hquiet & _).
    rewrite Hw in Hw'. inversion Hw'; subst tw' weather'. clear Hw'.
    rewrite H.
    destruct (buildPrompt (Some prefs) (Some (task :: tasks)) weather)
      as [prompt|e] eqn:B.
    + eexists. left. eexists. split; [reflexivity|].
      split; [|split; [|split]].
      * destruct (snd (getPlanFor w prompt)); cbn [status json];
          (split; [discriminate|intros [E|E]; discriminate]).
      * destruct (snd (getPlanFor w prompt)); cbn [status json]; tauto.
      * destruct (snd (getPlanFor w prompt)); cbn [status json]; discriminate.
      * intros p o E _. inversion E; subst p o. rewrite Hw. cbn [snd].
        now exists weather, prompt.
    + pose proof (buildPrompt_thrown _ _ _ _ _ B) as He.
      subst e. eexists. right. exists prefs, others, weather.
      split; [reflexivity|]. split; [discriminate|].
      split; [now rewrite Hw|]. split; [exact B|]. split; [reflexivity|].
      assert (Hq : forall c,
                 Trace.is_external c = true ->
                 c <> FetchApod -> (forall city, c <> FetchWeather city) ->
                 ~ In c (fst (getUserId w authorization)
                         ++ [InsertUser userId; SelectPreferences userId;
                             SelectTasks userId] ++ tw ++ [FetchApod])).
      { intros c Hc Hna Hnw Hin.
        rewrite !in_app_iff in Hin. destruct Hin as [Hin|[Hin|[Hin|Hin]]].
        - pose proof (not_in_quiet _ _ _ (getUserId_calls w authorization) Hin).
          congruence.
        - cbn [In] in Hin.
          destruct Hin as [<-|[<-|[<-|[]]]]; discriminate Hc.
        - pose proof (getWeatherFor_calls prefs c) as Hcity.
          rewrite Hw in Hcity. destruct (Hcity Hin) as [city E].
          now apply (Hnw city).
        - cbn [In] in Hin. destruct Hin as [E|[]]. now apply Hna. }
      split; intros; apply Hq; try reflexivity; try discriminate.
Qed.


End PlanFacts.

(** ** Clock times *)

Section TimeFacts.

Import JS Api Clock.

Lemma is_time_digit_iff (lo hi c : N) :
  is_time_digit lo hi c = true <-> (lo <= c <= hi)%N.
Proof.
  unfold is_time_digit. rewrite andb_true_iff, !N.leb_le. tauto.
Qed.

Lemma digit_of (c : N) :
  (48 <= c <= 57)%N -> digit (N.to_nat (c - 48)) = c.
Proof. intros H. unfold digit. lia. Qed.

Lemma two_digits_of (c d : N) :
  (48 <= c <= 57)%N -> (48 <= d <= 57)%N ->
  two_digits (N.to_nat (c - 48) * 10 + N.to_nat (d - 48)) = [c; d].
Proof.
  intros Hc Hd. unfold two_digits.
  replace ((N.to_nat (c - 48) * 10 + N.to_nat (d - 48)) / 10)
    with (N.to_nat (c - 48))
    by (apply Nat.div_unique with (N.to_nat (d - 48)); lia).
  replace ((N.to_nat (c - 48) * 10 + N.to_nat (d - 48)) mod 10)
    with (N.to_nat (d - 48))
    by (apply Nat.mod_unique with (N.to_nat (c - 48)); lia).
  now rewrite !digit_of.
Qed.

Lemma timeRegex_sound (s : jsstring) :
  timeRegex_test s = true -> exists h m, h < 24 /\ m < 60 /\ written h m s.
Proof.
  unfold timeRegex_test.
  destruct s as [|a [|b [|c [|d [|e [|f s]]]]]]; try discriminate.
  - rewrite !andb_true_iff, !is_time_digit_iff, N.eqb_eq.
    intros [[[Ha ->] Hc] Hd].
    exists (N.to_nat (a - 48)),
           (N.to_nat (c - 48) * 10 + N.to_nat (d - 48)).
    split; [lia|]. split; [lia|]. right. split; [lia|].
    rewrite two_digits_of by lia. now rewrite digit_of.
  - rewrite !andb_true_iff, orb_true_iff, !andb_true_iff,
      !is_time_digit_iff, !N.eqb_eq.
    intros [[[Hh ->] Hd] He].
    exists (N.to_nat (a - 48) * 10 + N.to_nat (b - 48)),
           (N.to_nat (d - 48) * 10 + N.to_nat (e - 48)).
    split; [lia|]. split; [lia|]. left.
    now rewrite !two_digits_of by lia.
Qed.

Lemma timeRegex_complete (h m : nat) (s : jsstring) :
  h < 24 -> m < 60 -> written h m s -> timeRegex_test s = true.
Proof.
  intros Hh Hm [->|[Hh' ->]]; unfold two_digits, digit;
    cbn [app timeRegex_test];
    rewrite ?andb_true_iff, ?orb_true_iff, ?andb_true_iff,
      ?is_time_digit_iff, ?N.eqb_eq.
  - pose proof (Nat.div_mod_eq h 10). pose proof (Nat.mod_upper_bound h 10).
    pose proof (Nat.div_mod_eq m 10). pose proof (Nat.mod_upper_bound m 10).
    repeat split; lia.
  - pose proof (Nat.div_mod_eq m 10). pose proof (Nat.mod_upper_bound m 10).
    repeat split; lia.
Qed.

(** X9. The test on wake and sleep times accepts exactly the clock times
    from 0:00 to 23:59: an hour below 24 written with two digits (or with
    one, below ten), a colon, and a minute below 60 written with two
    digits. *)
Theorem timeRegex_accepts_clock_times (s : jsstring) :
  timeRegex_test s = true <->
  exists h m, h < 24 /\ m < 60 /\ written h m s.
Proof.
  split; [apply timeRegex_sound|].
  intros (h & m & Hh & Hm & Hw). exact (timeRegex_complete h m s Hh Hm Hw).
Qed.

End TimeFacts.

(** ** Tasks and preferences *)

Section ApiFacts.

Import JS Api.
Context {rt : Runtime} {ord : NumberOrder}.
Variable b : Backend.
Variable nullBodyMessage primitiveMessage : jsstring.

Lemma getUserId_thrown (authorization : option jsstring) (message : jsstring) :
  snd (Handler.getUserId (plan_world b) authorization) = Thrown message ->
  exists cause, message = lit "Authentication failed: " ++ cause.
Proof.
  unfold Handler.getUserId, Handler.try_catch, Handler.bind, Handler.await,
    Handler.throw, Handler.ret.
  destruct (strip_prefix (lit "Bearer ")
              match authorization with Some h => h | None => [] end)
    as [[|c token]|].
  - intros H; inversion H. eexists; reflexivity.
  - destruct (verifyToken (plan_world b) (c :: token)) as [[[|d sub]|]|e];
      intros H; inversion H; eexists; reflexivity.
  - intros H; inversion H. eexists; reflexivity.
Qed.

Lemma not_in_lift (c : api_call) (t : list call) :
  ~ In (Api c) (map Plan t).
Proof.
  induction t as [|x t IH]; simpl; [tauto|].
  intros [H|H]; [discriminate|tauto].
Qed.

Lemma ensureUser_quiet (userId : jsstring) :
  exists t, ensureUser b userId = (map Plan t, Returned tt).
Proof.
  unfold ensureUser, try_catch, await, ret.
  destruct (insertUser (plan_world b) userId) as [[]|e];
    exists [InsertUser userId]; reflexivity.
Qed.

Lemma in_lifted {A B} (c : api_call) (t : list call) (r : outcome A)
      (k : A -> D B) :
  In (Api c) (fst (bind (map Plan t, r) k)) ->
  exists a, r = Returned a /\ In (Api c) (fst (k a)).
Proof.
  unfold bind. destruct r as [a|e].
  - destruct (k a) as [t' r'] eqn:E. simpl. rewrite in_app_iff.
    intros [H|H]; [destruct (not_in_lift _ _ H)|].
    exists a. now rewrite E.
  - simpl. intros H. destruct (not_in_lift _ _ H).
Qed.

Lemma bind_ret {A B} (a : A) (k : A -> D B) : bind (ret a) k = k a.
Proof. unfold bind, ret. now destruct (k a). Qed.

Lemma in_destructured {B} (c : api_call) (parsed : JSON) (k : JSON -> D B) :
  In (Api c) (fst (bind (destructure nullBodyMessage parsed) k)) ->
  In (Api c) (fst (k parsed)).
Proof.
  destruct parsed; unfold destructure; try (now rewrite bind_ret).
  simpl. tauto.
Qed.

Lemma Number_le_zero_false (tok : jsstring) :
  Number_le_zero tok = false ->
  Number_truthy tok = true /\ starts_with (lit "-") tok = false.
Proof.
  unfold Number_le_zero. rewrite orb_false_iff, negb_false_iff. tauto.
Qed.

Lemma bind_lifted {A B} (t : list call) (a : A) (k : A -> D B) :
  bind (map Plan t, Returned a) k = (map Plan t ++ fst (k a), snd (k a)).
Proof. unfold bind. now destruct (k a). Qed.

Lemma prefix_quiet (c : api_call) (t0 t1 : list call) (rest : list event) :
  In (Api c) (map Plan t0 ++ map Plan t1 ++ rest) <-> In (Api c) rest.
Proof.
  rewrite !in_app_iff. split; [|tauto].
  intros [H|[H|H]]; [destruct (not_in_lift _ _ H)..|exact H].
Qed.

Ltac rejected :=
  let H := fresh "H" in
  let Hc := fresh "Hc" in
  let c := fresh "c" in
  intros H; inversion H; subst; right; left; split; [reflexivity|];
  intros c Hc; apply prefix_quiet in Hc; destruct Hc.

(** X10. [createTask] sends an insert only for the authenticated user and a
    body that passed every check: the stored title is the trimmed title of
    the body, is not empty and has no white space at either end; the
    duration is a number that is neither zero nor negative; the importance
    is a string that is not empty. *)
Theorem createTask_stores_validated_task
    (req : Request) (userId title duration importance : jsstring) :
  In (Api (InsertTask userId title duration importance))
     (fst (createTask b nullBodyMessage req)) ->
  snd (Handler.getUserId (plan_world b) (authorization req)) = Returned userId
  /\ (exists body raw,
        json_body req = Returned body
        /\ field "title" body = Some (JString raw) /\ title = trim raw
        /\ field "duration" body = Some (JNumber duration)
        /\ field "importance" body = Some (JString importance))
  /\ title <> []
  /\ (forall c t, title = c :: t -> is_space c = false)
  /\ (forall t c, title = t ++ [c] -> is_space c = false)
  /\ Number_truthy duration = true
  /\ starts_with (lit "-") duration = false
  /\ importance <> [].
Proof.
  unfold createTask, lift. intros H.
  apply in_lifted in H. destruct H as (uid & Hu & H).
  destruct (ensureUser_quiet uid) as [t1 E]. rewrite E in H.
  apply in_lifted in H. destruct H as (_ & _ & H).
  destruct (json_body req) as [parsed|e] eqn:Hb; [|destruct H].
  apply in_destructured in H. cbv zeta in H.
  destruct (field "title" parsed) as [[| | |[|c s]| |]|] eqn:Ht;
    try (destruct H).
  destruct (trim (c :: s)) as [|c' s'] eqn:Htrim; [destruct H|].
  destruct (field "duration" parsed) as [[| |tok| | |]|] eqn:Hd;
    try (destruct H).
  destruct (Number_le_zero tok) eqn:Hz; [destruct H|].
  destruct (field "importance" parsed) as [[| | |[|i imp]| |]|] eqn:Hi;
    try (destruct H).
  unfold try_catch, bind, await, ret in H.
  assert (Hin : In (Api (InsertTask userId title duration importance))
                  [Api (InsertTask uid (c' :: s') tok (i :: imp))])
    by (destruct (insertTask b uid (c' :: s') tok (i :: imp)); exact H).
  destruct Hin as [Hin|[]]. inversion Hin; subst.
  destruct (Number_le_zero_false _ Hz) as [Hn Hs].
  split; [exact Hu|].
  split; [exists parsed, (c :: s); rewrite Htrim; repeat split; assumption|].
  split; [discriminate|].
  split; [intros c0 t0 Hc; rewrite <- Htrim in Hc; exact (trim_first _ _ _ Hc)|].
  split; [intros t0 c0 Hc; rewrite <- Htrim in Hc; exact (trim_last _ _ _ Hc)|].
  split; [exact Hn|]. split; [exact Hs|discriminate].
Qed.

(** X11. The three answers of [createTask]: 200 says that the insert was
    sent and succeeded, 400 that no statement about tasks was sent at all,
    500 that the insert was sent and failed, with the cause in the
    message. *)
Theorem createTask_answer_tells_what_happened
    (req : Request) (status : N) (data : JSON) :
  snd (createTask b nullBodyMessage req) = Returned (JsonResponse status data) ->
  (status = 200%N /\ data = ok_data "Task created successfully"
   /\ exists u t d i,
        In (Api (InsertTask u t d i)) (fst (createTask b nullBodyMessage req))
        /\ insertTask b u t d i = Returned tt)
  \/ (status = 400%N
      /\ forall c, ~ In (Api c) (fst (createTask b nullBodyMessage req)))
  \/ (status = 500%N
      /\ exists u t d i cause,
           In (Api (InsertTask u t d i)) (fst (createTask b nullBodyMessage req))
           /\ insertTask b u t d i = Thrown cause
           /\ data = error_data (lit "Failed to create task: " ++ cause)).
Proof.
  unfold createTask, lift.
  destruct (Handler.getUserId (plan_world b) (authorization req))
    as [t0 [uid|e]]; cbn [fst snd]; [|discriminate].
  rewrite bind_lifted. destruct (ensureUser_quiet uid) as [t1 ->].
  rewrite bind_lifted. cbn [fst snd].
  destruct (json_body req) as [parsed|e]; [|rejected].
  assert (Hd : parsed = JNull \/
               forall k : JSON -> D response,
                 bind (destructure nullBodyMessage parsed) k = k parsed)
    by (destruct parsed; try (right; intros k; apply bind_ret); now left).
  destruct Hd as [Hd|Hd]; [subst parsed; discriminate|rewrite Hd]. cbv zeta.
  destruct (field "title" parsed) as [[| | |[|c s]| |]|]; try rejected.
  destruct (trim (c :: s)) as [|c' s']; [rejected|].
  destruct (field "duration" parsed) as [[| |tok| | |]|]; try rejected.
  destruct (Number_le_zero tok); [rejected|].
  destruct (field "importance" parsed) as [[| | |[|i imp]| |]|]; try rejected.
  unfold try_catch, bind, await, ret.
  destruct (insertTask b uid (c' :: s') tok (i :: imp)) as [[]|cause] eqn:Hins;
    cbn [fst snd app]; intros H; inversion H; subst.
  - left. split; [reflexivity|]. split; [reflexivity|].
    exists uid, (c' :: s'), tok, (i :: imp).
    split; [apply prefix_quiet; now left|exact Hins].
  - right; right. split; [reflexivity|].
    exists uid, (c' :: s'), tok, (i :: imp), cause.
    split; [apply prefix_quiet; now left|]. split; [exact Hins|reflexivity].
Qed.

Lemma in_test_time {B} (c : api_call) (v : JSON) (k : bool -> D B) :
  In (Api c) (fst (bind (test_time primitiveMessage v) k)) ->
  exists s, ToString primitiveMessage v = Returned s
            /\ In (Api c) (fst (k (timeRegex_test s))).
Proof.
  unfold test_time. destruct (ToString primitiveMessage v) as [s|e].
  - rewrite bind_ret. intros H. now exists s.
  - simpl. tauto.
Qed.

Lemma includes_value_in (l : list jsstring) (v : JSON) :
  includes_value l (Some v) = true -> exists s, v = JString s /\ In s l.
Proof.
  unfold includes_value. destruct v as [| | |s| |]; try discriminate.
  rewrite existsb_exists. intros (x & Hx & E). apply eqb_true in E.
  exists s. now subst.
Qed.

Lemma positive_number_true (v : JSON) :
  positive_number (Some v) = true ->
  exists tok, v = JNumber tok /\ Number_truthy tok = true
              /\ starts_with (lit "-") tok = false.
Proof.
  unfold positive_number, as_number. destruct v as [| |tok| | |];
    try discriminate.
  rewrite negb_true_iff. intros H. exists tok.
  split; [reflexivity|]. now apply Number_le_zero_false.
Qed.

(** X12. [savePreferences] sends the upsert only for the authenticated
    user and a body that passed every check: the eight values are the
    members of the body; wake and sleep time read as clock times between
    0:00 and 23:59; peak focus and commute mode are strings of the two
    lists; city and break style are truthy; the break interval is a number
    above zero, the work hours a number above zero and not above 24. *)
Theorem savePreferences_stores_validated_values
    (req : Request) (userId : jsstring)
    (wake sleep peak city style interval hours commute : JSON) :
  In (Api (UpsertPreferences userId wake sleep peak city style interval hours
             commute))
     (fst (savePreferences b nullBodyMessage primitiveMessage req)) ->
  snd (Handler.getUserId (plan_world b) (authorization req)) = Returned userId
  /\ (exists body,
        json_body req = Returned body
        /\ field "wakeTime" body = Some wake
        /\ field "sleepTime" body = Some sleep
        /\ field "peakFocus" body = Some peak
        /\ field "city" body = Some city
        /\ field "breakStyle" body = Some style
        /\ field "breakInterval" body = Some interval
        /\ field "maxWorkHours" body = Some hours
        /\ field "commuteMode" body = Some commute)
  /\ (exists s h m, ToString primitiveMessage wake = Returned s
                    /\ h < 24 /\ m < 60 /\ Clock.written h m s)
  /\ (exists s h m, ToString primitiveMessage sleep = Returned s
                    /\ h < 24 /\ m < 60 /\ Clock.written h m s)
  /\ (exists s, peak = JString s /\ In s validPeakFocus)
  /\ (exists s, commute = JString s /\ In s validCommuteModes)
  /\ Prompt.truthy (Some city) = true
  /\ Prompt.truthy (Some style) = true
  /\ (exists tok, interval = JNumber tok /\ Number_truthy tok = true
                  /\ starts_with (lit "-") tok = false)
  /\ (exists tok, hours = JNumber tok /\ Number_truthy tok = true
                  /\ starts_with (lit "-") tok = false
                  /\ Number_exceeds tok 24 = false).
Proof.
  unfold savePreferences, lift, bad_request. intros H.
  apply in_lifted in H. destruct H as (uid & Hu & H).
  destruct (ensureUser_quiet uid) as [t1 E]. rewrite E in H.
  apply in_lifted in H. destruct H as (_ & _ & H).
  destruct (json_body req) as [parsed|e] eqn:Hb; [|destruct H].
  apply in_destructured in H. cbv zeta in H.
  destruct (field "wakeTime" parsed) as [w|] eqn:F1; [|destruct H].
  destruct (field "sleepTime" parsed) as [sl|] eqn:F2; [|destruct H].
  destruct (field "peakFocus" parsed) as [pk|] eqn:F3; [|destruct H].
  destruct (field "city" parsed) as [ct|] eqn:F4; [|destruct H].
  destruct (field "breakStyle" parsed) as [st|] eqn:F5; [|destruct H].
  destruct (field "breakInterval" parsed) as [bi|] eqn:F6; [|destruct H].
  destruct (field "maxWorkHours" parsed) as [mh|] eqn:F7; [|destruct H].
  destruct (field "commuteMode" parsed) as [cm|] eqn:F8; [|destruct H].
  destruct (Prompt.truthy (Some w) && Prompt.truthy (Some sl)
            && Prompt.truthy (Some pk) && Prompt.truthy (Some ct)
            && Prompt.truthy (Some st) && Prompt.truthy (Some cm)) eqn:T;
    [|destruct H].
  cbn [negb] in H.
  destruct (includes_value validCommuteModes (Some cm)) eqn:Vc; [|destruct H].
  destruct (includes_value validPeakFocus (Some pk)) eqn:Vp; [|destruct H].
  cbn [negb] in H.
  apply in_test_time in H. destruct H as (ws & Hw & H).
  destruct (timeRegex_test ws) eqn:Tw; [|destruct H]. cbn [negb] in H.
  apply in_test_time in H. destruct H as (ss & Hs & H).
  destruct (timeRegex_test ss) eqn:Ts; [|destruct H]. cbn [negb] in H.
  destruct (positive_number (Some bi)) eqn:Pi; [|destruct H].
  destruct (positive_number (Some mh)) eqn:Ph; [|destruct H].
  cbn [negb orb] in H.
  destruct (positive_number_true _ Pi) as (itok & -> & Hi1 & Hi2).
  destruct (positive_number_true _ Ph) as (htok & -> & Hh1 & Hh2).
  cbn [as_number] in H.
  destruct (Number_exceeds htok 24) eqn:Hx; [destruct H|].
  unfold try_catch, bind, await, ret in H.
  assert (Hin : In (Api (UpsertPreferences userId wake sleep peak city style
                           interval hours commute))
                  [Api (UpsertPreferences uid w sl pk ct st (JNumber itok)
                          (JNumber htok) cm)])
    by (destruct (upsertPreferences b uid _); exact H).
  destruct Hin as [Hin|[]]. inversion Hin; subst.
  rewrite !andb_true_iff in T. destruct T as [[[[[_ _] _] Tc] Tst] _].
  destruct (timeRegex_sound _ Tw) as (h1 & m1 & ? & ? & ?).
  destruct (timeRegex_sound _ Ts) as (h2 & m2 & ? & ? & ?).
  split; [exact Hu|].
  split; [exists parsed; repeat split; assumption|].
  split; [exists ws, h1, m1; repeat split; assumption|].
  split; [exists ss, h2, m2; repeat split; assumption|].
  split; [exact (includes_value_in _ _ Vp)|].
  split; [exact (includes_value_in _ _ Vc)|].
  split; [exact Tc|]. split; [exact Tst|].
  split; [exists itok; repeat split; assumption|].
  exists htok; repeat split; assumption.
Qed.

End ApiFacts.

(** ** The dispatcher *)

Section DispatchFacts.

Import JS Api.
Context {rt : Runtime} {ord : NumberOrder}.
Variable b : Backend.
Variable nullBodyMessage primitiveMessage : jsstring.
Variable getTasksFor getPreferencesFor getPlanFor getWeatherFor :
  jsstring -> D response.
Variable getApod : D response.

Lemma last_segment_plain (acc id : jsstring) :
  count_char 47 id = 0 -> last_segment acc id = acc ++ id.
Proof.
  revert acc. induction id as [|c id IH]; intros acc; simpl.
  - now rewrite app_nil_r.
  - rewrite count_char_cons. destruct (N.eqb_spec 47 c) as [E|E];
      [discriminate|].
    intros H. destruct (N.eqb_spec c 47) as [E'|_]; [now subst|].
    rewrite (IH _ H), <- app_assoc. reflexivity.
Qed.

Lemma last_segment_after (acc dir id : jsstring) :
  last_segment acc (dir ++ 47%N :: id) = last_segment [] id.
Proof.
  revert acc. induction dir as [|c dir IH]; intros acc; simpl.
  - reflexivity.
  - destruct (c =? 47)%N; apply IH.
Qed.

Lemma on_method (m p : string) (method path : jsstring) :
  JS.eqb method (lit m) = false -> on m p method path = false.
Proof. unfold on. intros ->. apply andb_false_r. Qed.

Lemma on_true (m p : string) (method path : jsstring) :
  on m p method path = true -> path = lit p /\ method = lit m.
Proof.
  unfold on. rewrite andb_true_iff. intros [H1 H2].
  split; now apply eqb_true.
Qed.

(** X13. A DELETE request for a path under /api/tasks/ from an
    authenticated user sends exactly one statement: the delete of the task
    named by what follows the last slash, restricted to that user. The
    answer is 404 when no row was deleted, 200 when one was, 500 with the
    cause when the statement failed; with nothing after the last slash the
    answer is 400 and no statement is sent. The connection is closed in
    every case. *)
Theorem delete_request_removes_own_task
    (req : Request) (dir id userId : jsstring) (t : list call) :
  connect b = Returned tt ->
  toUpperCase (method req) = lit "DELETE" ->
  pathname req = lit "/api/tasks/" ++ dir ++ id ->
  (dir = [] \/ exists d, dir = d ++ [47%N]) ->
  count_char 47 id = 0 ->
  Handler.getUserId (plan_world b) (authorization req) = (t, Returned userId) ->
  Api.dispatch b nullBodyMessage primitiveMessage getTasksFor getPreferencesFor
    getPlanFor getWeatherFor getApod req
  = match id with
    | [] =>
        (Connect :: map (fun c => Handled (Plan c)) t ++ [Close],
         JsonResponse 400 (error_data (lit "Task ID is required")))
    | _ =>
        (Connect :: map (fun c => Handled (Plan c)) t
           ++ [Handled (Api (DeleteTaskRow id userId)); Close],
         match deleteTaskRow b id userId with
         | Returned rowCount =>
             if (rowCount =? 0)%N
             then JsonResponse 404
                    (error_data (lit "Task not found or not authorized to delete"))
             else JsonResponse 200 (ok_data "Task deleted successfully")
         | Thrown cause =>
             JsonResponse 500
               (error_data (lit "Failed to delete task: " ++ cause))
         end)
    end.
Proof.
  intros Hc Hm Hp Hdir Hid Hu.
  assert (Hl : last_segment [] (pathname req) = id).
  { rewrite Hp. destruct Hdir as [->|[d ->]].
    - change (lit "/api/tasks/" ++ [] ++ id)
        with (lit "/api/tasks" ++ 47%N :: id).
      rewrite last_segment_after. exact (last_segment_plain [] id Hid).
    - replace (lit "/api/tasks/" ++ (d ++ [47%N]) ++ id)
        with ((lit "/api/tasks/" ++ d) ++ 47%N :: id)
        by (rewrite <- !app_assoc; reflexivity).
      rewrite last_segment_after. exact (last_segment_plain [] id Hid). }
  assert (Hr : Api.route b nullBodyMessage primitiveMessage getTasksFor
                 getPreferencesFor getPlanFor getWeatherFor getApod req
               = deleteTask b req).
  { unfold route. cbv zeta. rewrite Hm.
    change (JS.eqb (lit "DELETE") (lit "OPTIONS")) with false. cbv iota.
    rewrite !on_method by reflexivity.
    rewrite Hp. unfold starts_with. rewrite strip_prefix_app.
    rewrite eqb_same. reflexivity. }
  unfold dispatch. rewrite Hc, Hr. unfold deleteTask, lift. rewrite Hu.
  cbn [fst snd]. rewrite bind_lifted, Hl.
  destruct id as [|c id]; cbn [fst snd ret].
  - rewrite app_nil_r, map_map. reflexivity.
  - unfold try_catch, bind, await, ret.
    destruct (deleteTaskRow b (c :: id) userId) as [n|cause]; cbn [app].
    + destruct (n =? 0)%N; cbn [app fst snd map];
        rewrite map_app, map_map, <- app_assoc; reflexivity.
    + cbn [app fst snd map].
      rewrite map_app, map_map, <- app_assoc. cbn [map app].
      unfold message_or_default, lit. reflexivity.
Qed.

Lemma lifted_thrown {A} (m : Handler.M jsstring) (message : jsstring)
      (k : jsstring -> D A) :
  snd m = Thrown message ->
  bind (lift m) k = (map Plan (fst m), Thrown message).
Proof. destruct m as [t r]. simpl. intros ->. reflexivity. Qed.

(** X14. A request for one of the routes that need a user, with a header
    that does not authenticate, is answered with status 500 and the message
    of the failure, which starts with Authentication failed. Nothing
    happens between opening and closing the connection but the calls of the
    authentication itself: no handler reads or writes data. *)
Theorem unauthenticated_request_is_refused
    (req : Request) (message : jsstring) :
  connect b = Returned tt ->
  needs_user req = true ->
  snd (Handler.getUserId (plan_world b) (authorization req)) = Thrown message ->
  Api.dispatch b nullBodyMessage primitiveMessage getTasksFor getPreferencesFor
    getPlanFor getWeatherFor getApod req
  = (Connect
       :: map (fun c => Handled (Plan c))
            (fst (Handler.getUserId (plan_world b) (authorization req)))
       ++ [Close],
     JsonResponse 500 (error_data message))
  /\ exists cause, message = lit "Authentication failed: " ++ cause.
Proof.
  intros Hc Hn Hu.
  destruct (getUserId_thrown b _ _ Hu) as (cause & Hcause).
  split; [|now exists cause].
  assert (Hr : Api.route b nullBodyMessage primitiveMessage getTasksFor
                 getPreferencesFor getPlanFor getWeatherFor getApod req
               = (map Plan (fst (Handler.getUserId (plan_world b)
                                   (authorization req))),
                  Thrown message)).
  { assert (Hplan : planRoute b req
                    = (map Plan (fst (Handler.getUserId (plan_world b)
                                        (authorization req))),
                       Thrown message)).
    { unfold planRoute, lift, Handler.generatePlan.
      destruct (Handler.getUserId (plan_world b) (authorization req))
        as [t0 r0]. simpl in Hu. subst r0. reflexivity. }
    unfold route, needs_user in *. cbv zeta in *.
    set (m := toUpperCase (method req)) in *.
    set (p := pathname req) in *. clearbody m p.
    destruct (JS.eqb m (lit "OPTIONS")); [discriminate Hn|].
    destruct (on "GET" "/health" m p) eqn:E1.
    { apply on_true in E1. destruct E1 as [-> ->]. discriminate Hn. }
    destruct (on "GET" "/" m p) eqn:E2.
    { apply on_true in E2. destruct E2 as [-> ->]. discriminate Hn. }
    unfold createTask, savePreferences, deleteTask, authenticated.
    destruct (on "POST" "/api/tasks" m p); [now apply lifted_thrown|].
    destruct (on "GET" "/api/tasks" m p); [now apply lifted_thrown|].
    destruct (starts_with (lit "/api/tasks/") p && JS.eqb m (lit "DELETE"));
      [now apply lifted_thrown|].
    destruct (on "POST" "/api/preferences" m p); [now apply lifted_thrown|].
    destruct (on "GET" "/api/preferences" m p); [now apply lifted_thrown|].
    destruct (on "POST" "/api/plan" m p); [exact Hplan|].
    destruct (on "GET" "/api/plan" m p); [now apply lifted_thrown|].
    destruct (on "GET" "/api/weather" m p); [now apply lifted_thrown|].
    discriminate Hn. }
  unfold dispatch. rewrite Hc, Hr, map_map. subst message. reflexivity.
Qed.

End DispatchFacts.

(** ** Further sample runs *)

Section ExtraSamples.

Import JS Repair Api.
#[local] Existing Instance Sample.runtime.
#[local] Existing Instance ApiSample.order.

Lemma embedded_object_is_extracted_witness :
  parseAIResponse ApiSample.chatty = Returned ApiSample.plain_summary_value.
Proof.
  apply (embedded_object_is_extracted (lit "Here is your plan: ")
           Sample.plain_summary (lit " Enjoy!")
           ApiSample.plain_summary_value).
  - vm_compute; reflexivity.
  - reflexivity.
  - vm_compute; reflexivity.
  - vm_compute; reflexivity.
  - vm_compute; reflexivity.
  - intros _. vm_compute; reflexivity.
Defined.

Lemma only_error_is_unrecoverable_witness :
  length (lit "Cannot extract valid JSON from AI response: "
          ++ firstn 200 (lit "I cannot plan that.") ++ lit "...") <= 247
  /\ includes q_schedule (cleanContent (lit "I cannot plan that.")) = false.
Proof.
  destruct (only_error_is_unrecoverable (lit "I cannot plan that.")
              (lit "Cannot extract valid JSON from AI response: "
               ++ firstn 200 (lit "I cannot plan that.") ++ lit "..."))
    as (_ & H1 & _ & H2).
  - vm_compute; reflexivity.
  - split; [exact H1|exact H2].
Defined.

Lemma generatePlan_always_answers_witness :
  exists t answer,
    Handler.generatePlan (Sample.world []) Sample.bearer
    = (t, Returned answer)
    /\ status answer = 400%N.
Proof.
  destruct (generatePlan_always_answers (Sample.world []) Sample.bearer
              (lit "user_1") [Sample.prefs1] [])
    as (t & [(answer & H1 & H2 & _)|(p & o & wt & _ & Hne & _)]);
    try reflexivity.
  - exists t, answer. split; [exact H1|]. apply H2. now right.
  - now destruct Hne.
Defined.


Lemma createTask_stores_validated_task_witness :
  lit "Write report" = trim (lit "  Write report ")
  /\ Number_truthy (lit "45") = true.
Proof.
  destruct (createTask_stores_validated_task ApiSample.backend []
              (ApiSample.request "POST" "/api/tasks" Sample.bearer
                 ApiSample.taskBody)
              (lit "user_1") (lit "Write report") (lit "45") (lit "high"))
    as (_ & (body & raw & _) & _ & _ & _ & H & _).
  - vm_compute. repeat (try (left; reflexivity); right).
  - split; [vm_compute; reflexivity|exact H].
Defined.

Lemma createTask_answer_tells_what_happened_witness :
  exists u t d i,
    In (Api (InsertTask u t d i))
       (fst (createTask ApiSample.backend []
               (ApiSample.request "POST" "/api/tasks" Sample.bearer
                  ApiSample.taskBody))).
Proof.
  destruct (createTask_answer_tells_what_happened ApiSample.backend []
              (ApiSample.request "POST" "/api/tasks" Sample.bearer
                 ApiSample.taskBody)
              200%N (ok_data "Task created successfully"))
    as [(_ & _ & u & t & d & i & H & _)|[[H _]|[H _]]];
    try discriminate H.
  - vm_compute; reflexivity.
  - now exists u, t, d, i.
Defined.

Lemma savePreferences_stores_validated_values_witness :
  exists s h m,
    ToString [] (JString (lit "7:30")) = Returned s
    /\ h < 24 /\ m < 60 /\ Clock.written h m s.
Proof.
  destruct (savePreferences_stores_validated_values ApiSample.backend [] []
              (ApiSample.request "POST" "/api/preferences" Sample.bearer
                 ApiSample.preferencesBody)
              (lit "user_1")
              (JString (lit "7:30")) (JString (lit "23:00"))
              (JString (lit "morning")) (JString (lit "Pune"))
              (JString (lit "short")) (JNumber (lit "50"))
              (JNumber (lit "8")) (JString (lit "bike")))
    as (_ & _ & H & _).
  - vm_compute. repeat (try (left; reflexivity); right).
  - exact H.
Defined.

Lemma delete_request_removes_own_task_witness :
  Api.dispatch ApiSample.backend [] [] ApiSample.reader ApiSample.reader
    ApiSample.reader ApiSample.reader (ApiSample.reader [])
    (ApiSample.request "delete" "/api/tasks/42" Sample.bearer JNull)
  = ([Connect; Handled (Plan (VerifyToken (lit "token_1")));
      Handled (Api (DeleteTaskRow (lit "42") (lit "user_1"))); Close],
     JsonResponse 200 (ok_data "Task deleted successfully")).
Proof.
  rewrite (delete_request_removes_own_task ApiSample.backend [] []
             ApiSample.reader ApiSample.reader ApiSample.reader
             ApiSample.reader (ApiSample.reader [])
             (ApiSample.request "delete" "/api/tasks/42" Sample.bearer JNull)
             [] (lit "42") (lit "user_1") [VerifyToken (lit "token_1")]).
  - reflexivity.
  - reflexivity.
  - reflexivity.
  - reflexivity.
  - now left.
  - reflexivity.
  - reflexivity.
Defined.

Lemma unauthenticated_request_is_refused_witness :
  Api.dispatch ApiSample.backend [] [] ApiSample.reader ApiSample.reader
    ApiSample.reader ApiSample.reader (ApiSample.reader [])
    (ApiSample.request "GET" "/api/tasks" None JNull)
  = ([Connect; Close],
     JsonResponse 500
       (error_data
          (lit "Authentication failed: Missing or invalid Authorization header"))).
Proof.
  destruct (unauthenticated_request_is_refused ApiSample.backend [] []
              ApiSample.reader ApiSample.reader ApiSample.reader
              ApiSample.reader (ApiSample.reader [])
              (ApiSample.request "GET" "/api/tasks" None JNull)
              (lit "Authentication failed: Missing or invalid Authorization header"))
    as [H _]; [reflexivity|reflexivity|reflexivity|exact H].
Defined.

End ExtraSamples.
